(** * The storage layer and the publish scheduler of the PubQuiz blog backend

    A shallow embedding of the database layer (the classes
    [InMemoryDatabase] and [PostgreSQLDatabase]), of the scheduler callback
    set up by [startServer] and of the [PUT /posts/:id] handler of
    [admin.js], followed by the properties of the specification that
    concern them.

    Conventions of the embedding.
    - A JavaScript string is a [string] whose characters are its code units;
      the model covers the code units 0..255 (ISO-8859-1 text), on which
      [toLowerCase], [trim] and [includes] are written out exactly.
    - A post is a JavaScript object: a finite map from property names to
      values.  Reading a property that is absent gives [undefined].
    - [new Date()] reads the system clock.  The clock is an oracle
      ([clock k] is what the k-th reading shows) and the state counts the
      readings, so two readings in one operation may differ.
    - An [async] method runs to completion: no other request is interleaved
      with it.  It either returns or throws, and the state it leaves is kept
      in both cases. *)

From stdpp Require Import gmap strings list pretty.
From Stdlib Require Import ZArith Ascii String Permutation.

Open Scope string_scope.
Open Scope Z_scope.

(* ================================================================== *)
(** ** JavaScript values *)

Inductive jsval :=
| VUndef                      (* undefined *)
| VNull                       (* null *)
| VBool (b : bool)
| VNum (n : Z)                (* a finite integral number *)
| VNaN                        (* NaN *)
| VStr (s : string)
| VDate (t : option Z)        (* a Date object; None is Invalid Date *)
| VArr (l : list string).     (* an array of strings, as [tags] is *)

#[global] Instance jsval_eq_dec : EqDecision jsval.
Proof. solve_decision. Defined.

(** A plain object [{k1: v1, ...}]. *)
Abbreviation obj := (gmap string jsval).

(** [o.k] *)
Definition get (k : string) (o : obj) : jsval := default VUndef (o !! k).

(** [{...a, ...b}]: the properties of [b] win. *)
Definition spread (a b : obj) : obj := b ∪ a.

(** ToBoolean, as used by [if (v)], [v || w], [!v] and [filter(Boolean)]. *)
Definition truthy (v : jsval) : bool :=
  match v with
  | VUndef | VNull | VNaN => false
  | VBool b => b
  | VNum n => negb (n =? 0)
  | VStr s => negb (String.eqb s "")
  | VDate _ | VArr _ => true
  end.

(** [a === b].  Date objects and arrays are compared by identity in
    JavaScript; values carry no identity here, and two of them are taken to
    be two objects, as the ones read back from the JSON snapshot or built by
    a route handler are.  The code compares an object with itself in one
    place only: a lookup by an identifier that is a Date or an array, made
    with the stored identifier itself.  No route stores such an identifier;
    where a caller of [createPost] does, JavaScript finds the post and this
    definition finds none.  The statements below that follow a lookup are
    about identifiers that are [===] to themselves, or say what they take
    the lookup to find. *)
Definition strict_eq (a b : jsval) : bool :=
  match a, b with
  | VUndef, VUndef | VNull, VNull => true
  | VBool x, VBool y => Bool.eqb x y
  | VNum x, VNum y => x =? y
  | VStr x, VStr y => String.eqb x y
  | _, _ => false
  end.

(** SameValueZero, the equality of [Set]: as [===] but NaN equals NaN. *)
Definition same_value_zero (a b : jsval) : bool :=
  match a, b with
  | VNaN, VNaN => true
  | _, _ => strict_eq a b
  end.

(** [new Set(l)] followed by [[...set]]: first occurrences, in order. *)
Definition set_add (s : list jsval) (x : jsval) : list jsval :=
  if existsb (same_value_zero x) s then s else (s ++ [x])%list.

Definition new_Set (l : list jsval) : list jsval := fold_left set_add l [].

(* ------------------------------------------------------------------ *)
(** *** Strings *)

Definition code (c : ascii) : N := N_of_ascii c.

(** One code unit of [String.prototype.toLowerCase]: A-Z and the capital
    letters U+00C0..U+00DE (without the sign U+00D7) move up by 32. *)
Definition lower_char (c : ascii) : ascii :=
  let n := code c in
  if ((65 <=? n) && (n <=? 90) ||
      (192 <=? n) && (n <=? 222) && negb (n =? 215))%N
  then ascii_of_N (n + 32) else c.

Fixpoint toLowerCase (s : string) : string :=
  match s with
  | EmptyString => EmptyString
  | String c s' => String (lower_char c) (toLowerCase s')
  end.

(** White space and line terminators below U+0100: TAB, LF, VT, FF, CR,
    SP and NBSP. *)
Definition is_space (c : ascii) : bool :=
  let n := code c in
  ((9 <=? n) && (n <=? 13) || (n =? 32) || (n =? 160))%N.

Fixpoint trimStart (s : string) : string :=
  match s with
  | EmptyString => EmptyString
  | String c s' => if is_space c then trimStart s' else s
  end.

Fixpoint trimEnd (s : string) : string :=
  match s with
  | EmptyString => EmptyString
  | String c s' =>
      let t := trimEnd s' in
      if is_space c && String.eqb t "" then EmptyString else String c t
  end.

(** [s.trim()] *)
Definition trim (s : string) : string := trimEnd (trimStart s).

(** [s.includes(q)] *)
Fixpoint includes (s q : string) : bool :=
  String.prefix q s ||
  match s with
  | EmptyString => false
  | String _ s' => includes s' q
  end.

(** [l.join(sep)] on an array of strings. *)
Fixpoint join (sep : string) (l : list string) : string :=
  match l with
  | [] => ""
  | [x] => x
  | x :: l' => x +:+ sep +:+ join sep l'
  end.

(** [l.findIndex(f)]; [None] stands for -1. *)
Fixpoint findIndex {A} (f : A -> bool) (l : list A) : option nat :=
  match l with
  | [] => None
  | x :: l' => if f x then Some 0%nat else S <$> findIndex f l'
  end.

(** [l.find(f)] *)
Definition find {A} (f : A -> bool) (l : list A) : option A :=
  i ← findIndex f l; l !! i.

(* ================================================================== *)
(** ** What the platform provides *)

(** TimeClip: a time value is at most 8.64e15 ms away from the epoch. *)
Definition time_clip (n : Z) : option Z :=
  if (Z.abs n <=? 8640000000000000) then Some n else None.

Class Runtime := {
  (** the time, in ms since the epoch, shown by the k-th reading of the clock *)
  clock : nat -> Z;
  (** [new Date(t).toISOString()] for a valid time [t] *)
  toISOString : Z -> string;
  (** [Date.parse(s)]; [None] is NaN *)
  parseDate : string -> option Z;
  (** [Array.prototype.sort] under a comparator that may answer NaN
      ([None]): the order is the engine's, the elements are kept *)
  array_sort : (obj -> obj -> option Z) -> list obj -> list obj;
  array_sort_perm cmp l : Permutation (array_sort cmp l) l
}.

(** The time value of [new Date(v)]. *)
Definition Date_of `{Runtime} (v : jsval) : option Z :=
  match v with
  | VUndef | VNaN => None
  | VNull => Some 0
  | VBool b => Some (if b then 1 else 0)
  | VNum n => time_clip n
  | VStr s => parseDate s
  | VDate t => t
  | VArr l => parseDate (join "," l)
  end.

(** [new Date(b) - new Date(a)]; [None] is NaN. *)
Definition Date_diff `{Runtime} (b a : jsval) : option Z :=
  tb ← Date_of b; ta ← Date_of a; Some (tb - ta).

(* ================================================================== *)
(** ** Effects: state, clock, console and exceptions *)

Inductive error :=
| Error (message : string)          (* throw new Error(message) *)
| TypeError (message : string)      (* raised by the engine *)
| DatabaseError (message : string). (* raised by the SQL driver *)

Definition message (e : error) : string :=
  match e with Error m | TypeError m | DatabaseError m => m end.

(** Two error kinds of the specification, as [updatePost] and
    [addCategory] throw them. *)
Definition NotFound : error := Error "Post not found".
Definition InvalidArgument : error := Error "Category name required".

(** What the scheduler writes to the console. *)
Inductive event :=
| Published (id slug : jsval) (at_ : string)
    (* console.log(`[Scheduler] Published post ${id} (${slug}) at ${at_}`) *)
| SchedulerError (msg : string).
    (* console.error('[Scheduler] Error:', msg) *)

Record world (D : Type) := World {
  db : D;                 (* the backend object *)
  reads : nat;            (* clock readings so far *)
  console : list event    (* console output, oldest first *)
}.
Arguments World {D} _ _ _.
Arguments db {D} _.
Arguments reads {D} _.
Arguments console {D} _.

Inductive outcome (D A : Type) :=
| Return (a : A) (w : world D)
| Throw (e : error) (w : world D).
Arguments Return {D A} _ _.
Arguments Throw {D A} _ _.

Definition M (D A : Type) : Type := world D -> outcome D A.

Definition final {D A} (r : outcome D A) : world D :=
  match r with Return _ w | Throw _ w => w end.

Definition value {D A} (r : outcome D A) : option A :=
  match r with Return a _ => Some a | Throw _ _ => None end.

Definition thrown {D A} (r : outcome D A) : option error :=
  match r with Return _ _ => None | Throw e _ => Some e end.

Definition ret {D A} (a : A) : M D A := fun w => Return a w.

Definition bind {D A B} (m : M D A) (f : A -> M D B) : M D B :=
  fun w =>
    match m w with
    | Return a w' => f a w'
    | Throw e w' => Throw e w'
    end.

Declare Scope M_scope.
Delimit Scope M_scope with M.
Bind Scope M_scope with M.
Notation "x ← y ; z" := (bind y (fun x => z))
  (at level 20, y at level 100, z at level 200, only parsing) : M_scope.
Notation "x ;; z" := (bind x (fun _ => z))
  (at level 100, z at level 200, only parsing, right associativity) : M_scope.
Open Scope M_scope.

Definition throw {D A} (e : error) : M D A := fun w => Throw e w.

(** [try { body } catch (e) { handler(e) }] *)
Definition try_catch {D A} (body : M D A) (handler : error -> M D A) : M D A :=
  fun w =>
    match body w with
    | Return a w' => Return a w'
    | Throw e w' => handler e w'
    end.

Definition this {D} : M D D := fun w => Return (db w) w.

Definition assign {D} (f : D -> D) : M D unit :=
  fun w => Return tt (World (f (db w)) (reads w) (console w)).

Definition print {D} (e : event) : M D unit :=
  fun w => Return tt (World (db w) (reads w) (console w ++ [e])%list).

(** [new Date().getTime()], also [Date.now()] *)
Definition Date_now `{Runtime} {D} : M D Z :=
  fun w => Return (clock (reads w)) (World (db w) (S (reads w)) (console w)).

(** [new Date()] *)
Definition new_Date `{Runtime} {D} : M D jsval := t ← Date_now; ret (VDate (Some t)).

(** [new Date().toISOString()] *)
Definition new_Date_toISOString `{Runtime} {D} : M D string :=
  t ← Date_now; ret (toISOString t).

(** [l.filter(f)] for a predicate that may throw. *)
Fixpoint filter_M {D A} (f : A -> M D bool) (l : list A) : M D (list A) :=
  match l with
  | [] => ret []
  | x :: l' =>
      b ← f x;
      r ← filter_M f l';
      ret (if b then x :: r else r)
  end.

(* ================================================================== *)
(** ** class InMemoryDatabase *)

Module InMemoryDatabase.

Record t := Build {
  posts : list obj;
  categories : list string
}.

Definition set_posts (f : list obj -> list obj) (d : t) : t :=
  {| posts := f (posts d); categories := categories d |}.

Definition set_categories (f : list string -> list string) (d : t) : t :=
  {| posts := posts d; categories := f (categories d) |}.

Definition constructor : t :=
  {| posts := [];
     categories := ["Tips & Tricks"; "Case Studies"; "Horeca"; "Team Building";
                    "Onderwijs"; "Product Updates"; "Algemeen"] |}.

Section methods.
Context `{Runtime}.

(** The snapshot goes to [blog-data.json], which is outside the model; a
    failed write is caught and logged inside [saveToFile], so the caller
    sees none.  [lastSaved] reads the clock. *)
Definition saveToFile : M t unit := _ ← new_Date_toISOString; ret tt.

Definition sample_post (id title slug excerpt content author category : string)
    (tags : list string) (publishedDate readTime : string) (featured : bool) : obj :=
  <["id" := VStr id]> (<["title" := VStr title]> (<["slug" := VStr slug]> (
  <["excerpt" := VStr excerpt]> (<["content" := VStr content]> (
  <["author" := VStr author]> (<["category" := VStr category]> (
  <["tags" := VArr tags]> (
  <["image" := VStr "https://images.unsplash.com/photo-1552664730-d307ca884978?w=600&h=400&fit=crop"]> (
  <["publishedDate" := VStr publishedDate]> (<["readTime" := VStr readTime]> (
  <["featured" := VBool featured]> (<["status" := VStr "published"]> (
  <["createdAt" := VDate (parseDate publishedDate)]> (
  <["updatedAt" := VDate (parseDate publishedDate)]> (
  <["commentCount" := VNum 0]> ∅))))))))))))))).

Definition sample_posts : list obj :=
  [ sample_post "1" "Hoe organiseer je de perfecte pubquiz?"
      "perfecte-pubquiz-organiseren"
      "Een stap-voor-stap gids met 10 gouden tips voor het organiseren van een pubquiz."
      "# Hoe organiseer je de perfecte pubquiz?

Organiseren van een pubquiz..."
      "PubQuiz Team" "Tips & Tricks" ["pubquiz"; "tips"; "organiseren"]
      "2025-11-12" "5 min" true;
    sample_post "2" "Team Building Door Quiz: Case Study TechCorp"
      "team-building-case-study"
      "Lees hoe TechCorp hun team building transformeerde met PubQuiz.pro."
      "# Team Building Door Quiz

Team building..."
      "Sarah Jansen" "Case Studies" ["team-building"; "case-study"]
      "2025-11-08" "6 min" true;
    sample_post "3" "Horeca Quiz Avonden: Meer Gasten, Meer Inkomsten"
      "horeca-quiz-meer-bezoekers"
      "Hoe horecaondernemers quiz avonden gebruiken om meer gasten te trekken."
      "# Horeca Quiz Avonden

Quiz avonden zijn..."
      "Mark van Dijk" "Horeca" ["horeca"; "marketing"]
      "2025-11-03" "7 min" false ].

(** [this.users], which no operation below reads, is left out; its
    [createdAt: new Date()] reads the clock. *)
Definition loadSampleData : M t unit :=
  assign (set_posts (fun _ => sample_posts));;
  _ ← new_Date;
  ret tt.

(** [init()] when [blog-data.json] does not exist (the ENOENT branch of
    [loadFromFile]). *)
Definition init : M t unit := loadSampleData;; saveToFile.

Definition getPosts (filters : obj) : M t (list obj) :=
  d ← this;
  let posts := List.filter (fun p => strict_eq (get "status" p) (VStr "published")) (posts d) in
  let posts :=
    if truthy (get "category" filters)
    then List.filter (fun p => strict_eq (get "category" p) (get "category" filters)) posts
    else posts in
  let posts :=
    if negb (strict_eq (get "featured" filters) VUndef)
    then List.filter (fun p => strict_eq (get "featured" p) (get "featured" filters)) posts
    else posts in
  ret (array_sort (fun a b => Date_diff (get "publishedDate" b) (get "publishedDate" a)) posts).

Definition getPostById (id : jsval) : M t (option obj) :=
  d ← this; ret (find (fun p => strict_eq (get "id" p) id) (posts d)).

Definition getPostBySlug (slug : jsval) : M t (option obj) :=
  d ← this; ret (find (fun p => strict_eq (get "slug" p) slug) (posts d)).

Definition createPost (post : obj) : M t obj :=
  t ← Date_now;
  let id := VStr (pretty t) in
  let status :=
    if strict_eq (get "status" post) (VStr "published") then "published" else "draft" in
  publishedDate ←
    (if String.eqb status "published"
     then if truthy (get "publishedDate" post)
          then ret (get "publishedDate" post)
          else s ← new_Date_toISOString; ret (VStr s)
     else ret (get "publishedDate" post));
  createdAt ← new_Date;
  updatedAt ← new_Date;
  let newPost :=
    <["commentCount" := VNum 0]> (<["updatedAt" := updatedAt]> (
    <["createdAt" := createdAt]> (<["publishedDate" := publishedDate]> (
    <["featured" := VBool (truthy (get "featured" post))]> (
    <["status" := VStr status]> (spread {["id" := id]} post)))))) in
  assign (set_posts (fun l => (l ++ [newPost])%list));;
  saveToFile;;
  ret newPost.

Definition updatePost (id : jsval) (updates : obj) : M t obj :=
  d ← this;
  match findIndex (fun p => strict_eq (get "id" p) id) (posts d) with
  | None => throw (Error "Post not found")
  | Some index =>
      updatedAt ← new_Date;
      assign (set_posts (fun l =>
        <[index := <["updatedAt" := updatedAt]> (spread (l !!! index) updates)]> l));;
      saveToFile;;
      d ← this;
      ret (posts d !!! index)
  end.

Definition deletePost (id : jsval) : M t obj :=
  d ← this;
  match findIndex (fun p => strict_eq (get "id" p) id) (posts d) with
  | None => throw (Error "Post not found")
  | Some index =>
      let deleted := posts d !!! index in
      assign (set_posts (fun l => delete index l));;
      saveToFile;;
      ret deleted
  end.

Definition getCategories : M t (list jsval) :=
  d ← this;
  let fromPosts := new_Set (List.filter truthy (map (get "category") (posts d))) in
  ret (new_Set (map VStr (categories d) ++ fromPosts ++ [VStr "Algemeen"])%list).

(** [(name || '').trim()] *)
Definition trimmed {D} (name : jsval) : M D string :=
  match (if truthy name then name else VStr "") with
  | VStr s => ret (trim s)
  | _ => throw (TypeError "(name || '').trim is not a function")
  end.

Definition addCategory (name : jsval) : M t (list jsval) :=
  n ← trimmed name;
  if String.eqb n "" then throw (Error "Category name required") else
  d ← this;
  let exists_ :=
    existsb (fun c => String.eqb (toLowerCase c) (toLowerCase n)) (categories d) in
  (if exists_ then ret tt
   else assign (set_categories (fun l => (l ++ [n])%list));; saveToFile);;
  getCategories.

Definition renameCategory (oldName newName : jsval) : M t (list jsval) :=
  o ← trimmed oldName;
  n ← trimmed newName;
  if String.eqb o "" || String.eqb n "" then throw (Error "Old and new names required") else
  if String.eqb o n then getCategories else
  assign (set_categories (map (fun c => if String.eqb c o then n else c)));;
  assign (set_posts (map (fun p =>
    <["category" := if strict_eq (get "category" p) (VStr o) then VStr n
                    else get "category" p]> p)));;
  saveToFile;;
  getCategories.

(** [reassignTo = 'Algemeen']: the default stands in for [undefined]. *)
Definition deleteCategory (name : jsval) (reassignTo : jsval) : M t (list jsval) :=
  let reassignTo :=
    match reassignTo with VUndef => VStr "Algemeen" | _ => reassignTo end in
  n ← trimmed name;
  if String.eqb n "" then throw (Error "Category name required") else
  assign (set_categories (List.filter (fun c => negb (String.eqb c n))));;
  assign (set_posts (map (fun p =>
    <["category" := if strict_eq (get "category" p) (VStr n) then reassignTo
                    else get "category" p]> p)));;
  saveToFile;;
  getCategories.

(** [v.toLowerCase().includes(q)], for [v] the title or the content *)
Definition lower_includes {D} (v : jsval) (q : string) : M D bool :=
  match v with
  | VStr s => ret (includes (toLowerCase s) q)
  | _ => throw (TypeError "toLowerCase is not a function")
  end.

(** [v.some(tag => tag.includes(q))], for [v] the tags *)
Definition some_includes {D} (v : jsval) (q : string) : M D bool :=
  match v with
  | VArr tags => ret (existsb (fun tag => includes tag q) tags)
  | _ => throw (TypeError "some is not a function")
  end.

(** The predicate of [searchPosts]; [||] evaluates its right operand only
    when the left one is false. *)
Definition matches (q : string) (p : obj) : M t bool :=
  b ← lower_includes (get "title" p) q;
  if b then ret true else
  b ← lower_includes (get "content" p) q;
  if b then ret true else
  some_includes (get "tags" p) q.

Definition searchPosts (query : string) : M t (list obj) :=
  let q := toLowerCase query in
  d ← this;
  filter_M (matches q) (posts d).

End methods.
End InMemoryDatabase.

(* ================================================================== *)
(** ** class PostgreSQLDatabase *)

(** The SQL engine behind [pool.query], with the driver that talks to it.
    Its text functions, its JSONB printer, the order its collation gives,
    the texts the driver sends and the way the engine reads a text into a
    typed column are their own. *)
Class Engine := {
  LOWER : string -> string;
  (** [text LIKE pattern] *)
  LIKE : string -> string -> bool;
  (** [tags::text] *)
  jsonb_text : jsval -> string;
  (** [ORDER BY name] *)
  order_by_name : list string -> list string;
  order_by_name_perm l : Permutation (order_by_name l) l;
  (** [ORDER BY published_date DESC] *)
  order_by_published_date_desc : list obj -> list obj;
  order_by_published_date_desc_perm l : Permutation (order_by_published_date_desc l) l;
  (** the text the driver sends for a bound number: [n.toString()] *)
  number_text : Z -> string;
  (** the text the driver sends for a bound Date, in the local time of the
      process; [None] is the invalid date *)
  date_text : option Z -> string;
  (** the text the driver sends for a bound array: an array literal *)
  array_text : list string -> string;
  (** what a BOOLEAN takes for a text; [None] when the engine refuses it *)
  boolean_in : string -> option bool;
  (** the time value of the Date the driver reads back from a TIMESTAMP
      that was given a text: the engine drops a zone written in the text
      and the driver takes the fields as local time; [None] when the
      engine refuses the text *)
  timestamp_in : string -> option Z;
  (** the time value of the Date the driver reads back from a TIMESTAMP
      that took its default, NOW(), when the clock showed [t]: the engine
      writes the time in the zone of its session and the driver reads the
      fields as local time *)
  NOW : Z -> Z
}.

Module PostgreSQLDatabase.

(** The object holds [pool] and nothing else; what the pool reaches is the
    content of the tables.  A row maps column names to values as the driver
    reads them back: a string for a text column, a boolean for a BOOLEAN, a
    Date for a TIMESTAMP, a number for an INTEGER, the JSON value for a
    JSONB, and [VNull] for NULL. *)
Record t := Build {
  posts_table : list obj;          (* rows of posts *)
  categories_table : list string   (* the names in categories *)
}.

Definition set_posts_table (f : list obj -> list obj) (d : t) : t :=
  {| posts_table := f (posts_table d); categories_table := categories_table d |}.

Definition set_categories_table (f : list string -> list string) (d : t) : t :=
  {| posts_table := posts_table d; categories_table := f (categories_table d) |}.

Definition is_null (v : jsval) : bool :=
  match v with VNull => true | _ => false end.

(** [a = b] in SQL, where NULL equals nothing. *)
Definition sql_eq (a b : jsval) : bool :=
  negb (is_null a) && negb (is_null b) && strict_eq a b.

(** [key.replace(/[A-Z]/g, letter => `_${letter.toLowerCase()}`)] *)
Fixpoint snake_case (key : string) : string :=
  match key with
  | EmptyString => EmptyString
  | String c key' =>
      if ((65 <=? code c) && (code c <=? 90))%N
      then String "_" (String (lower_char c) (snake_case key'))
      else String c (snake_case key')
  end.

Definition allowedFields : list string :=
  ["title"; "slug"; "excerpt"; "content"; "author"; "category"; "tags"; "image";
   "published_date"; "read_time"; "featured"; "status"].

Definition includes_field (l : list string) (k : string) : bool :=
  existsb (String.eqb k) l.

(** The types of the columns of [posts]. *)
Inductive sqltype :=
| TEXT
| VARCHAR (n : nat)
| JSONB
| TIMESTAMP
| BOOLEAN
| INTEGER.

(** [CREATE TABLE posts]: each column with its type and whether it is
    NOT NULL, which a PRIMARY KEY is too. *)
Definition columns : list (string * (sqltype * bool)) :=
  [("id", (VARCHAR 255, true)); ("title", (TEXT, true)); ("slug", (VARCHAR 255, true));
   ("excerpt", (TEXT, false)); ("content", (TEXT, false)); ("author", (VARCHAR 255, false));
   ("category", (VARCHAR 255, false)); ("tags", (JSONB, false)); ("image", (TEXT, false));
   ("published_date", (TIMESTAMP, false)); ("read_time", (VARCHAR 50, false));
   ("featured", (BOOLEAN, false)); ("status", (VARCHAR 50, false));
   ("created_at", (TIMESTAMP, false)); ("updated_at", (TIMESTAMP, false));
   ("comment_count", (INTEGER, false))].

Fixpoint column_type (l : list (string * (sqltype * bool))) (column : string) :
    option (sqltype * bool) :=
  match l with
  | [] => None
  | (c, ty) :: l' => if String.eqb c column then Some ty else column_type l' column
  end.

(** A value a column of the type can hold. *)
Definition has_type (ty : sqltype) (v : jsval) : bool :=
  match v, ty with
  | VNull, _ => true
  | VStr _, TEXT => true
  | VStr s, VARCHAR n => Nat.leb (String.length s) n
  | (VBool _ | VNum _ | VStr _ | VArr _), JSONB => true
  | VDate (Some _), TIMESTAMP => true
  | VBool _, BOOLEAN => true
  | VNum n, INTEGER => (-2147483648 <=? n) && (n <=? 2147483647)
  | _, _ => false
  end.

Section methods.
Context `{Runtime} `{Engine}.

(** A query parameter as the engine receives it: NULL for [null] and
    [undefined], and else a text, the string itself or what the driver
    writes for the value. *)
Definition param (v : jsval) : jsval :=
  match v with
  | VUndef | VNull => VNull
  | VStr s => VStr s
  | VBool b => VStr (if b then "true" else "false")
  | VNum n => VStr (number_text n)
  | VNaN => VStr "NaN"
  | VDate t => VStr (date_text t)
  | VArr l => VStr (array_text l)
  end.

(** What a BOOLEAN takes for a bound value; [None] when the engine refuses
    it.  The texts of [true] and [false] are read as such. *)
Definition boolean (v : jsval) : option jsval :=
  match v with
  | VBool b => Some (VBool b)
  | _ => match param v with
         | VStr s => VBool <$> boolean_in s
         | _ => Some VNull
         end
  end.

(** What a TIMESTAMP takes for a bound value, as the driver reads it back;
    [None] when the engine refuses it.  A Date is written in the local time
    of the process and read back in that same zone: it comes back as it
    was. *)
Definition timestamp (v : jsval) : option jsval :=
  match v with
  | VDate (Some t) => Some (VDate (Some t))
  | _ => match param v with
         | VStr s => (fun t => VDate (Some t)) <$> timestamp_in s
         | _ => Some VNull
         end
  end.

(** [JSON.stringify(v)] stored in a JSONB column and parsed back by the
    driver. *)
Definition jsonb (v : jsval) : jsval :=
  match v with
  | VUndef => VNull
  | VNaN => VNull
  | VDate (Some t) => VStr (toISOString t)
  | VDate None => VNull
  | _ => v
  end.

(** *** The schema of [createTables] *)

(** [VARCHAR(n)] *)
Definition fits (n : nat) (v : jsval) : bool :=
  match v with
  | VStr s => Nat.leb (String.length s) n
  | _ => true
  end.

Definition not_null (v : jsval) : bool := negb (is_null v).

(** No two rows agree on [column] ([PRIMARY KEY], [UNIQUE]). *)
Fixpoint unique (column : string) (rows : list obj) : bool :=
  match rows with
  | [] => true
  | r :: rows' =>
      negb (existsb (fun r' => sql_eq (get column r') (get column r)) rows')
      && unique column rows'
  end.

(** The value suits the column: it has its type, and is not NULL where
    the column is NOT NULL. *)
Definition column_ok (column : string) (v : jsval) : bool :=
  match column_type columns column with
  | Some (ty, required) => has_type ty v && (negb required || not_null v)
  | None => false
  end.

Definition row_ok (r : obj) : bool :=
  forallb (fun column => column_ok column (get column r)) columns.*1.

Definition posts_ok (rows : list obj) : bool :=
  forallb row_ok rows && unique "id" rows && unique "slug" rows.

(** A statement on [posts] whose result would break a constraint fails and
    changes nothing. *)
Definition query_posts (f : list obj -> list obj) : M t unit :=
  d ← this;
  if posts_ok (f (posts_table d)) then assign (set_posts_table f)
  else throw (DatabaseError "violates a constraint of posts").

Definition mapPostFromDb (row : obj) : obj :=
  <["id" := get "id" row]> (<["title" := get "title" row]> (
  <["slug" := get "slug" row]> (<["excerpt" := get "excerpt" row]> (
  <["content" := get "content" row]> (<["author" := get "author" row]> (
  <["category" := get "category" row]> (
  <["tags" := if truthy (get "tags" row) then get "tags" row else VArr []]> (
  <["image" := get "image" row]> (
  <["publishedDate" := get "published_date" row]> (
  <["readTime" := get "read_time" row]> (<["featured" := get "featured" row]> (
  <["status" := get "status" row]> (<["createdAt" := get "created_at" row]> (
  <["updatedAt" := get "updated_at" row]> (
  <["commentCount" := if truthy (get "comment_count" row)
                      then get "comment_count" row else VNum 0]> ∅))))))))))))))).

(** [v || w] *)
Definition or_else (v w : jsval) : jsval := if truthy v then v else w.

(** [SELECT * FROM posts WHERE id = $1] *)
Definition getPostById (id : jsval) : M t (option obj) :=
  d ← this;
  ret (mapPostFromDb <$>
       head (List.filter (fun r => sql_eq (get "id" r) (param id)) (posts_table d))).

Definition getPostBySlug (slug : jsval) : M t (option obj) :=
  d ← this;
  ret (mapPostFromDb <$>
       head (List.filter (fun r => sql_eq (get "slug" r) (param slug)) (posts_table d))).

(** The row an INSERT of [createPost] gives the table: the text columns
    hold the texts of the values bound, [created_at] and [updated_at] their
    default, NOW(). *)
Definition inserted (post : obj) (id published_date : jsval) (status : string)
    (now : jsval) : obj :=
  <["id" := param id]> (<["title" := param (get "title" post)]> (
  <["slug" := param (get "slug" post)]> (
  <["excerpt" := param (or_else (get "excerpt" post) (VStr ""))]> (
  <["content" := param (or_else (get "content" post) (VStr ""))]> (
  <["author" := param (or_else (get "author" post) (VStr ""))]> (
  <["category" := param (or_else (get "category" post) (VStr ""))]> (
  <["tags" := jsonb (or_else (get "tags" post) (VArr []))]> (
  <["image" := param (or_else (get "image" post) (VStr ""))]> (
  <["published_date" := published_date]> (
  <["read_time" := param (or_else (get "readTime" post) (VStr ""))]> (
  <["featured" := VBool (truthy (get "featured" post))]> (
  <["status" := VStr status]> (<["comment_count" := VNum 0]> (
  <["created_at" := now]> (<["updated_at" := now]> ∅))))))))))))))).

(** The engine reads the values bound before it runs the statement: a
    [publishedDate] it cannot read as a TIMESTAMP makes the INSERT fail
    before a row is built.  The time NOW() starts from is read from the
    same clock as [new Date()]. *)
Definition createPost (post : obj) : M t (option obj) :=
  id ← (if truthy (get "id" post) then ret (get "id" post)
        else t ← Date_now; ret (VStr (pretty t)));
  let status :=
    if strict_eq (get "status" post) (VStr "published") then "published" else "draft" in
  publishedDate ←
    (if String.eqb status "published"
     then if truthy (get "publishedDate" post)
          then ret (get "publishedDate" post)
          else s ← new_Date_toISOString; ret (VStr s)
     else ret (get "publishedDate" post));
  match timestamp publishedDate with
  | None => throw (DatabaseError "invalid input syntax")
  | Some published_date =>
      t ← Date_now;
      query_posts (fun rows =>
        (rows ++ [inserted post id published_date status (VDate (Some (NOW t)))])%list);;
      getPostById id
  end.

(** The assignments of the SET clause: for each entry of [updates] whose
    column is allowed, the column and the value bound to it. *)
Definition assignments (updates : obj) : list (string * jsval) :=
  omap (fun '(key, value) =>
          let dbKey := snake_case key in
          if includes_field allowedFields dbKey
          then Some (dbKey, if String.eqb dbKey "tags" then jsonb value else value)
          else None)
       (map_to_list updates).

(** What a column of the SET clause takes for the value bound to it;
    [None] when the engine refuses the value.  The columns the code assigns
    are [updated_at] and the allowed ones: [published_date] is a TIMESTAMP,
    [featured] a BOOLEAN, [tags] a JSONB, given here as the JSON value, and
    the others hold text. *)
Definition stored (column : string) (v : jsval) : option jsval :=
  if String.eqb column "published_date" || String.eqb column "updated_at" then timestamp v
  else if String.eqb column "featured" then boolean v
  else if String.eqb column "tags" then Some v
  else Some (param v).

Definition stored_fields (fields : list (string * jsval)) : option (list (string * jsval)) :=
  mapM (fun '(column, v) => v' ← stored column v; Some (column, v'))%stdpp fields.

Definition set_columns (fields : list (string * jsval)) (row : obj) : obj :=
  fold_left (fun r '(column, v) => <[column := v]> r) fields row.

(** PostgreSQL rejects a SET clause that names a column twice, and then a
    value it cannot read into its column. *)
Definition updatePost (id : jsval) (updates : obj) : M t (option obj) :=
  let fields := assignments updates in
  if Nat.eqb (List.length fields) 0 then getPostById id else
  updated ← new_Date;
  let fields := (fields ++ [("updated_at", updated)])%list in
  (if bool_decide (NoDup fields.*1)
   then match stored_fields fields with
        | Some fields =>
            query_posts (map (fun r =>
              if sql_eq (get "id" r) (param id) then set_columns fields r else r))
        | None => throw (DatabaseError "invalid input syntax")
        end
   else throw (DatabaseError "multiple assignments to same column"));;
  getPostById id.

Definition deletePost (id : jsval) : M t obj :=
  post ← getPostById id;
  match post with
  | None => throw (Error "Post not found")
  | Some post =>
      assign (set_posts_table
        (List.filter (fun r => negb (sql_eq (get "id" r) (param id)))));;
      ret post
  end.

Definition getCategories : M t (list string) :=
  d ← this;
  let categories := order_by_name (categories_table d) in
  ret (if includes_field categories "Algemeen" then categories
       else (categories ++ ["Algemeen"])%list).

(** [INSERT INTO categories (name) VALUES ($1) ON CONFLICT (name) DO NOTHING];
    [name] is a [VARCHAR(255)]. *)
Definition addCategory (name : jsval) : M t (list string) :=
  n ← InMemoryDatabase.trimmed name;
  if String.eqb n "" then throw (Error "Category name required") else
  d ← this;
  (if negb (Nat.leb (String.length n) 255)
   then throw (DatabaseError "value too long for type character varying(255)")
   else if includes_field (categories_table d) n then ret tt
   else assign (set_categories_table (fun l => (l ++ [n])%list)));;
  getCategories.

(** Three-valued OR; [None] is NULL. *)
Definition sql_or (a b : option bool) : option bool :=
  match a, b with
  | Some true, _ | _, Some true => Some true
  | Some false, Some false => Some false
  | _, _ => None
  end.

(** [LOWER(column) LIKE $1] *)
Definition lower_like (v : jsval) (q : string) : option bool :=
  match v with
  | VStr s => Some (LIKE (LOWER s) q)
  | _ => None
  end.

(** [tags::text LIKE $1] *)
Definition text_like (v : jsval) (q : string) : option bool :=
  match v with
  | VNull => None
  | _ => Some (LIKE (jsonb_text v) q)
  end.

Definition where_search (q : string) (r : obj) : bool :=
  match sql_or (lower_like (get "title" r) q)
          (sql_or (lower_like (get "content" r) q) (text_like (get "tags" r) q)) with
  | Some true => true
  | _ => false
  end.

Definition searchPosts (query : string) : M t (list obj) :=
  let q := "%" +:+ toLowerCase query +:+ "%" in
  d ← this;
  ret (mapPostFromDb <$>
       order_by_published_date_desc (List.filter (where_search q) (posts_table d))).

(** [SELECT * FROM posts WHERE status = $1 ... ORDER BY published_date DESC];
    the parameter compared with [featured] is read as a BOOLEAN. *)
Definition getPosts (filters : obj) : M t (list obj) :=
  d ← this;
  let rows := List.filter (fun r => sql_eq (get "status" r) (VStr "published")) (posts_table d) in
  let rows :=
    if truthy (get "category" filters)
    then List.filter (fun r => sql_eq (get "category" r) (param (get "category" filters))) rows
    else rows in
  if negb (strict_eq (get "featured" filters) VUndef)
  then match boolean (get "featured" filters) with
       | Some featured =>
           ret (mapPostFromDb <$>
                order_by_published_date_desc
                  (List.filter (fun r => sql_eq (get "featured" r) featured) rows))
       | None => throw (DatabaseError "invalid input syntax")
       end
  else ret (mapPostFromDb <$> order_by_published_date_desc rows).

End methods.
End PostgreSQLDatabase.

(* ================================================================== *)
(** ** The object returned by [getDatabase()] *)

(** What the scheduler and the admin routes use of it. *)
Class Backend (D : Type) := {
  (** the property [posts]; [None] when the object has none *)
  db_posts : D -> option (list obj);
  (** [updatePost(id, updates)]; [None] is a [null] result *)
  db_updatePost : jsval -> obj -> M D (option obj)
}.

#[global] Instance InMemory_Backend `{Runtime} : Backend InMemoryDatabase.t := {
  db_posts d := Some (InMemoryDatabase.posts d);
  db_updatePost id updates := p ← InMemoryDatabase.updatePost id updates; ret (Some p)
}.

#[global] Instance PostgreSQL_Backend `{Runtime} `{Engine} : Backend PostgreSQLDatabase.t := {
  db_posts _ := None;
  db_updatePost := PostgreSQLDatabase.updatePost
}.

(* ================================================================== *)
(** ** The scheduler of [startServer] *)

Module Scheduler.
Section scheduler.
Context `{Runtime} {D : Type} `{!Backend D}.

(** [db.posts || []].  The loop holds the array itself: what [updatePost]
    writes into it is seen by the iteration. *)
Definition posts_array (d : D) : list obj := default [] (db_posts d).

(** The two tests of the loop body, [when] being
    [new Date(p.scheduledPublishDate)]. *)
Definition due (now : Z) (p : obj) : bool :=
  negb (strict_eq (get "status" p) (VStr "published")) &&
  truthy (get "scheduledPublishDate" p) &&
  match Date_of (get "scheduledPublishDate" p) with
  | Some when => when <=? now
  | None => false
  end.

Definition publish (p : obj) : M D unit :=
  publishedDate ← new_Date_toISOString;
  db_updatePost (get "id" p)
    (<["status" := VStr "published"]> (<["publishedDate" := VStr publishedDate]> (
     <["scheduledPublishDate" := VUndef]> ∅)));;
  at_ ← new_Date_toISOString;
  print (Published (get "id" p) (get "slug" p) at_).

(** [for (const p of posts) ...] from index [i] on.  The iterator reads
    [posts[i]] from the array as it then is and stops past its end; [n]
    bounds the steps left and makes the recursion structural. *)
Fixpoint scan (n : nat) (i : nat) (now : Z) : M D unit :=
  match n with
  | O => ret tt
  | S n' =>
      d ← this;
      match posts_array d !! i with
      | None => ret tt
      | Some p =>
          (if due now p then publish p else ret tt);;
          scan n' (S i) now
      end
  end.

(** The callback of [setInterval].  The steps allowed are as many as the
    array has elements when the loop starts: [updatePost] replaces an
    element and never adds one. *)
Definition tick : M D unit :=
  try_catch
    (now ← Date_now;
     d ← this;
     scan (List.length (posts_array d)) 0 now)
    (fun e => print (SchedulerError (message e))).

(** The timer firing [n] times. *)
Fixpoint ticks (n : nat) : M D unit :=
  match n with
  | O => ret tt
  | S n' => tick;; ticks n'
  end.

End scheduler.
End Scheduler.

(* ================================================================== *)
(** ** [router.put('/posts/:id')] of the admin routes *)

Module Admin.

Inductive response :=
| Updated (post : option obj)   (* { success: true, post } *)
| Status500 (error : string).   (* status 500, { success: false, error } *)

Definition contract_fields : list string :=
  ["title"; "slug"; "excerpt"; "content"; "category"; "tags"; "image"; "author";
   "status"; "featured"].

(** [{ title, slug, ..., featured }] after
    [const { title, slug, ..., featured } = req.body]. *)
Definition updates_of (body : obj) : obj :=
  fold_right (fun k o => <[k := get k body]> o) ∅ contract_fields.

Definition put_post {D} `{!Backend D} (id : string) (body : obj) : M D response :=
  try_catch
    (updated ← db_updatePost (VStr id) (updates_of body);
     ret (Updated updated))
    (fun e => ret (Status500 (message e))).

End Admin.

(* ================================================================== *)
(** ** A reference platform, to run the model on examples *)

Module Reference.

(** [z] in decimal on [n] digits. *)
Fixpoint digits (n : nat) (z : Z) : string :=
  match n with
  | O => ""
  | S n' => digits n' (z / 10) +:+ String (ascii_of_N (48 + Z.to_N (z mod 10))) ""
  end.

(** Year, month and day of the day number [z] (days since 1970-01-01) in
    the proleptic Gregorian calendar. *)
Definition civil_from_days (z : Z) : Z * Z * Z :=
  let z := z + 719468 in
  let era := z / 146097 in
  let doe := z - era * 146097 in
  let yoe := (doe - doe / 1460 + doe / 36524 - doe / 146096) / 365 in
  let doy := doe - (365 * yoe + yoe / 4 - yoe / 100) in
  let mp := (5 * doy + 2) / 153 in
  let d := doy - (153 * mp + 2) / 5 + 1 in
  let m := if mp <? 10 then mp + 3 else mp - 9 in
  (if m <=? 2 then yoe + era * 400 + 1 else yoe + era * 400, m, d).

Definition days_from_civil (y m d : Z) : Z :=
  let y := if m <=? 2 then y - 1 else y in
  let era := y / 400 in
  let yoe := y - era * 400 in
  let doy := (153 * (if 2 <? m then m - 3 else m + 9) + 2) / 5 + d - 1 in
  let doe := yoe * 365 + yoe / 4 - yoe / 100 + doy in
  era * 146097 + doe - 719468.

(** YYYY-MM-DDTHH:mm:ss.sssZ, for the years 0 to 9999. *)
Definition toISOString (t : Z) : string :=
  let '(y, m, d) := civil_from_days (t / 86400000) in
  let ms := t mod 86400000 in
  digits 4 y +:+ "-" +:+ digits 2 m +:+ "-" +:+ digits 2 d +:+ "T" +:+
  digits 2 (ms / 3600000) +:+ ":" +:+ digits 2 (ms / 60000 mod 60) +:+ ":" +:+
  digits 2 (ms / 1000 mod 60) +:+ "." +:+ digits 3 (ms mod 1000) +:+ "Z".

(** The number written by a string of decimal digits. *)
Fixpoint number (acc : Z) (s : string) : option Z :=
  match s with
  | EmptyString => Some acc
  | String c s' =>
      let n := code c in
      if ((48 <=? n) && (n <=? 57))%N then number (10 * acc + Z.of_N (n - 48)) s'
      else None
  end.

Definition field (from len : nat) (s : string) : option Z :=
  number 0 (substring from len s).

Definition same_day (a b : Z * Z * Z) : bool :=
  let '(y, m, d) := a in
  let '(y', m', d') := b in
  (y =? y') && (m =? m') && (d =? d').

Definition day_of (s : string) : option Z :=
  (y ← field 0 4 s; m ← field 5 2 s; d ← field 8 2 s;
   if String.eqb (substring 4 1 s) "-" && String.eqb (substring 7 1 s) "-" &&
      (1 <=? m) && (m <=? 12) && (1 <=? d) &&
      same_day (civil_from_days (days_from_civil y m d)) (y, m, d)
   then Some (days_from_civil y m d) else None)%stdpp.

Definition time_of (s : string) : option Z :=
  (h ← field 11 2 s; mi ← field 14 2 s; sec ← field 17 2 s; ms ← field 20 3 s;
   if String.eqb (substring 10 1 s) "T" && String.eqb (substring 13 1 s) ":" &&
      String.eqb (substring 16 1 s) ":" && String.eqb (substring 19 1 s) "." &&
      String.eqb (substring 23 1 s) "Z" &&
      (h <=? 23) && (mi <=? 59) && (sec <=? 59)
   then Some (((h * 60 + mi) * 60 + sec) * 1000 + ms) else None)%stdpp.

(** [Date.parse] on the two forms the application writes: YYYY-MM-DD and
    YYYY-MM-DDTHH:mm:ss.sssZ, both in UTC.  Other strings are not dates. *)
Definition parseDate (s : string) : option Z :=
  (if Nat.eqb (String.length s) 10 then d ← day_of s; Some (d * 86400000)
   else if Nat.eqb (String.length s) 24
   then d ← day_of s; t ← time_of s; Some (d * 86400000 + t)
   else None)%stdpp.

(** A stable insertion sort; a comparison that answers NaN moves nothing. *)
Fixpoint insert {A} (cmp : A -> A -> option Z) (x : A) (l : list A) : list A :=
  match l with
  | [] => [x]
  | y :: l' =>
      match cmp y x with
      | Some c => if 0 <? c then x :: y :: l' else y :: insert cmp x l'
      | None => y :: insert cmp x l'
      end
  end.

Definition sort {A} (cmp : A -> A -> option Z) (l : list A) : list A :=
  fold_left (fun acc x => insert cmp x acc) l [].

(** The clock starts at 2025-12-01T00:00:00.000Z and shows one second more
    at each reading. *)
#[export] Instance runtime : Runtime.
Proof.
  refine (Build_Runtime (fun k => 1764547200000 + 1000 * Z.of_nat k)
            toISOString parseDate sort _).
  assert (Hins : forall cmp (x : obj) l, Permutation (insert cmp x l) (x :: l)).
  { intros cmp x l. induction l as [|y l IH]; simpl; [reflexivity|].
    destruct (cmp y x) as [c|]; [destruct (0 <? c)|]; try reflexivity;
      rewrite IH; apply perm_swap. }
  intros cmp l. unfold sort.
  assert (Hgen : forall acc, Permutation
            (fold_left (fun acc x => insert cmp x acc) l acc) (acc ++ l)%list).
  { induction l as [|x l IH]; intros acc; simpl.
    - rewrite app_nil_r. reflexivity.
    - rewrite IH, Hins. apply Permutation_middle. }
  apply (Hgen []).
Defined.

(** [LIKE]: [%] stands for any text, [_] for any one character, and a
    backslash takes the next character literally. *)
Fixpoint like (pattern : string) : string -> bool :=
  match pattern with
  | EmptyString => fun s => String.eqb s ""
  | String c pattern' =>
      if Ascii.eqb c "%" then
        fix any (s : string) : bool :=
          like pattern' s ||
          match s with EmptyString => false | String _ s' => any s' end
      else if Ascii.eqb c "_" then
        fun s => match s with EmptyString => false | String _ s' => like pattern' s' end
      else if Ascii.eqb c "\" then
        match pattern' with
        | EmptyString => fun _ => false
        | String c' pattern'' => fun s =>
            match s with
            | EmptyString => false
            | String x s' => Ascii.eqb x c' && like pattern'' s'
            end
        end
      else
        fun s => match s with
                 | EmptyString => false
                 | String x s' => Ascii.eqb x c && like pattern' s'
                 end
  end.

Definition quote : string := String (ascii_of_N 34) "".

(** A JSON string, for text without control characters. *)
Fixpoint escaped (s : string) : string :=
  match s with
  | EmptyString => ""
  | String c s' =>
      if Ascii.eqb c (ascii_of_N 34) || Ascii.eqb c "\"
      then String "\" (String c (escaped s')) else String c (escaped s')
  end.

Definition jsonb_text (v : jsval) : string :=
  match v with
  | VArr l => "[" +:+ join ", " (map (fun s => quote +:+ escaped s +:+ quote) l) +:+ "]"
  | VStr s => quote +:+ escaped s +:+ quote
  | VNum n => pretty n
  | VBool true => "true"
  | VBool false => "false"
  | _ => "null"
  end.

Definition by_name (a b : string) : option Z :=
  Some (match String.compare a b with Lt => -1 | Eq => 0 | Gt => 1 end).

(** The later date first, and NULL before any date, as the engine orders
    a descending column. *)
Definition by_published_date_desc (a b : obj) : option Z :=
  match get "published_date" a, get "published_date" b with
  | VDate (Some x), VDate (Some y) => Some (y - x)
  | VDate (Some _), _ => Some 1
  | _, VDate (Some _) => Some (-1)
  | _, _ => Some 0
  end.

(** The local time of a process set to UTC, with its offset. *)
Definition date_text (t : option Z) : string :=
  match t with
  | Some t => substring 0 23 (toISOString t) +:+ "+00:00"
  | None => "NaN-NaN-NaNTNaN:NaN:NaN.NaN+NaN:NaN"
  end.

(** An array literal: the elements between double quotes, a backslash
    before each double quote and each backslash. *)
Definition array_text (l : list string) : string :=
  "{" +:+ join "," (map (fun s => quote +:+ escaped s +:+ quote) l) +:+ "}".

(** The spellings of a BOOLEAN in full; any other text is refused here. *)
Definition boolean_in (s : string) : option bool :=
  let s := toLowerCase (trim s) in
  if String.eqb s "true" || String.eqb s "t" || String.eqb s "yes" ||
     String.eqb s "on" || String.eqb s "1" then Some true
  else if String.eqb s "false" || String.eqb s "f" || String.eqb s "no" ||
          String.eqb s "off" || String.eqb s "0" then Some false
  else None.

#[export] Instance engine : Engine.
Proof.
  assert (Hins : forall A cmp (x : A) l, Permutation (insert cmp x l) (x :: l)).
  { intros A cmp x l. induction l as [|y l IH]; simpl; [reflexivity|].
    destruct (cmp y x) as [c|]; [destruct (0 <? c)|]; try reflexivity;
      rewrite IH; apply perm_swap. }
  assert (Hsort : forall A cmp (l : list A), Permutation (sort cmp l) l).
  { intros A cmp l. unfold sort.
    assert (Hgen : forall acc, Permutation
              (fold_left (fun acc x => insert cmp x acc) l acc) (acc ++ l)%list).
    { induction l as [|x l IH]; intros acc; simpl.
      - rewrite app_nil_r. reflexivity.
      - rewrite IH, Hins. apply Permutation_middle. }
    apply (Hgen []). }
  exact (Build_Engine toLowerCase (fun s pattern => like pattern s) jsonb_text
           (sort by_name) (Hsort _ _)
           (sort by_published_date_desc) (Hsort _ _)
           pretty date_text array_text boolean_in parseDate (fun t => t)).
Defined.

End Reference.

(* ================================================================== *)
(** ** Notions used by the statements *)

(** The record [updatePost] stores: [{...p, ...updates, updatedAt: now}]. *)
Definition merged (p updates : obj) (now : Z) : obj :=
  <["updatedAt" := VDate (Some now)]> (spread p updates).

(** The world the in-memory [updatePost] leaves when it finds the post at
    [index]: the clock was read for [updatedAt] and for [lastSaved]. *)
Definition updated_world `{Runtime} (w : world InMemoryDatabase.t) (index : nat)
    (updates : obj) : world InMemoryDatabase.t :=
  World
    (InMemoryDatabase.set_posts
       (fun l => <[index := merged (l !!! index) updates (clock (reads w))]> l) (db w))
    (S (S (reads w))) (console w).

(** The identifiers of the stored posts. *)
Definition ids (l : list obj) : list jsval := map (get "id") l.

(** The values are primitive (each is [===] to itself: no NaN, no object)
    and differ from one another under [===]. *)
Fixpoint distinct (vs : list jsval) : bool :=
  match vs with
  | [] => true
  | v :: vs' => strict_eq v v && negb (existsb (strict_eq v) vs') && distinct vs'
  end.

(** The object the scheduler hands to [updatePost]. *)
Definition promotion (publishedDate : string) : obj :=
  <["status" := VStr "published"]> (<["publishedDate" := VStr publishedDate]> (
  <["scheduledPublishDate" := VUndef]> ∅)).

(** A post promoted by the scheduler: [published] is the clock reading
    behind [publishedDate], [updated] the one behind [updatedAt]. *)
Definition promoted `{Runtime} (p : obj) (published updated : Z) : obj :=
  merged p (promotion (toISOString published)) updated.

(** [scan_to now i w j w']: the loop of the scheduler, at index [i] in the
    world [w], gets to index [j] in the world [w'], no step having thrown. *)
Inductive scan_to `{Runtime} {D : Type} `{!Backend D} (now : Z) :
    nat -> world D -> nat -> world D -> Prop :=
| scan_to_here i w : scan_to now i w i w
| scan_to_next i w p w1 j w' :
    Scheduler.posts_array (db w) !! i = Some p ->
    (if Scheduler.due now p then Scheduler.publish p else ret tt) w = Return tt w1 ->
    scan_to now (S i) w1 j w' ->
    scan_to now i w j w'.

(** What [publish] does to a stored post whose identifier resolves to it:
    four readings of the clock (publishedDate, updatedAt, lastSaved and the
    console line), one record replaced. *)
Definition published_world `{Runtime} (w : world InMemoryDatabase.t) (i : nat) (p : obj) :
    world InMemoryDatabase.t :=
  World
    (InMemoryDatabase.set_posts
       (fun l => <[i := promoted p (clock (reads w)) (clock (S (reads w)))]> l) (db w))
    (4 + reads w)
    (console w ++
       [Published (get "id" p) (get "slug" p) (toISOString (clock (3 + reads w)))]).


(** [p], at [index], is the first post of [l] whose identifier is [id]:
    the one [findIndex] and [find] answer. *)
Definition first_with_id (l : list obj) (id : jsval) (index : nat) (p : obj) : Prop :=
  l !! index = Some p /\ strict_eq (get "id" p) id = true /\
  forall j q, (j < index)%nat -> l !! j = Some q -> strict_eq (get "id" q) id = false.

(** No post of [l] has the identifier [id]. *)
Definition no_post_with_id (l : list obj) (id : jsval) : Prop :=
  forall p, p ∈ l -> strict_eq (get "id" p) id = false.

(** No key of [updates] names an allowed column. *)
Definition nothing_allowed (updates : obj) : Prop :=
  forall key, is_Some (updates !! key) ->
    PostgreSQLDatabase.includes_field PostgreSQLDatabase.allowedFields
      (PostgreSQLDatabase.snake_case key) = false.

(** [(name || '')] is a string that is empty once trimmed. *)
Definition blank (name : jsval) : Prop :=
  exists s, (if truthy name then name else VStr "") = VStr s /\ trim s = "".

(** [(name || '')] is a string, and [n] is what is left of it once trimmed. *)
Definition trims_to (name : jsval) (n : string) : Prop :=
  exists s, (if truthy name then name else VStr "") = VStr s /\ trim s = n.

(** The operation [m] keeps the property [P] of the backend, whether it
    returns or throws. *)
Definition preserves {D A : Type} (P : D -> Prop) (m : M D A) : Prop :=
  forall w, P (db w) -> P (db (final (m w))).

(** The constraints of the table of posts hold. *)
Definition constrained (d : PostgreSQLDatabase.t) : Prop :=
  PostgreSQLDatabase.posts_ok (PostgreSQLDatabase.posts_table d) = true.


(** The title and the content of [p] are strings and its tags an array:
    the search predicate raises no TypeError on it. *)
Definition searchable (p : obj) : bool :=
  match get "title" p, get "content" p, get "tags" p with
  | VStr _, VStr _, VArr _ => true
  | _, _, _ => false
  end.

(** What the search predicate answers on such a post, [q] being the query
    in lower case. *)
Definition hit (q : string) (p : obj) : bool :=
  match get "title" p, get "content" p, get "tags" p with
  | VStr title, VStr content, VArr tags =>
      includes (toLowerCase title) q || includes (toLowerCase content) q ||
      existsb (fun tag => includes tag q) tags
  | _, _, _ => false
  end.

(** Worlds to run the model on, under the reference platform. *)
Module Examples.

Definition scheduled (id : jsval) (slug when : string) : obj :=
  <["id" := id]> (<["title" := VStr "Winter quiz"]> (<["slug" := VStr slug]> (
  <["content" := VStr "Soon."]> (<["tags" := VArr []]> (
  <["status" := VStr "draft"]> (<["scheduledPublishDate" := VStr when]> ∅)))))).

Definition world_of (posts : list obj) : world InMemoryDatabase.t :=
  World (InMemoryDatabase.Build posts (InMemoryDatabase.categories InMemoryDatabase.constructor))
        0 [].

(** Three drafts: one scheduled in the past, one in the future, one with
    a text that is no date. *)
Definition three_drafts : world InMemoryDatabase.t :=
  world_of [ scheduled (VStr "1") "past" "2020-01-01T00:00:00.000Z";
             scheduled (VStr "2") "future" "2030-01-01T00:00:00.000Z";
             scheduled (VStr "3") "never" "next week" ].

(** Two drafts scheduled in the past, the first under the identifier NaN,
    which [updatePost] cannot find. *)
Definition lost_then_due : world InMemoryDatabase.t :=
  world_of [ scheduled VNaN "lost" "2020-01-01T00:00:00.000Z";
             scheduled (VStr "2") "waiting" "2020-01-01T00:00:00.000Z" ].

#[local] Existing Instance Reference.runtime.
#[local] Existing Instance Reference.engine.

Definition empty_postgresql : world PostgreSQLDatabase.t :=
  World (PostgreSQLDatabase.Build [] []) 0 [].

(** A draft in a category nobody registered, tagged with a capital letter. *)
Definition quiz_draft : obj :=
  <["id" := VStr "7"]> (<["title" := VStr "Winter evening"]> (
  <["slug" := VStr "winter-evening"]> (<["content" := VStr "Soon."]> (
  <["category" := VStr "Nieuws"]> (<["tags" := VArr ["Quiz"]]> (
  <["status" := VStr "draft"]> ∅)))))).

(** The PostgreSQL tables after that draft was created and the category
    Horeca registered. *)
Definition postgresql_one_post : world PostgreSQLDatabase.t :=
  final (PostgreSQLDatabase.addCategory (VStr "Horeca")
           (final (PostgreSQLDatabase.createPost quiz_draft empty_postgresql))).

(** The row of that draft. *)
Definition quiz_row : obj :=
  PostgreSQLDatabase.inserted quiz_draft (VStr "7") VNull "draft" (VDate (Some (clock 0))).

(** The in-memory store after [init] on a machine without data file. *)
Definition seeded : world InMemoryDatabase.t :=
  final (InMemoryDatabase.init (World InMemoryDatabase.constructor 0 [])).

(** The seeded store after the draft was created. *)
Definition seeded_with_draft : world InMemoryDatabase.t :=
  final (InMemoryDatabase.createPost quiz_draft seeded).

(** An update that names one field, outside the allow-list. *)
Definition reschedule : obj :=
  {[ "scheduledPublishDate" := VStr "2030-01-01T00:00:00.000Z" ]}.

(** The body of a PUT that carries a title and nothing else. *)
Definition retitle : obj := {[ "title" := VStr "Winter quiz, new date" ]}.

(** A new post under the slug of the first sample post. *)
Definition same_slug : obj :=
  <["title" := VStr "De perfecte pubquiz, deel 2"]> (
  <["slug" := VStr "perfecte-pubquiz-organiseren"]> (
  <["content" := VStr "Vervolg."]> (<["status" := VStr "draft"]> ∅))).

(** The same, under the slug of the draft the PostgreSQL tables hold. *)
Definition same_slug_as_draft : obj :=
  <["id" := VStr "8"]> (<["title" := VStr "Winter evening, again"]> (
  <["slug" := VStr "winter-evening"]> (<["status" := VStr "draft"]> ∅))).

(** Two drafts scheduled in the past that were given the same identifier,
    as two calls of [createPost] within one millisecond give. *)
Definition same_identifier : world InMemoryDatabase.t :=
  world_of [ scheduled (VStr "1764547200000") "first" "2020-01-01T00:00:00.000Z";
             scheduled (VStr "1764547200000") "second" "2020-01-01T00:00:00.000Z" ].

(** A platform whose clock shows the same millisecond at every reading,
    as calls that follow one another at once see it. *)
Definition one_millisecond : Runtime :=
  Build_Runtime (fun _ => 1764547200000) Reference.toISOString Reference.parseDate
    (@array_sort Reference.runtime) (@array_sort_perm Reference.runtime).

(** A draft scheduled in the past, as [router.post('/posts')] hands it to
    [createPost]: without identifier. *)
Definition due_draft (slug : string) : obj :=
  <["title" := VStr "Winter quiz"]> (<["slug" := VStr slug]> (
  <["content" := VStr "Soon."]> (<["tags" := VArr []]> (
  <["status" := VStr "draft"]> (
  <["scheduledPublishDate" := VStr "2020-01-01T00:00:00.000Z"]> ∅))))).

(** The store after two such drafts were created within one millisecond. *)
Definition created_in_one_millisecond : world InMemoryDatabase.t :=
  final (@InMemoryDatabase.createPost one_millisecond (due_draft "second")
           (final (@InMemoryDatabase.createPost one_millisecond (due_draft "first")
                     (World InMemoryDatabase.constructor 0 [])))).

(** What the admin panel sends when post 1 is saved as it stands: the
    title, the slug, the category, the image, the excerpt, the content,
    the flag and the status, and neither tags nor author. *)
Definition panel_payload : obj :=
  let post := default ∅ (head InMemoryDatabase.sample_posts) in
  fold_right (fun k o => <[k := get k post]> o) ∅
    ["title"; "slug"; "category"; "image"; "excerpt"; "content"; "featured"; "status"].

(** The seeded store with the draft, after that PUT on post 1. *)
Definition seeded_after_put : world InMemoryDatabase.t :=
  final (Admin.put_post "1" panel_payload seeded_with_draft).

(** The PostgreSQL tables after the first sample post and the draft were
    created, and after the same PUT. *)
Definition postgresql_two_posts : world PostgreSQLDatabase.t :=
  final (PostgreSQLDatabase.createPost quiz_draft
           (final (PostgreSQLDatabase.createPost
                     (default ∅ (head InMemoryDatabase.sample_posts)) empty_postgresql))).

Definition postgresql_after_put : world PostgreSQLDatabase.t :=
  final (Admin.put_post "1" panel_payload postgresql_two_posts).

End Examples.

(* ================================================================== *)
(** ** Further notions *)

(** The properties of a post the scheduler writes. *)
Definition scheduler_fields : list string :=
  ["status"; "publishedDate"; "scheduledPublishDate"; "updatedAt"].

(** [p'] is [p] but for the properties named in [keys]. *)
Definition same_but (keys : list string) (p p' : obj) : Prop :=
  forall k, k ∉ keys -> p' !! k = p !! k.

(** A store with a draft scheduled for 2030 and nothing else. *)
Definition one_future_draft : world InMemoryDatabase.t :=
  Examples.world_of [ Examples.scheduled (VStr "2") "future" "2030-01-01T00:00:00.000Z" ].

(** The identifier [createPost] gives a post in memory: the one the caller
    passed, whatever it is, or else the time of the call in decimal. *)
Definition new_post_id `{Runtime} (w : world InMemoryDatabase.t) (post : obj) : jsval :=
  match post !! "id" with
  | Some v => v
  | None => VStr (pretty (clock (reads w)))
  end.

(** The properties [createPost] sets itself. *)
Definition created_fields : list string :=
  ["id"; "status"; "featured"; "publishedDate"; "createdAt"; "updatedAt"; "commentCount"].

(** [p'] is [p] with its category [from] turned into [to], and otherwise
    as it was (a post of another category keeps it). *)
Definition recategorised (from to : jsval) (p p' : obj) : Prop :=
  same_but ["category"] p p' /\
  get "category" p' = (if strict_eq (get "category" p) from then to else get "category" p).

(** [reassignTo = 'Algemeen'] *)
Definition reassign_target (reassignTo : jsval) : jsval :=
  match reassignTo with VUndef => VStr "Algemeen" | _ => reassignTo end.

(* ================================================================== *)
(** ** More methods of class InMemoryDatabase *)

Module InMemoryMore.
Section methods.
Context `{Runtime}.

(** One entry [{ name, count }] of the statistics. *)
Definition stat (name : jsval) (count : nat) : obj :=
  <["name" := name]> (<["count" := VNum (Z.of_nat count)]> ∅).

Definition getCategoryStats : M InMemoryDatabase.t (list obj) :=
  names ← InMemoryDatabase.getCategories;
  d ← this;
  ret (map (fun name =>
              stat name (List.length
                (List.filter (fun p => strict_eq (get "category" p) name)
                   (InMemoryDatabase.posts d))))
           names).

End methods.
End InMemoryMore.

(* ================================================================== *)
(** ** More methods of class PostgreSQLDatabase *)

Module PostgreSQLMore.
Section methods.
Context `{Runtime} `{Engine}.

(** The constraints of the table of categories: [name VARCHAR(255) UNIQUE
    NOT NULL]. *)
Definition categories_ok (names : list string) : bool :=
  bool_decide (NoDup names) && forallb (fun c => Nat.leb (String.length c) 255) names.

(** A statement on [categories] whose result would break a constraint
    fails and changes nothing. *)
Definition query_categories (f : list string -> list string) : M PostgreSQLDatabase.t unit :=
  d ← this;
  if categories_ok (f (PostgreSQLDatabase.categories_table d))
  then assign (PostgreSQLDatabase.set_categories_table f)
  else throw (DatabaseError "violates a constraint of categories").

(** [BEGIN; body; COMMIT], with [ROLLBACK] and a rethrow in the catch: the
    tables are left as the body made them, or as they were. *)
Definition transaction {A} (body : M PostgreSQLDatabase.t A) : M PostgreSQLDatabase.t A :=
  fun w =>
    match body w with
    | Return a w' => Return a w'
    | Throw e w' => Throw e (World (db w) (reads w') (console w'))
    end.

(** [UPDATE posts SET category = $1 WHERE category = $2] *)
Definition update_posts_category (to from : jsval) : M PostgreSQLDatabase.t unit :=
  PostgreSQLDatabase.query_posts
    (map (fun r => if PostgreSQLDatabase.sql_eq (get "category" r) (PostgreSQLDatabase.param from)
                   then <["category" := PostgreSQLDatabase.param to]> r else r)).

Definition renameCategory (oldName newName : jsval) : M PostgreSQLDatabase.t (list string) :=
  o ← InMemoryDatabase.trimmed oldName;
  n ← InMemoryDatabase.trimmed newName;
  if String.eqb o "" || String.eqb n "" then throw (Error "Old and new names required") else
  if String.eqb o n then PostgreSQLDatabase.getCategories else
  transaction
    (query_categories (map (fun c => if String.eqb c o then n else c));;
     update_posts_category (VStr n) (VStr o));;
  PostgreSQLDatabase.getCategories.

(** [reassignTo = 'Algemeen']: the default stands in for [undefined]. *)
Definition deleteCategory (name : jsval) (reassignTo : jsval) : M PostgreSQLDatabase.t (list string) :=
  let reassignTo :=
    match reassignTo with VUndef => VStr "Algemeen" | _ => reassignTo end in
  n ← InMemoryDatabase.trimmed name;
  if String.eqb n "" then throw (Error "Category name required") else
  transaction
    (update_posts_category reassignTo (VStr n);;
     query_categories (List.filter (fun c => negb (String.eqb c n))));;
  PostgreSQLDatabase.getCategories.

(** The groups of [GROUP BY c.name]: each name once. *)
Fixpoint groups (names : list string) : list string :=
  match names with
  | [] => []
  | c :: names' => c :: List.filter (fun c' => negb (String.eqb c' c)) (groups names')
  end.

(** [COUNT(p.id)] over [categories c LEFT JOIN posts p ON c.name = p.category]
    for the group of [c]: the pairs of a row of categories named [c] and a
    post of that category whose id is not NULL. *)
Definition joined_count (d : PostgreSQLDatabase.t) (c : string) : nat :=
  List.length (List.filter (String.eqb c) (PostgreSQLDatabase.categories_table d)) *
  List.length (List.filter
                 (fun p => PostgreSQLDatabase.sql_eq (VStr c) (get "category" p) &&
                           PostgreSQLDatabase.not_null (get "id" p))
                 (PostgreSQLDatabase.posts_table d)).

Definition getCategoryStats : M PostgreSQLDatabase.t (list obj) :=
  d ← this;
  ret (map (fun c => InMemoryMore.stat (VStr c) (joined_count d c))
           (order_by_name (groups (PostgreSQLDatabase.categories_table d)))).

End methods.
End PostgreSQLMore.

(* ================================================================== *)
(** ** Notions for the categories *)

(** The constraints of both tables hold. *)
Definition schema_holds (d : PostgreSQLDatabase.t) : Prop :=
  constrained d /\
  PostgreSQLMore.categories_ok (PostgreSQLDatabase.categories_table d) = true.

(** The sum of [k] over [l]. *)
Definition sum_of {A} (k : A -> nat) (l : list A) : nat :=
  foldr (fun x acc => (k x + acc)%nat) 0%nat l.

(** The counts of a list of statistics, added up. *)
Definition total (stats : list obj) : Z :=
  foldr (fun s acc => match get "count" s with VNum k => k + acc | _ => acc end) 0 stats.

(** The value names a registered category. *)
Definition registered (names : list string) (v : jsval) : bool :=
  match v with
  | VStr c => PostgreSQLDatabase.includes_field names c
  | _ => false
  end.

(** The category of the post is a non-empty string. *)
Definition categorised (p : obj) : Prop :=
  exists c, get "category" p = VStr c /\ c <> "".

(* ================================================================== *)
(** ** The admin routes *)

(** The conversions to text the engine applies to a value that is not a
    string. *)
Class Coercions := {
  (** [String(n)] for a number *)
  Number_toString : Z -> string;
  (** [String(d)] for a Date; [None] is the invalid date *)
  Date_toString : option Z -> string
}.

Module AdminRoutes.

Fixpoint drop_chars (n : nat) (s : string) : string :=
  match n, s with
  | O, _ => s
  | S _, EmptyString => EmptyString
  | S n', String _ s' => drop_chars n' s'
  end.

(** [s.replace(pattern, '')], the pattern being a string: its first
    occurrence is taken out. *)
Fixpoint remove_first (pattern s : string) : string :=
  if String.prefix pattern s then drop_chars (String.length pattern) s
  else match s with
       | EmptyString => EmptyString
       | String c s' => String c (remove_first pattern s')
       end.

Definition defaultSecret : string := "your-super-secret-admin-key-here".

(** [envSecret || defaultSecret], [envSecret] being
    [process.env.ADMIN_SECRET]. *)
Definition adminSecret (envSecret : option string) : string :=
  match envSecret with
  | Some s => if String.eqb s "" then defaultSecret else s
  | None => defaultSecret
  end.

Inductive verdict :=
| Next            (* next() *)
| Unauthorized.   (* res.status(401).json(...) *)

(** The middleware, on the header [Authorization] of the request.  The
    line it logs in development is left out, which tells whether a token
    came and decides nothing. *)
Definition authenticateAdmin (authHeader envSecret : option string) : verdict :=
  let token :=
    match authHeader with
    | Some h => if String.eqb h "" then None else Some (remove_first "Bearer " h)
    | None => None
    end in
  match token with
  | Some token =>
      if String.eqb token "" || negb (String.eqb token (adminSecret envSecret))
      then Unauthorized else Next
  | None => Unauthorized
  end.

Inductive reply :=
| Json (code : nat) (post : option obj)   (* { success: true, message, post } *)
| Failed (code : nat) (text : string).    (* { success: false, message or error } *)

(** [s.replace(/\s+/g, '-')] *)
Fixpoint dashed (s : string) : string :=
  match s with
  | EmptyString => EmptyString
  | String c s' =>
      if is_space c
      then match s' with
           | String c' _ => if is_space c' then dashed s' else String "-" (dashed s')
           | EmptyString => "-"
           end
      else String c (dashed s')
  end.

Record stats := Stats {
  totalPosts : nat;
  publishedPosts : nat;
  draftPosts : nat;
  totalComments : nat;
  pendingComments : nat;
  totalViews : nat;
  lastUpdated : Z
}.

Section routes.
Context `{Runtime} `{Coercions}.

(** [String(v)] *)
Definition ToString (v : jsval) : string :=
  match v with
  | VUndef => "undefined"
  | VNull => "null"
  | VBool true => "true"
  | VBool false => "false"
  | VNum n => Number_toString n
  | VNaN => "NaN"
  | VStr s => s
  | VDate t => Date_toString t
  | VArr l => join "," l
  end.

(** [Date.parse(v)]; [None] is NaN *)
Definition Date_parse (v : jsval) : option Z := parseDate (ToString v).

(** [new Date(v).toISOString()], which throws a RangeError on an invalid
    date. *)
Definition Date_toISOString {D} (v : jsval) : M D string :=
  match Date_of v with
  | Some t => ret (toISOString t)
  | None => throw (Error "Invalid time value")
  end.

(** [scheduledPublishDate && !isNaN(Date.parse(scheduledPublishDate))], as a
    condition *)
Definition hasSchedule (scheduledPublishDate : jsval) : bool :=
  truthy scheduledPublishDate &&
  match Date_parse scheduledPublishDate with Some _ => true | None => false end.

(** [router.post('/posts')], [createPost] being the method of the database
    the routes were made for. *)
Definition post_posts {D} (createPost : obj -> M D (option obj)) (body : obj) : M D reply :=
  try_catch
    (let title := get "title" body in
     let content := get "content" body in
     if negb (truthy title) || negb (truthy content)
     then ret (Failed 400 "Title and content are required") else
     let hasSchedule := hasSchedule (get "scheduledPublishDate" body) in
     let initialStatus :=
       if strict_eq (get "status" body) (VStr "published") && negb hasSchedule
       then "published" else "draft" in
     slug ← (if truthy (get "slug" body) then ret (get "slug" body)
             else match title with
                  | VStr t => ret (VStr (dashed (toLowerCase t)))
                  | _ => throw (TypeError "title.toLowerCase is not a function")
                  end);
     excerpt ← (if truthy (get "excerpt" body) then ret (get "excerpt" body)
                else match content with
                     | VStr c => ret (VStr (substring 0 160 c))
                     | _ => throw (TypeError "content.substring is not a function")
                     end);
     publishedDate ← (if String.eqb initialStatus "published"
                      then s ← new_Date_toISOString; ret (VStr s)
                      else ret VUndef);
     scheduledPublishDate ←
       (if hasSchedule
        then s ← Date_toISOString (get "scheduledPublishDate" body); ret (VStr s)
        else ret VUndef);
     post ← createPost
       (<["title" := title]> (<["slug" := slug]> (<["excerpt" := excerpt]> (
        <["content" := content]> (
        <["category" := PostgreSQLDatabase.or_else (get "category" body) (VStr "Algemeen")]> (
        <["tags" := PostgreSQLDatabase.or_else (get "tags" body) (VArr [])]> (
        <["image" := PostgreSQLDatabase.or_else (get "image" body) (VStr "")]> (
        <["author" := PostgreSQLDatabase.or_else (get "author" body) (VStr "Admin")]> (
        <["status" := VStr initialStatus]> (
        <["featured" := VBool (truthy (get "featured" body))]> (
        <["publishedDate" := publishedDate]> (
        <["scheduledPublishDate" := scheduledPublishDate]> ∅))))))))))));
     ret (Json 201 post))
    (fun e => ret (Failed 500 (message e))).

Section any_backend.
Context {D : Type} `{!Backend D}.

(** [router.patch('/posts/:id/publish')] *)
Definition publish (id : string) : M D reply :=
  try_catch
    (publishedDate ← new_Date_toISOString;
     updated ← db_updatePost (VStr id)
       (<["status" := VStr "published"]> (<["publishedDate" := VStr publishedDate]> ∅));
     ret (Json 200 updated))
    (fun e => ret (Failed 500 (message e))).

(** [router.patch('/posts/:id/unpublish')] *)
Definition unpublish (id : string) : M D reply :=
  try_catch
    (updated ← db_updatePost (VStr id)
       (<["status" := VStr "draft"]> (<["publishedDate" := VUndef]> ∅));
     ret (Json 200 updated))
    (fun e => ret (Failed 500 (message e))).

(** [router.patch('/posts/:id/schedule')] *)
Definition schedule (id : string) (body : obj) : M D reply :=
  try_catch
    (let scheduledPublishDate := get "scheduledPublishDate" body in
     if negb (truthy scheduledPublishDate) ||
        match Date_parse scheduledPublishDate with Some _ => false | None => true end
     then ret (Failed 400 "Invalid scheduledPublishDate") else
     s ← Date_toISOString scheduledPublishDate;
     updated ← db_updatePost (VStr id)
       (<["status" := VStr "draft"]> (<["scheduledPublishDate" := VStr s]> ∅));
     ret (Json 200 updated))
    (fun e => ret (Failed 500 (message e))).

(** [router.get('/stats')]: the counts are taken from the property [posts]
    of the database. *)
Definition get_stats : M D stats :=
  d ← this;
  let allPosts := Scheduler.posts_array d in
  let published :=
    List.length (List.filter (fun p => strict_eq (get "status" p) (VStr "published")) allPosts) in
  let drafts :=
    List.length (List.filter (fun p => strict_eq (get "status" p) (VStr "draft")) allPosts) in
  now ← Date_now;
  ret {| totalPosts := List.length allPosts; publishedPosts := published;
         draftPosts := drafts; totalComments := 0; pendingComments := 0;
         totalViews := 0; lastUpdated := now |}.

End any_backend.
End routes.
End AdminRoutes.

(** The platform of the examples writes a number in decimal, as the engine
    does for an integer below 10^21, and a Date as a machine set to UTC
    does. *)
Module ReferenceText.

Definition weekday (days : Z) : string :=
  match days mod 7 with
  | 0 => "Thu" | 1 => "Fri" | 2 => "Sat" | 3 => "Sun" | 4 => "Mon" | 5 => "Tue" | _ => "Wed"
  end.

Definition month (m : Z) : string :=
  match m with
  | 1 => "Jan" | 2 => "Feb" | 3 => "Mar" | 4 => "Apr" | 5 => "May" | 6 => "Jun"
  | 7 => "Jul" | 8 => "Aug" | 9 => "Sep" | 10 => "Oct" | 11 => "Nov" | _ => "Dec"
  end.

Definition year (y : Z) : string :=
  if 0 <=? y then (if y <? 10000 then Reference.digits 4 y else pretty y)
  else "-" +:+ (if -10000 <? y then Reference.digits 4 (- y) else pretty (- y)).

Definition Date_toString (t : option Z) : string :=
  match t with
  | None => "Invalid Date"
  | Some t =>
      let '(y, m, d) := Reference.civil_from_days (t / 86400000) in
      let ms := t mod 86400000 in
      weekday (t / 86400000) +:+ " " +:+ month m +:+ " " +:+ Reference.digits 2 d +:+ " " +:+
      year y +:+ " " +:+
      Reference.digits 2 (ms / 3600000) +:+ ":" +:+ Reference.digits 2 (ms / 60000 mod 60) +:+
      ":" +:+ Reference.digits 2 (ms / 1000 mod 60) +:+
      " GMT+0000 (Coordinated Universal Time)"
  end.

#[export] Instance coercions : Coercions := Build_Coercions pretty Date_toString.

End ReferenceText.

(* ================================================================== *)
(** ** Notions for the routes *)

(** [database.createPost] as the routes call it on the in-memory database:
    the record created is the answer. *)
Definition in_memory_createPost `{Runtime} (post : obj) :
    M InMemoryDatabase.t (option obj) :=
  p ← InMemoryDatabase.createPost post; ret (Some p).

(** The status [router.post('/posts')] asks for. *)
Definition initialStatus `{Runtime} `{Coercions} (body : obj) : string :=
  if strict_eq (get "status" body) (VStr "published") &&
     negb (AdminRoutes.hasSchedule (get "scheduledPublishDate" body))
  then "published" else "draft".

(* ================================================================== *)
(** ** The settings *)

(** The settings are kept apart from the posts and the categories: the
    methods below touch nothing else.  The code writes one key,
    [upcomingText]. *)
Module Settings.

(** [InMemoryDatabase]: the state is [this.settings], an object. *)
Module InMemory.
Section methods.
Context `{Runtime}.

Definition saveToFile : M obj unit := _ ← new_Date_toISOString; ret tt.

(** [this.settings || { upcomingText: '' }]; an object is truthy. *)
Definition getSettings : M obj obj := this.

Definition updateSettings (updates : obj) : M obj obj :=
  assign (fun settings => spread settings updates);;
  saveToFile;;
  this.

End methods.
End InMemory.

(** [PostgreSQLDatabase]: the state is the table [settings], whose primary
    key [key] is a [VARCHAR(255)]; it maps each key to its value, a text. *)
Module PostgreSQL.
Section methods.
Context `{Engine}.

(** [INSERT INTO settings (key, value) VALUES ($1, $2)
     ON CONFLICT (key) DO UPDATE SET value = $2] *)
Definition upsert (key : string) (value : jsval) : M obj unit :=
  if Nat.leb (String.length key) 255
  then assign (fun table : obj => <[key := PostgreSQLDatabase.param value]> table)
  else throw (DatabaseError "value too long for type character varying(255)").

(** [result.rows.forEach(row => { settings[row.key] = row.value })] *)
Definition getSettings : M obj obj := this.

Fixpoint upserts (entries : list (string * jsval)) : M obj unit :=
  match entries with
  | [] => ret tt
  | (key, value) :: entries' => upsert key value;; upserts entries'
  end.

Definition updateSettings (updates : obj) : M obj obj :=
  upserts (map_to_list updates);;
  getSettings.

End methods.
End PostgreSQL.

(** [router.put('/settings')] of the admin routes; the answer is the
    settings, or the message of status 500. *)
Definition put_settings {D} (updateSettings : obj -> M D obj) (body : obj) :
    M D (obj + string) :=
  try_catch
    (let allowed : obj :=
       {[ "upcomingText" := match get "upcomingText" body with
                            | VStr s => VStr s
                            | _ => VUndef
                            end ]} in
     settings ← updateSettings allowed;
     ret (inl settings))
    (fun e => ret (inr (message e))).

(** [app.get('/api/settings')]; the answer is the text
    [settings.upcomingText || ''], or the message of status 500. *)
Definition get_settings {D} (getSettings : M D obj) : M D (jsval + string) :=
  try_catch
    (settings ← getSettings;
     ret (inl (PostgreSQLDatabase.or_else (get "upcomingText" settings) (VStr ""))))
    (fun e => ret (inr (message e))).

End Settings.

(** The text of a body of PUT /settings, as the public endpoint shows it
    afterwards. *)
Definition upcoming_text (body : obj) : string :=
  match get "upcomingText" body with
  | VStr s => s
  | _ => ""
  end.

(* ================================================================== *)
(** ** The admin panel *)

Module AdminPanel.

(** [.normalize('NFD').replace(/\p{Diacritic}/gu, '')] on a text in lower
    case, one code unit below U+0100 at a time: a letter with an accent
    leaves the letter, the signs that are diacritics themselves (circumflex,
    grave, diaeresis, macron, acute, middle dot, cedilla) leave nothing, and
    any other code unit stays. *)
Definition strip_accent (c : ascii) : option ascii :=
  let n := code c in
  if ((224 <=? n) && (n <=? 229))%N then Some "a"%char
  else if (n =? 231)%N then Some "c"%char
  else if ((232 <=? n) && (n <=? 235))%N then Some "e"%char
  else if ((236 <=? n) && (n <=? 239))%N then Some "i"%char
  else if (n =? 241)%N then Some "n"%char
  else if ((242 <=? n) && (n <=? 246))%N then Some "o"%char
  else if ((249 <=? n) && (n <=? 252))%N then Some "u"%char
  else if ((n =? 253) || (n =? 255))%N then Some "y"%char
  else if ((n =? 94) || (n =? 96) || (n =? 168) || (n =? 175) || (n =? 180) ||
           (n =? 183) || (n =? 184))%N then None
  else Some c.

Fixpoint strip_accents (s : string) : string :=
  match s with
  | EmptyString => EmptyString
  | String c s' =>
      match strip_accent c with
      | Some c' => String c' (strip_accents s')
      | None => strip_accents s'
      end
  end.

(** A code unit that [/[^a-z0-9\s-]/] does not match. *)
Definition kept (c : ascii) : bool :=
  let n := code c in
  ((97 <=? n) && (n <=? 122) || (48 <=? n) && (n <=? 57))%N || is_space c ||
  Ascii.eqb c "-".

(** [s.replace(/[^a-z0-9\s-]/g, '')] *)
Fixpoint only_kept (s : string) : string :=
  match s with
  | EmptyString => EmptyString
  | String c s' => if kept c then String c (only_kept s') else only_kept s'
  end.

(** [s.replace(/-+/g, '-')] *)
Fixpoint squeezed (s : string) : string :=
  match s with
  | EmptyString => EmptyString
  | String c s' =>
      if Ascii.eqb c "-"
      then match s' with
           | String c' _ => if Ascii.eqb c' "-" then squeezed s' else String "-" (squeezed s')
           | EmptyString => "-"
           end
      else String c (squeezed s')
  end.

(** [slugify(str)]; [None] is the TypeError of a value that is truthy and
    no string. *)
Definition slugify (str : jsval) : option string :=
  match (if truthy str then str else VStr "") with
  | VStr s =>
      Some (squeezed (AdminRoutes.dashed (trim (only_kept (strip_accents (toLowerCase s))))))
  | _ => None
  end.

End AdminPanel.

(** A code unit of a slug: a small letter, a digit or a dash. *)
Definition slug_char (c : ascii) : bool :=
  let n := code c in
  ((97 <=? n) && (n <=? 122) || (48 <=? n) && (n <=? 57))%N || Ascii.eqb c "-".

(** No two dashes follow one another. *)
Fixpoint single_dashes (s : string) : bool :=
  match s with
  | String a (String b _ as s') => negb (Ascii.eqb a "-" && Ascii.eqb b "-") && single_dashes s'
  | _ => true
  end.

Fixpoint all_chars (f : ascii -> bool) (s : string) : bool :=
  match s with
  | EmptyString => true
  | String c s' => f c && all_chars f s'
  end.

(* ================================================================== *)
(** ** The list of posts of the admin routes *)

(** [router.get('/posts')] on the in-memory database, which has no [pool].
    [posts.sort(...)] sorts the array it is called on, and that array is
    the one of the store.  The answer is the list, or the message of status
    500. *)
Definition admin_get_posts `{Runtime} : M InMemoryDatabase.t (list obj + string) :=
  try_catch
    (_ ← InMemoryDatabase.getPosts ∅;
     d ← this;
     let posts :=
       array_sort (fun a b => Date_diff (get "updatedAt" b) (get "updatedAt" a))
         (InMemoryDatabase.posts d) in
     assign (InMemoryDatabase.set_posts (fun _ => posts));;
     ret (inl posts))
    (fun e => ret (inr (message e))).

(* ================================================================== *)
(** * Properties *)

(** ** Arrays *)

Section arrays.
Context {A : Type}.
Implicit Types (f : A -> bool) (l : list A).

Lemma findIndex_None f l :
  findIndex f l = None <-> forall x, x ∈ l -> f x = false.
Proof.
  induction l as [|y l IH]; simpl.
  - split; [intros _ x Hx; inversion Hx | done].
  - destruct (f y) eqn:Hy.
    + split; [done | intros Hall]. rewrite Hall in Hy; [done | left].
    + destruct (findIndex f l) as [i|]; simpl.
      * split; [done | intros Hall].
        assert (@None nat = None) as _ by done.
        destruct IH as [_ IH]. discriminate IH. intros x Hx. apply Hall. by right.
      * split; [intros _ x Hx | done].
        apply elem_of_cons in Hx as [->|Hx]; [done | by apply IH].
Qed.

Lemma findIndex_Some f l i :
  findIndex f l = Some i ->
  exists x, l !! i = Some x /\ f x = true /\
            forall j y, (j < i)%nat -> l !! j = Some y -> f y = false.
Proof.
  revert i. induction l as [|y l IH]; intros i; simpl; [done|].
  destruct (f y) eqn:Hy.
  - intros [= <-]. exists y. repeat split; [done | intros; lia].
  - destruct (findIndex f l) as [k|]; simpl; [|done].
    intros [= <-]. destruct (IH k eq_refl) as (x & Hx & Hfx & Hmin).
    exists x. repeat split; [done.. |].
    intros [|j] z Hj Hz; simpl in Hz; [by injection Hz as <- | apply (Hmin j); [lia | done]].
Qed.

Lemma findIndex_first f l i x :
  l !! i = Some x -> f x = true ->
  (forall j y, (j < i)%nat -> l !! j = Some y -> f y = false) ->
  findIndex f l = Some i.
Proof.
  revert i. induction l as [|y l IH]; intros i Hi Hx Hmin; [done|]. simpl.
  destruct i as [|i]; simpl in Hi.
  - injection Hi as ->. by rewrite Hx.
  - rewrite (Hmin 0%nat y); [| lia | done].
    rewrite (IH i); [done.. |]. intros j z Hj Hz. apply (Hmin (S j)); [lia | done].
Qed.

Lemma findIndex_map {B} (g : B -> A) f (l : list B) :
  findIndex (fun x => f (g x)) l = findIndex f (map g l).
Proof. induction l as [|y l IH]; simpl; [done | by rewrite IH]. Qed.

End arrays.

(** ** Values *)

Lemma strict_eq_eq a b : strict_eq a b = true -> a = b.
Proof.
  destruct a, b; simpl; try done.
  - by intros ->%Bool.eqb_prop.
  - by intros ->%Z.eqb_eq.
  - by intros ->%String.eqb_eq.
Qed.

Lemma same_value_zero_eq a b : same_value_zero a b = true -> a = b.
Proof.
  intros Hs. destruct a, b; try (simpl in Hs; done); apply strict_eq_eq; exact Hs.
Qed.

Lemma get_insert k v (o : obj) : get k (<[k := v]> o) = v.
Proof. unfold get. by rewrite lookup_insert_eq. Qed.

Lemma get_insert_ne k k' v (o : obj) : k <> k' -> get k' (<[k := v]> o) = get k' o.
Proof. intros Hk. unfold get. by rewrite lookup_insert_ne. Qed.

Lemma lookup_spread (a b : obj) k :
  spread a b !! k = match b !! k with Some v => Some v | None => a !! k end.
Proof.
  unfold spread. destruct (b !! k) as [v|] eqn:Hb.
  - by apply lookup_union_Some_l.
  - rewrite lookup_union_r; done.
Qed.

(** ** The in-memory backend: [updatePost] *)

Section in_memory_updatePost.
Context `{Runtime}.
Implicit Types (w : world InMemoryDatabase.t) (id : jsval) (updates p : obj).

Lemma updatePost_found w id updates index :
  findIndex (fun p => strict_eq (get "id" p) id) (InMemoryDatabase.posts (db w)) = Some index ->
  InMemoryDatabase.updatePost id updates w =
    Return (merged (InMemoryDatabase.posts (db w) !!! index) updates (clock (reads w)))
           (updated_world w index updates).
Proof.
  intros Hfind. unfold InMemoryDatabase.updatePost, bind, this. simpl. rewrite Hfind.
  simpl. unfold updated_world, ret. f_equal.
  apply findIndex_Some in Hfind as (x & Hx & _).
  apply list_lookup_total_insert_eq. by eapply lookup_lt_Some.
Qed.

Lemma updatePost_missing w id updates :
  findIndex (fun p => strict_eq (get "id" p) id) (InMemoryDatabase.posts (db w)) = None ->
  InMemoryDatabase.updatePost id updates w = Throw NotFound w.
Proof.
  intros Hfind. unfold InMemoryDatabase.updatePost, bind, this. simpl. by rewrite Hfind.
Qed.

Lemma lookup_merged p updates now k :
  k <> "updatedAt" ->
  merged p updates now !! k =
    match updates !! k with Some v => Some v | None => p !! k end.
Proof. intros Hk. unfold merged. rewrite lookup_insert_ne by done. apply lookup_spread. Qed.

Lemma get_merged p updates now k :
  k <> "updatedAt" ->
  get k (merged p updates now) =
    match updates !! k with Some v => v | None => get k p end.
Proof. intros Hk. unfold get. rewrite lookup_merged by done. by destruct (updates !! k). Qed.

Lemma get_merged_updatedAt p updates now :
  get "updatedAt" (merged p updates now) = VDate (Some now).
Proof. apply get_insert. Qed.

End in_memory_updatePost.

(** ** The scheduler *)

Section scheduler_any_backend.
Context `{Runtime} {D : Type} `{!Backend D}.
Implicit Types (w : world D).

Lemma scan_to_le now i w j w' : scan_to now i w j w' -> (i <= j)%nat.
Proof. induction 1; lia. Qed.

(** Getting from [i] to [j] uses up [j - i] of the steps allowed. *)
Lemma scan_split now i w j w' n :
  scan_to now i w j w' ->
  Scheduler.scan (n + (j - i)) i now w = Scheduler.scan n j now w'.
Proof.
  induction 1 as [i w | i w p w1 j w' Hp Hstep Hto IH].
  - by rewrite Nat.sub_diag, Nat.add_0_r.
  - apply scan_to_le in Hto as Hle.
    replace (n + (j - i))%nat with (S (n + (j - S i))) by lia.
    simpl. unfold bind at 1, this. simpl. rewrite Hp.
    unfold bind at 1. rewrite Hstep. exact IH.
Qed.

(** The tick is the scan under the one handler. *)
Lemma tick_unfold w :
  Scheduler.tick w =
    match Scheduler.scan (List.length (Scheduler.posts_array (db w))) 0 (clock (reads w))
            (World (db w) (S (reads w)) (console w)) with
    | Return a w' => Return a w'
    | Throw e w' =>
        Return tt (World (db w') (reads w') (console w' ++ [SchedulerError (message e)]))
    end.
Proof. reflexivity. Qed.

(** No exception leaves the callback. *)
Lemma tick_returns w : exists w', Scheduler.tick w = Return tt w'.
Proof.
  rewrite tick_unfold.
  destruct (Scheduler.scan _ _ _ _) as [[] w'|e w']; eauto.
Qed.

(** C1, as amended.  A failure while updating a due post is caught by the one
    handler around the whole scan: the tick reports it once on the console
    and returns, in the world the failed update left.  The posts promoted
    earlier in the tick stay promoted; the posts after the failing one are
    not looked at in that tick. *)
Theorem tick_failure_ends_scan w j wj p e w' :
  scan_to (clock (reads w)) 0 (World (db w) (S (reads w)) (console w)) j wj ->
  (j < List.length (Scheduler.posts_array (db w)))%nat ->
  Scheduler.posts_array (db wj) !! j = Some p ->
  Scheduler.due (clock (reads w)) p = true ->
  Scheduler.publish p wj = Throw e w' ->
  Scheduler.tick w =
    Return tt (World (db w') (reads w') (console w' ++ [SchedulerError (message e)])).
Proof.
  intros Hto Hj Hp Hdue Hthrow. rewrite tick_unfold.
  set (len := List.length _) in *.
  replace len with ((len - j) + (j - 0))%nat by lia.
  rewrite (scan_split _ _ _ _ _ _ Hto).
  replace (len - j)%nat with (S (len - S j)) by lia.
  simpl. unfold bind at 1, this. simpl. rewrite Hp, Hdue.
  unfold bind at 1. by rewrite Hthrow.
Qed.

End scheduler_any_backend.

Section scheduler_in_memory.
Context `{Runtime}.
Implicit Types (w : world InMemoryDatabase.t) (p : obj) (l : list obj).

Lemma strict_eq_sym a b : strict_eq a b = strict_eq b a.
Proof.
  destruct a, b; simpl; try done.
  - by destruct b0, b.
  - apply Z.eqb_sym.
  - apply String.eqb_sym.
Qed.

(** With distinct identifiers, looking a post up by its identifier finds
    that very post. *)
Lemma distinct_findIndex vs i v :
  distinct vs = true -> vs !! i = Some v ->
  findIndex (fun x => strict_eq x v) vs = Some i.
Proof.
  revert i. induction vs as [|v0 vs IH]; intros i Hd Hi; [done|].
  simpl in Hd. apply andb_true_iff in Hd as [Hd Hrest].
  apply andb_true_iff in Hd as [Hself Hnone]. apply negb_true_iff in Hnone.
  destruct i as [|i]; simpl in *.
  - injection Hi as <-. by rewrite Hself.
  - assert (strict_eq v0 v = false) as ->.
    { destruct (strict_eq v0 v) eqn:Heq; [|done].
      rewrite <- Hnone. symmetry. apply existsb_exists. exists v. split; [|done].
      apply list_elem_of_In. by eapply list_elem_of_lookup_2. }
    by rewrite (IH i).
Qed.

Lemma findIndex_id l i p :
  distinct (ids l) = true -> l !! i = Some p ->
  findIndex (fun q => strict_eq (get "id" q) (get "id" p)) l = Some i.
Proof.
  intros Hd Hi.
  rewrite (findIndex_map (get "id") (fun x => strict_eq x (get "id" p))).
  apply distinct_findIndex; [done|]. unfold ids. by rewrite list_lookup_fmap, Hi.
Qed.

(** Promotion keeps the identifier. *)
Lemma get_id_promoted p t1 t2 : get "id" (promoted p t1 t2) = get "id" p.
Proof. unfold promoted. by rewrite get_merged. Qed.

Lemma ids_insert l i p p' :
  l !! i = Some p -> get "id" p' = get "id" p -> ids (<[i := p']> l) = ids l.
Proof.
  intros Hi Hid. unfold ids. rewrite list_fmap_insert, Hid.
  apply list_insert_id. by rewrite list_lookup_fmap, Hi.
Qed.

Lemma publish_found w i p :
  InMemoryDatabase.posts (db w) !! i = Some p ->
  findIndex (fun q => strict_eq (get "id" q) (get "id" p)) (InMemoryDatabase.posts (db w))
    = Some i ->
  Scheduler.publish p w = Return tt (published_world w i p).
Proof.
  intros Hi Hfind. unfold Scheduler.publish.
  unfold bind at 1. simpl.
  unfold bind at 1. unfold db_updatePost. simpl. unfold bind at 1.
  rewrite (updatePost_found _ _ _ i) by exact Hfind. simpl.
  unfold bind, new_Date_toISOString, Date_now, print, ret, updated_world,
    published_world, promoted, promotion, InMemoryDatabase.set_posts. simpl.
  by rewrite (list_lookup_total_correct _ _ _ Hi).
Qed.

Lemma publish_missing w p :
  findIndex (fun q => strict_eq (get "id" q) (get "id" p)) (InMemoryDatabase.posts (db w))
    = None ->
  Scheduler.publish p w =
    Throw NotFound (World (db w) (S (reads w)) (console w)).
Proof.
  intros Hfind. unfold Scheduler.publish.
  unfold bind at 1. simpl.
  unfold bind at 1. unfold db_updatePost. simpl. unfold bind at 1.
  by rewrite updatePost_missing.
Qed.

(** The scan from index [i], when the identifiers are distinct. *)
Lemma scan_distinct n i now w :
  distinct (ids (InMemoryDatabase.posts (db w))) = true ->
  (n + i = List.length (InMemoryDatabase.posts (db w)))%nat ->
  exists w',
    Scheduler.scan n i now w = Return tt w' /\
    ids (InMemoryDatabase.posts (db w')) = ids (InMemoryDatabase.posts (db w)) /\
    InMemoryDatabase.categories (db w') = InMemoryDatabase.categories (db w) /\
    (reads w <= reads w')%nat /\
    forall j p, InMemoryDatabase.posts (db w) !! j = Some p ->
      if bool_decide (i <= j)%nat && Scheduler.due now p
      then exists k, (reads w <= k)%nat /\ (S k < reads w')%nat /\
             InMemoryDatabase.posts (db w') !! j = Some (promoted p (clock k) (clock (S k)))
      else InMemoryDatabase.posts (db w') !! j = Some p.
Proof.
  revert i w. induction n as [|n IH]; intros i w Hd Hlen.
  - exists w. do 3 (split; [done|]). split; [lia|]. intros j p Hj.
    apply lookup_lt_Some in Hj as Hlt.
    case_bool_decide; [lia | done].
  - destruct (InMemoryDatabase.posts (db w) !! i) as [pi|] eqn:Hi.
    2: { apply lookup_ge_None in Hi. lia. }
    simpl. unfold bind at 1, this. simpl.
    change (Scheduler.posts_array (db w)) with (InMemoryDatabase.posts (db w)).
    rewrite Hi. unfold bind at 1.
    destruct (Scheduler.due now pi) eqn:Hdue.
    + rewrite (publish_found w i pi Hi (findIndex_id _ _ _ Hd Hi)).
      set (w1 := published_world w i pi).
      assert (Hids : ids (InMemoryDatabase.posts (db w1)) = ids (InMemoryDatabase.posts (db w))).
      { apply (ids_insert _ _ pi); [done | apply get_id_promoted]. }
      destruct (IH (S i) w1) as (w' & Hscan & Hids' & Hcat & Hreads & Hposts).
      { by rewrite Hids. }
      { simpl. rewrite length_insert. lia. }
      exists w'. split; [done|]. split; [by rewrite Hids'|]. split; [done|].
      simpl in Hreads. split; [lia|]. intros j p Hj.
      destruct (decide (j = i)) as [->|Hne].
      * assert (p = pi) as -> by congruence.
        rewrite Hdue. rewrite bool_decide_eq_true_2 by lia. simpl.
        exists (reads w). split; [lia|]. split; [lia|].
        specialize (Hposts i (promoted pi (clock (reads w)) (clock (S (reads w))))).
        rewrite bool_decide_eq_false_2 in Hposts by lia. apply Hposts.
        simpl. apply list_lookup_insert_eq. by eapply lookup_lt_Some.
      * specialize (Hposts j p). simpl in Hposts.
        rewrite list_lookup_insert_ne in Hposts by done. specialize (Hposts Hj).
        repeat case_bool_decide; try lia; simpl in *; [|done].
        destruct (Scheduler.due now p); [|done].
        destruct Hposts as (k & Hk1 & Hk2 & Hk). exists k. split; [lia|done].
    + destruct (IH (S i) w) as (w' & Hscan & Hids' & Hcat & Hreads & Hposts); [done|lia|].
      exists w'. do 4 (split; [done|]). intros j p Hj. specialize (Hposts j p Hj).
      destruct (decide (j = i)) as [->|Hne].
      * assert (p = pi) as -> by congruence. rewrite Hdue, andb_false_r.
        by rewrite bool_decide_eq_false_2 in Hposts by lia.
      * repeat case_bool_decide; try lia; done.
Qed.

End scheduler_in_memory.

Section scheduler_claims.
Context `{Runtime}.
Implicit Types (w : world InMemoryDatabase.t) (p : obj).

Lemma promoted_fields p t1 t2 :
  get "status" (promoted p t1 t2) = VStr "published" /\
  get "publishedDate" (promoted p t1 t2) = VStr (toISOString t1) /\
  promoted p t1 t2 !! "scheduledPublishDate" = Some VUndef /\
  get "updatedAt" (promoted p t1 t2) = VDate (Some t2) /\
  forall k, k <> "status" -> k <> "publishedDate" -> k <> "scheduledPublishDate" ->
            k <> "updatedAt" -> promoted p t1 t2 !! k = p !! k.
Proof.
  unfold promoted. repeat split.
  - by rewrite get_merged.
  - by rewrite get_merged.
  - by rewrite lookup_merged.
  - apply get_merged_updatedAt.
  - intros k H1 H2 H3 H4. rewrite lookup_merged by done. unfold promotion.
    by rewrite !lookup_insert_ne, lookup_empty by done.
Qed.

(** A published post is never due. *)
Lemma published_not_due now p :
  get "status" p = VStr "published" -> Scheduler.due now p = false.
Proof. intros Hs. unfold Scheduler.due. by rewrite Hs. Qed.

(** A scheduled date that does not parse is never due. *)
Lemma unparseable_not_due now p :
  Date_of (get "scheduledPublishDate" p) = None -> Scheduler.due now p = false.
Proof. intros Hd. unfold Scheduler.due. rewrite Hd. by rewrite andb_false_r. Qed.

(** For a schedule held as text, as the admin routes store it: due means
    not published, and the text parses to a time that is not after now. *)
Lemma due_text now p s :
  get "scheduledPublishDate" p = VStr s ->
  Scheduler.due now p = true <->
  get "status" p <> VStr "published" /\ s <> "" /\
  exists t, parseDate s = Some t /\ t <= now.
Proof.
  intros Hs. unfold Scheduler.due. rewrite Hs. simpl.
  rewrite !andb_true_iff, !negb_true_iff. split.
  - intros [[Hst Hne] Hd]. split; [|split].
    + intros Heq. rewrite Heq in Hst. vm_compute in Hst. done.
    + intros ->. done.
    + destruct (parseDate s) as [t|]; [|done]. exists t. split; [done|lia].
  - intros (Hst & Hne & t & Ht & Hle). rewrite Ht. split; [split|lia].
    + destruct (strict_eq _ _) eqn:Heq; [|done]. by apply strict_eq_eq in Heq.
    + by apply String.eqb_neq.
Qed.


End scheduler_claims.

(** C8.  The PostgreSQL object has no [posts]: under it the scheduler
    enumerates the empty list, and no number of ticks changes a row or
    writes a line. *)
Theorem postgresql_tick_promotes_nothing `{Runtime} `{Engine}
    (w : world PostgreSQLDatabase.t) :
  db_posts (db w) = None /\
  Scheduler.posts_array (db w) = [] /\
  Scheduler.tick w = Return tt (World (db w) (S (reads w)) (console w)) /\
  forall n, exists w', Scheduler.ticks n w = Return tt w' /\
                       db w' = db w /\ console w' = console w.
Proof.
  do 3 (split; [reflexivity|]).
  intros n. revert w. induction n as [|n IH]; intros w; [by exists w|].
  destruct (IH (World (db w) (S (reads w)) (console w))) as (w' & Hw' & ? & ?).
  exists w'. split; [|done].
  simpl. unfold bind. exact Hw'.
Qed.

Section scan_fuel.
Context `{Runtime}.
Implicit Types (w : world InMemoryDatabase.t).

Lemma publish_length w p w' :
  Scheduler.publish p w = Return tt w' ->
  List.length (InMemoryDatabase.posts (db w')) = List.length (InMemoryDatabase.posts (db w)).
Proof.
  destruct (findIndex (fun q => strict_eq (get "id" q) (get "id" p))
              (InMemoryDatabase.posts (db w))) as [i|] eqn:Hfind.
  - unfold Scheduler.publish.
    unfold bind at 1. simpl.
    unfold bind at 1. unfold db_updatePost. simpl. unfold bind at 1.
    rewrite (updatePost_found _ _ _ i) by exact Hfind. simpl.
    unfold bind, new_Date_toISOString, Date_now, print, ret. simpl.
    intros [= <-]. simpl. apply length_insert.
  - by rewrite publish_missing.
Qed.

(** In memory the array keeps its length during the scan, so the number
    of steps the tick allows, the length at the start, is enough: allowing
    more changes nothing. *)
Lemma scan_enough n m i now w :
  (List.length (InMemoryDatabase.posts (db w)) <= n + i)%nat ->
  Scheduler.scan (n + m) i now w = Scheduler.scan n i now w.
Proof.
  revert i w. induction n as [|n IH]; intros i w Hlen.
  - simpl in *. destruct m as [|m]; [done|]. simpl. unfold bind, this. simpl.
    change (Scheduler.posts_array (db w)) with (InMemoryDatabase.posts (db w)).
    by rewrite lookup_ge_None_2.
  - simpl. unfold bind at 1 3, this. simpl.
    change (Scheduler.posts_array (db w)) with (InMemoryDatabase.posts (db w)).
    destruct (InMemoryDatabase.posts (db w) !! i) as [p|]; [|done].
    unfold bind. destruct (Scheduler.due now p).
    + destruct (Scheduler.publish p w) as [[] w'|e w'] eqn:Hpub; [|done].
      apply IH. rewrite (publish_length _ _ _ Hpub). lia.
    + simpl. apply IH. lia.
Qed.

End scan_fuel.

(** ** The scheduler on examples *)

Section scheduler_examples.
Local Existing Instance Reference.runtime.

(** C1 fails on the code.  Two drafts are due; the update of the first
    throws; the tick ends there with one line on the console, and the
    second draft, though due, is left as it was. *)
Lemma tick_failure_skips_later_post :
  exists p1 p2 w',
    InMemoryDatabase.posts (db Examples.lost_then_due) = [p1; p2] /\
    Scheduler.due (clock 0) p1 = true /\
    Scheduler.due (clock 0) p2 = true /\
    Scheduler.publish p1 (World (db Examples.lost_then_due) 1 []) =
      Throw NotFound (World (db Examples.lost_then_due) 2 []) /\
    Scheduler.tick Examples.lost_then_due = Return tt w' /\
    InMemoryDatabase.posts (db w') = [p1; p2] /\
    get "status" p2 = VStr "draft" /\
    console w' = [SchedulerError "Post not found"].
Proof.
  eexists _, _, _. split; [reflexivity|].
  repeat split; vm_compute; reflexivity.
Qed.

Lemma tick_failure_ends_scan_witness :
  Scheduler.due (clock 0)
    (Examples.scheduled VNaN "lost" "2020-01-01T00:00:00.000Z") = true /\
  Scheduler.tick Examples.lost_then_due =
    Return tt (World (db Examples.lost_then_due) 2 [SchedulerError "Post not found"]).
Proof.
  split; [reflexivity|].
  apply (tick_failure_ends_scan Examples.lost_then_due 0
           (World (db Examples.lost_then_due) 1 [])
           (Examples.scheduled VNaN "lost" "2020-01-01T00:00:00.000Z")
           NotFound (World (db Examples.lost_then_due) 2 [])).
  - apply scan_to_here.
  - simpl. lia.
  - reflexivity.
  - reflexivity.
  - reflexivity.
Defined.


End scheduler_examples.

Section duplicate_identifier.
Local Existing Instance Reference.runtime.

(** Why C2 asks for distinct identifiers: [updatePost(p.id, ...)] writes to
    the first post with that identifier.  Of two due drafts with one
    identifier, the first is promoted twice and the second stays a draft. *)
Lemma tick_same_identifier :
  get "status" <$> InMemoryDatabase.posts (db (final (Scheduler.tick Examples.same_identifier)))
    = [VStr "published"; VStr "draft"] /\
  distinct (ids (InMemoryDatabase.posts (db Examples.same_identifier))) = false.
Proof. split; vm_compute; reflexivity. Qed.

End duplicate_identifier.

Section same_millisecond.
Local Existing Instance Examples.one_millisecond.


End same_millisecond.

(** ** [updatePost] and the PUT route, in memory *)

Section in_memory_update_claims.
Context `{Runtime}.
Implicit Types (w : world InMemoryDatabase.t) (id : jsval) (updates p : obj).

Lemma first_with_id_findIndex l id index p :
  first_with_id l id index p ->
  findIndex (fun q => strict_eq (get "id" q) id) l = Some index.
Proof. intros (Hp & Hid & Hmin). by apply (findIndex_first _ _ _ p). Qed.

Lemma no_post_with_id_findIndex l id :
  no_post_with_id l id -> findIndex (fun q => strict_eq (get "id" q) id) l = None.
Proof. intros Hno. by apply findIndex_None. Qed.

(** An unknown identifier: NotFound, and nothing has changed, not even the
    count of clock readings. *)
Lemma in_memory_updatePost_unknown w id updates :
  no_post_with_id (InMemoryDatabase.posts (db w)) id ->
  InMemoryDatabase.updatePost id updates w = Throw NotFound w.
Proof. intros Hno. by apply updatePost_missing, no_post_with_id_findIndex. Qed.

(** A stored identifier: the record merged, [updatedAt] read from the
    clock, the other posts and the categories untouched. *)
Lemma in_memory_updatePost_stored w id updates index p :
  first_with_id (InMemoryDatabase.posts (db w)) id index p ->
  exists w',
    InMemoryDatabase.updatePost id updates w =
      Return (merged p updates (clock (reads w))) w' /\
    InMemoryDatabase.posts (db w') =
      <[index := merged p updates (clock (reads w))]> (InMemoryDatabase.posts (db w)) /\
    InMemoryDatabase.categories (db w') = InMemoryDatabase.categories (db w) /\
    get "updatedAt" (merged p updates (clock (reads w))) = VDate (Some (clock (reads w))) /\
    forall k, k <> "updatedAt" ->
      merged p updates (clock (reads w)) !! k =
        match updates !! k with Some v => Some v | None => p !! k end.
Proof.
  intros Hfirst. pose proof Hfirst as (Hp & _).
  exists (updated_world w index updates).
  rewrite (updatePost_found w id updates index) by by apply (first_with_id_findIndex _ _ _ p).
  unfold updated_world. simpl. rewrite (list_lookup_total_correct _ _ _ Hp).
  repeat split; [apply get_merged_updatedAt | apply lookup_merged].
Qed.

Lemma lookup_updates_of body k :
  Admin.updates_of body !! k =
    if bool_decide (k ∈ Admin.contract_fields) then Some (get k body) else None.
Proof.
  unfold Admin.updates_of, Admin.contract_fields. simpl.
  case_bool_decide as Hk.
  - repeat (apply elem_of_cons in Hk as [->|Hk];
            [by repeat (rewrite lookup_insert_eq || rewrite lookup_insert_ne by done)|]).
    by apply elem_of_nil in Hk.
  - repeat (rewrite lookup_insert_ne;
            [|intros <-; apply Hk; by apply (bool_decide_unpack _)]).
    apply lookup_empty.
Qed.

(** C10.  In memory, [updatePost] merges by the presence of a key: a key
    of [updates], even one holding [undefined], replaces the stored
    property, and only the keys [updates] lacks keep their value.  The PUT
    route hands over all ten fields of the contract, so a field its body
    omits is stored as [undefined]. *)
Theorem put_post_clears_omitted_fields w (id : string) (body : obj) index p :
  first_with_id (InMemoryDatabase.posts (db w)) (VStr id) index p ->
  (forall updates, exists p' w',
     InMemoryDatabase.updatePost (VStr id) updates w = Return p' w' /\
     InMemoryDatabase.posts (db w') !! index = Some p' /\
     forall k, k <> "updatedAt" ->
       (forall v, updates !! k = Some v -> p' !! k = Some v) /\
       (updates !! k = None -> p' !! k = p !! k)) /\
  exists p' w',
    Admin.put_post id body w = Return (Admin.Updated (Some p')) w' /\
    InMemoryDatabase.posts (db w') !! index = Some p' /\
    (forall k, k ∈ Admin.contract_fields -> p' !! k = Some (get k body)) /\
    (forall k, k ∈ Admin.contract_fields -> body !! k = None -> p' !! k = Some VUndef) /\
    (forall k, k ∉ Admin.contract_fields -> k <> "updatedAt" -> p' !! k = p !! k).
Proof.
  intros Hfirst. pose proof Hfirst as (Hp & _).
  assert (Hlt : (index < List.length (InMemoryDatabase.posts (db w)))%nat)
    by by eapply lookup_lt_Some.
  split.
  - intros updates.
    destruct (in_memory_updatePost_stored w (VStr id) updates index p Hfirst)
      as (w' & Hup & Hposts & _ & _ & Hkeys).
    eexists _, w'. split; [exact Hup|]. split.
    { rewrite Hposts. by apply list_lookup_insert_eq. }
    intros k Hk. rewrite (Hkeys k Hk). split; [by intros v -> | by intros ->].
  - destruct (in_memory_updatePost_stored w (VStr id) (Admin.updates_of body) index p Hfirst)
      as (w' & Hup & Hposts & _ & _ & Hkeys).
    eexists _, w'. split.
    { unfold Admin.put_post, try_catch, bind, db_updatePost. simpl. unfold bind.
      by rewrite Hup. }
    split. { rewrite Hposts. by apply list_lookup_insert_eq. }
    assert (Hfields : forall k, k ∈ Admin.contract_fields -> k <> "updatedAt").
    { intros k Hk ->. revert Hk. by apply (bool_decide_eq_false_1 _). }
    split; [|split].
    + intros k Hk. rewrite Hkeys by auto. rewrite lookup_updates_of.
      by rewrite bool_decide_eq_true_2.
    + intros k Hk Hbody. rewrite Hkeys by auto. rewrite lookup_updates_of.
      rewrite bool_decide_eq_true_2 by done. unfold get. by rewrite Hbody.
    + intros k Hk Hne. rewrite Hkeys by done. rewrite lookup_updates_of.
      by rewrite bool_decide_eq_false_2.
Qed.

End in_memory_update_claims.

(** ** [updatePost] under PostgreSQL *)

Section postgresql_updatePost.
Context `{Runtime} `{Engine}.
Implicit Types (w : world PostgreSQLDatabase.t) (id : jsval) (updates r : obj).

Lemma assignments_allowed updates column v :
  (column, v) ∈ PostgreSQLDatabase.assignments updates ->
  PostgreSQLDatabase.includes_field PostgreSQLDatabase.allowedFields column = true.
Proof.
  unfold PostgreSQLDatabase.assignments. intros Hin.
  apply list_elem_of_omap in Hin as ([key value] & _ & Hsome).
  destruct (PostgreSQLDatabase.includes_field _ (PostgreSQLDatabase.snake_case key)) eqn:Ha;
    [|done].
  by injection Hsome as <- _.
Qed.

Lemma assignments_nil updates :
  nothing_allowed updates -> PostgreSQLDatabase.assignments updates = [].
Proof.
  intros Hnone. unfold PostgreSQLDatabase.assignments.
  destruct (omap _ _) as [|[column v] l] eqn:Ho; [done|].
  assert (Hin : (column, v) ∈ (column, v) :: l) by left.
  rewrite <- Ho in Hin. apply list_elem_of_omap in Hin as ([key value] & Hkv & Hsome).
  apply elem_of_map_to_list in Hkv. rewrite Hnone in Hsome; [done | by eexists].
Qed.

(** Without an allowed field the UPDATE is not sent: the post comes back as
    it is stored and the clock is not read. *)
Lemma postgresql_updatePost_nothing_allowed w id updates :
  nothing_allowed updates ->
  PostgreSQLDatabase.updatePost id updates w = PostgreSQLDatabase.getPostById id w /\
  final (PostgreSQLDatabase.updatePost id updates w) = w.
Proof.
  intros Hnone. unfold PostgreSQLDatabase.updatePost.
  rewrite (assignments_nil _ Hnone). simpl. done.
Qed.

Lemma set_columns_app fields1 fields2 r :
  PostgreSQLDatabase.set_columns (fields1 ++ fields2) r =
  PostgreSQLDatabase.set_columns fields2 (PostgreSQLDatabase.set_columns fields1 r).
Proof. unfold PostgreSQLDatabase.set_columns. apply fold_left_app. Qed.

Lemma get_set_columns_ne fields r k :
  k ∉ fields.*1 ->
  get k (PostgreSQLDatabase.set_columns fields r) = get k r.
Proof.
  revert r. induction fields as [|[column v] fields IH]; intros r Hk; [done|].
  simpl in *. apply not_elem_of_cons in Hk as [Hne Hk].
  unfold PostgreSQLDatabase.set_columns in *. simpl. rewrite IH by done.
  by apply get_insert_ne.
Qed.

(** A column the SET clause names once holds the value given to it. *)
Lemma get_set_columns fields r column v :
  NoDup fields.*1 -> (column, v) ∈ fields ->
  get column (PostgreSQLDatabase.set_columns fields r) = v.
Proof.
  revert r. induction fields as [|[c x] fields IH]; intros r Hnd Hin.
  - by apply elem_of_nil in Hin.
  - simpl in Hnd. apply NoDup_cons in Hnd as [Hc Hnd].
    change (PostgreSQLDatabase.set_columns ((c, x) :: fields) r)
      with (PostgreSQLDatabase.set_columns fields (<[c := x]> r)).
    apply elem_of_cons in Hin as [[= -> ->]|Hin].
    + rewrite get_set_columns_ne by done. apply get_insert.
    + by apply IH.
Qed.

Lemma filter_map_preserved {A} (P : A -> bool) (f : A -> A) (l : list A) :
  (forall x, P (f x) = P x) ->
  List.filter P (map f l) = map f (List.filter P l).
Proof.
  intros Hf. induction l as [|x l IH]; simpl; [done|].
  rewrite Hf. destruct (P x); simpl; by rewrite IH.
Qed.

Lemma head_filter_true {A} (P : A -> bool) (l : list A) x :
  head (List.filter P l) = Some x -> P x = true.
Proof.
  induction l as [|y l IH]; simpl; [done|].
  destruct (P y) eqn:Hy; simpl; [by intros [= <-] | done].
Qed.

Lemma head_map {A B} (g : A -> B) (l : list A) : head (map g l) = g <$> head l.
Proof. by destruct l. Qed.

Lemma stored_fields_cons column v fields :
  PostgreSQLDatabase.stored_fields ((column, v) :: fields) =
    match PostgreSQLDatabase.stored column v, PostgreSQLDatabase.stored_fields fields with
    | Some v', Some fields' => Some ((column, v') :: fields')
    | _, _ => None
    end.
Proof.
  unfold PostgreSQLDatabase.stored_fields. cbn [mapM].
  destruct (PostgreSQLDatabase.stored column v); [|done]. cbn.
  by destruct (mapM _ fields).
Qed.

Lemma stored_fields_app fields1 fields2 :
  PostgreSQLDatabase.stored_fields (fields1 ++ fields2) =
    match PostgreSQLDatabase.stored_fields fields1, PostgreSQLDatabase.stored_fields fields2 with
    | Some fields1', Some fields2' => Some (fields1' ++ fields2')%list
    | _, _ => None
    end.
Proof.
  induction fields1 as [|[column v] fields1 IH].
  - cbn [app]. change (PostgreSQLDatabase.stored_fields []) with (Some ([] : list (string * jsval))).
    by destruct (PostgreSQLDatabase.stored_fields fields2).
  - cbn [app]. rewrite !stored_fields_cons, IH.
    destruct (PostgreSQLDatabase.stored column v); [|done].
    destruct (PostgreSQLDatabase.stored_fields fields1); [|done].
    by destruct (PostgreSQLDatabase.stored_fields fields2).
Qed.

(** The columns stay, each with what its type makes of the value bound. *)
Lemma stored_fields_Some fields fields' :
  PostgreSQLDatabase.stored_fields fields = Some fields' ->
  fields'.*1 = fields.*1 /\
  Forall2 (fun a b => b.1 = a.1 /\ PostgreSQLDatabase.stored a.1 a.2 = Some b.2) fields fields'.
Proof.
  revert fields'. induction fields as [|[column v] fields IH]; intros fields'.
  - intros [= <-]. by split.
  - rewrite stored_fields_cons.
    destruct (PostgreSQLDatabase.stored column v) as [v'|] eqn:Hv; [|done].
    destruct (PostgreSQLDatabase.stored_fields fields) as [l|]; [|done].
    intros [= <-]. destruct (IH l eq_refl) as [Hfst Hall].
    split; [by rewrite !fmap_cons, Hfst|]. by constructor.
Qed.

Lemma stored_updated_at now :
  PostgreSQLDatabase.stored "updated_at" (VDate (Some now)) = Some (VDate (Some now)).
Proof. reflexivity. Qed.

(** What [updatePost] sends when the update names an allowed field and no
    column twice: the clock is read for [updated_at]; a value the engine
    refuses ends the call; else the UPDATE runs, and then the SELECT. *)
Lemma postgresql_updatePost_sends w id updates :
  PostgreSQLDatabase.assignments updates <> [] ->
  NoDup (PostgreSQLDatabase.assignments updates).*1 ->
  PostgreSQLDatabase.updatePost id updates w =
    match PostgreSQLDatabase.stored_fields (PostgreSQLDatabase.assignments updates) with
    | Some fields =>
        (PostgreSQLDatabase.query_posts
           (map (fun r =>
                   if PostgreSQLDatabase.sql_eq (get "id" r) (PostgreSQLDatabase.param id)
                   then PostgreSQLDatabase.set_columns
                          (fields ++ [("updated_at", VDate (Some (clock (reads w))))]) r
                   else r));;
         PostgreSQLDatabase.getPostById id)
          (World (db w) (S (reads w)) (console w))
    | None =>
        Throw (DatabaseError "invalid input syntax") (World (db w) (S (reads w)) (console w))
    end.
Proof.
  intros Hne Hnodup. unfold PostgreSQLDatabase.updatePost.
  assert (Nat.eqb (List.length (PostgreSQLDatabase.assignments updates)) 0 = false) as ->.
  { by destruct (PostgreSQLDatabase.assignments updates). }
  unfold bind at 1, new_Date, bind at 1, Date_now, ret. cbv beta iota.
  assert (Hnd : NoDup (PostgreSQLDatabase.assignments updates ++
                       [("updated_at", VDate (Some (clock (reads w))))])%list.*1).
  { rewrite fmap_app. simpl. apply NoDup_app. split; [done|]. split.
    - intros column Hin Hup. apply list_elem_of_singleton in Hup as ->.
      apply list_elem_of_fmap in Hin as ([column v] & Hc & Hin). simpl in Hc. subst column.
      apply assignments_allowed in Hin. by vm_compute in Hin.
    - apply NoDup_singleton. }
  unfold bind at 1. rewrite (bool_decide_eq_true_2 _ Hnd).
  rewrite stored_fields_app.
  destruct (PostgreSQLDatabase.stored_fields (PostgreSQLDatabase.assignments updates));
    reflexivity.
Qed.

Lemma query_posts_ok f w :
  PostgreSQLDatabase.posts_ok (f (PostgreSQLDatabase.posts_table (db w))) = true ->
  PostgreSQLDatabase.query_posts f w =
    Return tt (World (PostgreSQLDatabase.set_posts_table f (db w)) (reads w) (console w)).
Proof. intros Hok. unfold PostgreSQLDatabase.query_posts, bind, this. simpl. by rewrite Hok. Qed.

Lemma query_posts_fail f w :
  PostgreSQLDatabase.posts_ok (f (PostgreSQLDatabase.posts_table (db w))) = false ->
  PostgreSQLDatabase.query_posts f w =
    Throw (DatabaseError "violates a constraint of posts") w.
Proof. intros Hok. unfold PostgreSQLDatabase.query_posts, bind, this. simpl. by rewrite Hok. Qed.

(** A stored identifier, at least one allowed field and no column twice,
    values the engine reads into their columns as [fields], and a table
    that keeps its constraints: the UPDATE writes [fields] and
    [updated_at] into the rows with the identifier and into no other, and
    the first of them is read back. *)
Lemma postgresql_updatePost_stored w id updates r fields :
  head (List.filter (fun r => PostgreSQLDatabase.sql_eq (get "id" r) (PostgreSQLDatabase.param id))
          (PostgreSQLDatabase.posts_table (db w))) = Some r ->
  PostgreSQLDatabase.assignments updates <> [] ->
  NoDup (PostgreSQLDatabase.assignments updates).*1 ->
  PostgreSQLDatabase.stored_fields (PostgreSQLDatabase.assignments updates) = Some fields ->
  PostgreSQLDatabase.posts_ok
    (map (fun r => if PostgreSQLDatabase.sql_eq (get "id" r) (PostgreSQLDatabase.param id)
                   then PostgreSQLDatabase.set_columns
                          (fields ++ [("updated_at", VDate (Some (clock (reads w))))]) r
                   else r)
         (PostgreSQLDatabase.posts_table (db w))) = true ->
  exists row w',
    PostgreSQLDatabase.updatePost id updates w =
      Return (Some (PostgreSQLDatabase.mapPostFromDb row)) w' /\
    PostgreSQLDatabase.posts_table (db w') =
      map (fun r => if PostgreSQLDatabase.sql_eq (get "id" r) (PostgreSQLDatabase.param id)
                    then PostgreSQLDatabase.set_columns
                           (fields ++ [("updated_at", VDate (Some (clock (reads w))))]) r
                    else r)
        (PostgreSQLDatabase.posts_table (db w)) /\
    PostgreSQLDatabase.categories_table (db w') = PostgreSQLDatabase.categories_table (db w) /\
    row = PostgreSQLDatabase.set_columns
            (fields ++ [("updated_at", VDate (Some (clock (reads w))))]) r /\
    (forall column v, (column, v) ∈ fields -> get column row = v) /\
    get "updated_at" row = VDate (Some (clock (reads w))) /\
    get "updatedAt" (PostgreSQLDatabase.mapPostFromDb row) = VDate (Some (clock (reads w))) /\
    (forall column,
       PostgreSQLDatabase.includes_field PostgreSQLDatabase.allowedFields column = false ->
       column <> "updated_at" -> get column row = get column r).
Proof.
  intros Hhead Hne Hnodup Hstored Hok.
  destruct (stored_fields_Some _ _ Hstored) as [Hfst _].
  set (all := (fields ++ [("updated_at", VDate (Some (clock (reads w))))])%list) in *.
  assert (Hallowed : forall column, column ∈ fields.*1 ->
            PostgreSQLDatabase.includes_field PostgreSQLDatabase.allowedFields column = true).
  { intros column Hin. rewrite Hfst in Hin.
    apply list_elem_of_fmap in Hin as ([c v] & -> & Hin). by apply assignments_allowed in Hin. }
  assert (Hfirst : forall column, column ∈ all.*1 ->
            column = "updated_at" \/
            PostgreSQLDatabase.includes_field PostgreSQLDatabase.allowedFields column = true).
  { intros column Hin. unfold all in Hin. rewrite fmap_app in Hin.
    apply elem_of_app in Hin as [Hin|Hin]; [right; by apply Hallowed|].
    left. by apply list_elem_of_singleton in Hin. }
  assert (Hid : "id" ∉ all.*1).
  { intros Hin. by destruct (Hfirst _ Hin) as [?|Hin']; [|vm_compute in Hin']. }
  assert (Hnd : NoDup all.*1).
  { unfold all. rewrite fmap_app, Hfst. simpl. apply NoDup_app. split; [done|]. split.
    - intros column Hin Hup. apply list_elem_of_singleton in Hup as ->.
      rewrite <- Hfst in Hin. apply Hallowed in Hin. by vm_compute in Hin.
    - apply NoDup_singleton. }
  exists (PostgreSQLDatabase.set_columns all r). eexists. split; [|split; [|split]].
  - rewrite postgresql_updatePost_sends, Hstored by done. fold all.
    unfold bind at 1. rewrite query_posts_ok by exact Hok.
    unfold PostgreSQLDatabase.getPostById, bind, this, ret.
    cbn [db PostgreSQLDatabase.set_posts_table PostgreSQLDatabase.posts_table].
    rewrite filter_map_preserved.
    2: { intros x. destruct (PostgreSQLDatabase.sql_eq (get "id" x) _) eqn:Hx;
           [rewrite (get_set_columns_ne all x "id") by done|]; exact Hx. }
    pose proof (head_filter_true _ _ _ Hhead) as Hr. cbv beta in Hr.
    rewrite head_map, Hhead. cbn [fmap option_fmap option_map]. rewrite Hr. reflexivity.
  - reflexivity.
  - reflexivity.
  - split; [reflexivity|].
    assert (Hup : get "updated_at" (PostgreSQLDatabase.set_columns all r) =
                  VDate (Some (clock (reads w)))).
    { apply get_set_columns; [done|]. unfold all. apply elem_of_app. right. by left. }
    split.
    { intros column v Hin. apply get_set_columns; [done|]. unfold all. apply elem_of_app. by left. }
    split; [exact Hup|]. split.
    { unfold PostgreSQLDatabase.mapPostFromDb.
      rewrite !get_insert_ne by done. rewrite get_insert. exact Hup. }
    intros column Hna Hne'. apply get_set_columns_ne. intros Hin.
    destruct (Hfirst _ Hin) as [?|Hin']; [done | congruence].
Qed.

(** A value the engine cannot read into its column: the UPDATE fails and
    the tables are as they were. *)
Lemma postgresql_updatePost_refused w id updates :
  PostgreSQLDatabase.assignments updates <> [] ->
  NoDup (PostgreSQLDatabase.assignments updates).*1 ->
  PostgreSQLDatabase.stored_fields (PostgreSQLDatabase.assignments updates) = None ->
  PostgreSQLDatabase.updatePost id updates w =
    Throw (DatabaseError "invalid input syntax") (World (db w) (S (reads w)) (console w)).
Proof. intros Hne Hnodup Hnone. by rewrite postgresql_updatePost_sends, Hnone. Qed.

End postgresql_updatePost.
(** ** [updatePost]: both backends *)

Section updatePost_claim.
Context `{Runtime} `{Engine}.

(** An identifier no row has: the UPDATE touches nothing, and the result
    is [null]; no error is raised. *)
Lemma postgresql_updatePost_unknown (w : world PostgreSQLDatabase.t) id updates :
  List.filter (fun r => PostgreSQLDatabase.sql_eq (get "id" r) (PostgreSQLDatabase.param id))
    (PostgreSQLDatabase.posts_table (db w)) = [] ->
  PostgreSQLDatabase.posts_ok (PostgreSQLDatabase.posts_table (db w)) = true ->
  NoDup (PostgreSQLDatabase.assignments updates).*1 ->
  is_Some (PostgreSQLDatabase.stored_fields (PostgreSQLDatabase.assignments updates)) ->
  exists w', PostgreSQLDatabase.updatePost id updates w = Return None w' /\
             PostgreSQLDatabase.posts_table (db w') = PostgreSQLDatabase.posts_table (db w).
Proof.
  intros Hnone Hok Hnodup [fields Hfields].
  destruct (PostgreSQLDatabase.assignments updates) as [|a l] eqn:Ha.
  { exists w. unfold PostgreSQLDatabase.updatePost. rewrite Ha. cbn [List.length Nat.eqb].
    unfold PostgreSQLDatabase.getPostById, bind, this, ret. by rewrite Hnone. }
  rewrite postgresql_updatePost_sends by (by rewrite Ha). rewrite Ha, Hfields.
  set (f := map _).
  assert (Hsame : f (PostgreSQLDatabase.posts_table (db w)) = PostgreSQLDatabase.posts_table (db w)).
  { unfold f. revert Hnone. generalize (PostgreSQLDatabase.posts_table (db w)).
    induction l0 as [|r rows IH]; simpl; [done|].
    destruct (PostgreSQLDatabase.sql_eq (get "id" r) _); [done|]. intros Hl. by rewrite IH. }
  unfold bind at 1. rewrite query_posts_ok by (cbn [db]; by rewrite Hsame).
  eexists. unfold PostgreSQLDatabase.getPostById, bind, this, ret.
  cbn [db PostgreSQLDatabase.set_posts_table PostgreSQLDatabase.posts_table].
  rewrite Hsame, Hnone. done.
Qed.

(** C3, as amended.  In memory: an unknown identifier fails with NotFound
    and changes nothing; a stored one gives back the record with the given
    fields merged over it and [updatedAt] read from the clock.  Under
    PostgreSQL, for a stored identifier, an update that names an allowed
    field and no column twice, with values the engine reads into their
    columns and a table that keeps its constraints: the rows with the
    identifier take those values and the time of the call as [updated_at],
    every column off the allow-list and every other row stay as they
    were, and the row is read back.  A value the engine cannot read makes
    the call fail with the tables as they were.  When the update names no
    allowed field, nothing is written and the record comes back as
    stored. *)
Theorem updatePost_contract :
  (forall (w : world InMemoryDatabase.t) id updates,
     no_post_with_id (InMemoryDatabase.posts (db w)) id ->
     InMemoryDatabase.updatePost id updates w = Throw NotFound w) /\
  (forall (w : world InMemoryDatabase.t) id updates index p,
     first_with_id (InMemoryDatabase.posts (db w)) id index p ->
     exists w',
       InMemoryDatabase.updatePost id updates w =
         Return (merged p updates (clock (reads w))) w' /\
       InMemoryDatabase.posts (db w') =
         <[index := merged p updates (clock (reads w))]> (InMemoryDatabase.posts (db w)) /\
       InMemoryDatabase.categories (db w') = InMemoryDatabase.categories (db w) /\
       get "updatedAt" (merged p updates (clock (reads w))) = VDate (Some (clock (reads w))) /\
       forall k, k <> "updatedAt" ->
         merged p updates (clock (reads w)) !! k =
           match updates !! k with Some v => Some v | None => p !! k end) /\
  (forall (w : world PostgreSQLDatabase.t) id updates r fields,
     head (List.filter
             (fun r => PostgreSQLDatabase.sql_eq (get "id" r) (PostgreSQLDatabase.param id))
             (PostgreSQLDatabase.posts_table (db w))) = Some r ->
     PostgreSQLDatabase.assignments updates <> [] ->
     NoDup (PostgreSQLDatabase.assignments updates).*1 ->
     PostgreSQLDatabase.stored_fields (PostgreSQLDatabase.assignments updates) = Some fields ->
     PostgreSQLDatabase.posts_ok
       (map (fun r => if PostgreSQLDatabase.sql_eq (get "id" r) (PostgreSQLDatabase.param id)
                      then PostgreSQLDatabase.set_columns
                             (fields ++ [("updated_at", VDate (Some (clock (reads w))))]) r
                      else r)
            (PostgreSQLDatabase.posts_table (db w))) = true ->
     exists row w',
       PostgreSQLDatabase.updatePost id updates w =
         Return (Some (PostgreSQLDatabase.mapPostFromDb row)) w' /\
       PostgreSQLDatabase.posts_table (db w') =
         map (fun r => if PostgreSQLDatabase.sql_eq (get "id" r) (PostgreSQLDatabase.param id)
                       then PostgreSQLDatabase.set_columns
                              (fields ++ [("updated_at", VDate (Some (clock (reads w))))]) r
                       else r)
           (PostgreSQLDatabase.posts_table (db w)) /\
       PostgreSQLDatabase.categories_table (db w') = PostgreSQLDatabase.categories_table (db w) /\
       row = PostgreSQLDatabase.set_columns
               (fields ++ [("updated_at", VDate (Some (clock (reads w))))]) r /\
       (forall column v, (column, v) ∈ fields -> get column row = v) /\
       get "updated_at" row = VDate (Some (clock (reads w))) /\
       get "updatedAt" (PostgreSQLDatabase.mapPostFromDb row) = VDate (Some (clock (reads w))) /\
       (forall column,
          PostgreSQLDatabase.includes_field PostgreSQLDatabase.allowedFields column = false ->
          column <> "updated_at" -> get column row = get column r)) /\
  (forall (w : world PostgreSQLDatabase.t) id updates,
     PostgreSQLDatabase.assignments updates <> [] ->
     NoDup (PostgreSQLDatabase.assignments updates).*1 ->
     PostgreSQLDatabase.stored_fields (PostgreSQLDatabase.assignments updates) = None ->
     exists w',
       PostgreSQLDatabase.updatePost id updates w =
         Throw (DatabaseError "invalid input syntax") w' /\
       db w' = db w) /\
  (forall (w : world PostgreSQLDatabase.t) id updates,
     nothing_allowed updates ->
     PostgreSQLDatabase.updatePost id updates w = PostgreSQLDatabase.getPostById id w /\
     final (PostgreSQLDatabase.updatePost id updates w) = w).
Proof.
  split; [apply in_memory_updatePost_unknown|].
  split; [apply in_memory_updatePost_stored|].
  split; [apply postgresql_updatePost_stored|].
  split; [|apply postgresql_updatePost_nothing_allowed].
  intros w id updates Hne Hnodup Hnone.
  exists (World (db w) (S (reads w)) (console w)).
  split; [by apply postgresql_updatePost_refused | reflexivity].
Qed.

End updatePost_claim.

Section updatePost_examples.
Local Existing Instance Reference.runtime.
Local Existing Instance Reference.engine.

(** C3 fails on the code.  Under PostgreSQL the identifier 7 is stored, yet
    an update of [scheduledPublishDate], which is not on the allow-list,
    is not merged, and [updatedAt] stays what it was: the clock is not
    even read. *)
Lemma postgresql_updatePost_ignores_field :
  (get "id" <$> mjoin (value (PostgreSQLDatabase.getPostById (VStr "7")
                                Examples.postgresql_one_post))) = Some (VStr "7") /\
  PostgreSQLDatabase.updatePost (VStr "7") Examples.reschedule Examples.postgresql_one_post =
    PostgreSQLDatabase.getPostById (VStr "7") Examples.postgresql_one_post /\
  final (PostgreSQLDatabase.updatePost (VStr "7") Examples.reschedule
           Examples.postgresql_one_post) = Examples.postgresql_one_post /\
  (get "scheduledPublishDate" <$>
     mjoin (value (PostgreSQLDatabase.updatePost (VStr "7") Examples.reschedule
                     Examples.postgresql_one_post))) = Some VUndef /\
  (get "updatedAt" <$>
     mjoin (value (PostgreSQLDatabase.updatePost (VStr "7") Examples.reschedule
                     Examples.postgresql_one_post))) = Some (VDate (Some (clock 0))) /\
  clock (reads Examples.postgresql_one_post) <> clock 0.
Proof.
  assert (Hna : nothing_allowed Examples.reschedule).
  { intros key [v Hv]. unfold Examples.reschedule in Hv.
    apply lookup_singleton_Some in Hv as [<- _]. reflexivity. }
  split; [vm_compute; reflexivity|].
  split; [exact (proj1 (postgresql_updatePost_nothing_allowed _ _ _ Hna))|].
  split; [exact (proj2 (postgresql_updatePost_nothing_allowed _ _ _ Hna))|].
  split; [vm_compute; reflexivity|].
  split; [vm_compute; reflexivity|].
  vm_compute. discriminate.
Qed.

(** The row of post 7 in the table of the examples. *)
Lemma postgresql_one_post_head :
  head (List.filter (fun r => PostgreSQLDatabase.sql_eq (get "id" r) (VStr "7"))
          (PostgreSQLDatabase.posts_table (db Examples.postgresql_one_post))) =
    Some Examples.quiz_row.
Proof. apply (bool_decide_unpack _). vm_compute. reflexivity. Qed.

Lemma postgresql_one_post_row :
  exists row,
    head (List.filter (fun r => PostgreSQLDatabase.sql_eq (get "id" r) (VStr "7"))
            (PostgreSQLDatabase.posts_table (db Examples.postgresql_one_post))) = Some row.
Proof. exists Examples.quiz_row. exact postgresql_one_post_head. Qed.

Lemma three_drafts_second :
  first_with_id (InMemoryDatabase.posts (db Examples.three_drafts)) (VStr "2") 1
    (Examples.scheduled (VStr "2") "future" "2030-01-01T00:00:00.000Z").
Proof.
  split; [reflexivity|]. split; [vm_compute; reflexivity|].
  intros j q Hj Hq. destruct j as [|j]; [|lia]. injection Hq as <-. vm_compute. reflexivity.
Qed.

Lemma updatePost_contract_witness :
  (no_post_with_id (InMemoryDatabase.posts (db Examples.three_drafts)) (VStr "9") /\
   InMemoryDatabase.updatePost (VStr "9") ∅ Examples.three_drafts =
     Throw NotFound Examples.three_drafts) /\
  (first_with_id (InMemoryDatabase.posts (db Examples.three_drafts)) (VStr "2") 1
     (Examples.scheduled (VStr "2") "future" "2030-01-01T00:00:00.000Z") /\
   exists p' w',
     InMemoryDatabase.updatePost (VStr "2") Examples.retitle Examples.three_drafts =
       Return p' w' /\
     InMemoryDatabase.posts (db w') !! 1%nat = Some p' /\
     p' !! "title" = Some (VStr "Winter quiz, new date") /\
     p' !! "slug" = Some (VStr "future")) /\
  (exists row w',
     PostgreSQLDatabase.updatePost (VStr "7") Examples.retitle Examples.postgresql_one_post =
       Return (Some (PostgreSQLDatabase.mapPostFromDb row)) w' /\
     PostgreSQLDatabase.posts_table (db w') = [row] /\
     get "title" row = VStr "Winter quiz, new date" /\
     get "slug" row = VStr "winter-evening" /\
     get "created_at" row = VDate (Some (clock 0)) /\
     get "updated_at" row = VDate (Some (clock 1))) /\
  (PostgreSQLDatabase.stored_fields
     (PostgreSQLDatabase.assignments {[ "featured" := VStr "maybe" ]}) = None /\
   value (PostgreSQLDatabase.updatePost (VStr "7") {[ "featured" := VStr "maybe" ]}
            Examples.postgresql_one_post) = None) /\
  (nothing_allowed {[ "scheduledPublishDate" := VNull ]} /\
   final (PostgreSQLDatabase.updatePost (VStr "7") {[ "scheduledPublishDate" := VNull ]}
            Examples.postgresql_one_post) = Examples.postgresql_one_post).
Proof.
  destruct updatePost_contract as (Hunknown & Hstored & Hrow & Hrefused & Hnothing).
  split; [|split; [|split; [|split]]].
  - assert (Hno : no_post_with_id (InMemoryDatabase.posts (db Examples.three_drafts))
                    (VStr "9")).
    { intros p Hp. repeat (apply elem_of_cons in Hp as [->|Hp]; [reflexivity|]).
      by apply elem_of_nil in Hp. }
    split; [exact Hno|]. exact (Hunknown Examples.three_drafts (VStr "9") ∅ Hno).
  - split; [exact three_drafts_second|].
    destruct (Hstored Examples.three_drafts (VStr "2") Examples.retitle 1%nat _
                three_drafts_second) as (w' & Hup & Hposts & _ & _ & Hkeys).
    eexists _, w'. split; [exact Hup|]. split; [rewrite Hposts; reflexivity|].
    split; rewrite Hkeys by done; reflexivity.
  - destruct (Hrow Examples.postgresql_one_post (VStr "7") Examples.retitle Examples.quiz_row
                [("title", VStr "Winter quiz, new date")] postgresql_one_post_head)
      as (row & w' & Hup & Htable & _ & Hset & Hfields & Hat & _ & Hother).
    + vm_compute. discriminate.
    + apply (bool_decide_unpack _). vm_compute. reflexivity.
    + vm_compute. reflexivity.
    + vm_compute. reflexivity.
    + exists row, w'. split; [exact Hup|]. split.
      { rewrite Htable, Hset. apply (bool_decide_unpack _). vm_compute. reflexivity. }
      split; [apply Hfields; by left|]. split; [|split; [|exact Hat]].
      * rewrite Hset. vm_compute. reflexivity.
      * rewrite Hother by (reflexivity || discriminate). vm_compute. reflexivity.
  - assert (Hnone : PostgreSQLDatabase.stored_fields
                      (PostgreSQLDatabase.assignments {[ "featured" := VStr "maybe" ]}) = None)
      by (vm_compute; reflexivity).
    split; [exact Hnone|].
    destruct (Hrefused Examples.postgresql_one_post (VStr "7") {[ "featured" := VStr "maybe" ]})
      as (w' & -> & _); [vm_compute; discriminate | | exact Hnone | reflexivity].
    apply (bool_decide_unpack _). vm_compute. reflexivity.
  - assert (Hna : nothing_allowed {[ "scheduledPublishDate" := VNull ]}).
    { intros key [v Hv]. apply lookup_singleton_Some in Hv as [<- _]. reflexivity. }
    split; [exact Hna|].
    exact (proj2 (Hnothing Examples.postgresql_one_post (VStr "7") _ Hna)).
Defined.

End updatePost_examples.

Section put_post_examples.
Local Existing Instance Reference.runtime.

Lemma put_post_clears_omitted_fields_witness :
  first_with_id (InMemoryDatabase.posts (db Examples.three_drafts)) (VStr "1") 0
    (Examples.scheduled (VStr "1") "past" "2020-01-01T00:00:00.000Z") /\
  exists p' w',
    Admin.put_post "1" Examples.retitle Examples.three_drafts =
      Return (Admin.Updated (Some p')) w' /\
    p' !! "title" = Some (VStr "Winter quiz, new date") /\
    p' !! "slug" = Some VUndef /\
    p' !! "scheduledPublishDate" = Some (VStr "2020-01-01T00:00:00.000Z").
Proof.
  assert (Hfirst : first_with_id (InMemoryDatabase.posts (db Examples.three_drafts))
                     (VStr "1") 0
                     (Examples.scheduled (VStr "1") "past" "2020-01-01T00:00:00.000Z")).
  { split; [reflexivity|]. split; [reflexivity|]. intros j q Hj. lia. }
  split; [exact Hfirst|].
  destruct (put_post_clears_omitted_fields Examples.three_drafts "1" Examples.retitle 0 _ Hfirst)
    as (_ & p' & w' & Hput & _ & Hgiven & Homitted & Hother).
  exists p', w'. split; [exact Hput|]. split; [|split].
  - rewrite (Hgiven "title"); [reflexivity|]. by apply (bool_decide_unpack _).
  - apply Homitted; [by apply (bool_decide_unpack _) | reflexivity].
  - rewrite (Hother "scheduledPublishDate"); [reflexivity | | done].
    by apply (bool_decide_eq_false_1 _).
Defined.

End put_post_examples.

(** ** [searchPosts] and [getPosts] *)

Lemma elem_of_List_filter {A} (f : A -> bool) (l : list A) x :
  x ∈ List.filter f l <-> x ∈ l /\ f x = true.
Proof. rewrite !list_elem_of_In. apply filter_In. Qed.

Lemma filter_M_pure {D A} (f : A -> M D bool) (l : list A) (w : world D) :
  (forall x, x ∈ l -> exists b, f x w = Return b w) ->
  exists r, filter_M f l w = Return r w /\
            forall x, x ∈ r <-> x ∈ l /\ f x w = Return true w.
Proof.
  induction l as [|y l IH]; intros Hall.
  - exists []. split; [done|]. intros x. split; [by intros ?%elem_of_nil | by intros [?%elem_of_nil _]].
  - destruct (Hall y) as [b Hb]; [left|].
    destruct IH as (r & Hr & Hin); [intros x Hx; apply Hall; by right|].
    exists (if b then y :: r else r). split.
    { simpl. unfold bind. rewrite Hb, Hr. done. }
    intros x. destruct b.
    + rewrite !elem_of_cons, Hin. split.
      * intros [->|[? ?]]; [by split; [left|] | by split; [right|]].
      * intros [[->|?] ?]; [by left | by right].
    + rewrite elem_of_cons, Hin. split; [intros [? ?]; by split; [right|]|].
      intros [[->|?] Hx]; [congruence | done].
Qed.

Section search_in_memory.
Context `{Runtime}.
Implicit Types (w : world InMemoryDatabase.t) (p : obj).

Lemma matches_searchable q p w :
  searchable p = true -> InMemoryDatabase.matches q p w = Return (hit q p) w.
Proof.
  unfold searchable, hit, InMemoryDatabase.matches, InMemoryDatabase.lower_includes,
    InMemoryDatabase.some_includes, bind, ret.
  destruct (get "title" p); try done. destruct (get "content" p); try done.
  destruct (get "tags" p); try done. intros _.
  destruct (includes (toLowerCase s) q); [done|].
  by destruct (includes (toLowerCase s0) q).
Qed.

Lemma filter_M_filter {D A} (f : A -> M D bool) (g : A -> bool) (l : list A) (w : world D) :
  (forall x, x ∈ l -> f x w = Return (g x) w) ->
  filter_M f l w = Return (List.filter g l) w.
Proof.
  induction l as [|y l IH]; intros Hall; [done|].
  simpl. unfold bind. rewrite Hall by left. rewrite IH; [done|].
  intros x Hx. apply Hall. by right.
Qed.

(** In memory, on searchable posts: the posts whose title or content, in
    lower case, contains the query in lower case, or one of whose tags, as
    it is stored, does. *)
Lemma in_memory_searchPosts_searchable w query :
  (forall p, p ∈ InMemoryDatabase.posts (db w) -> searchable p = true) ->
  InMemoryDatabase.searchPosts query w =
    Return (List.filter (hit (toLowerCase query)) (InMemoryDatabase.posts (db w))) w.
Proof.
  intros Hall. unfold InMemoryDatabase.searchPosts, bind, this. simpl.
  apply filter_M_filter. intros p Hp. by apply matches_searchable, Hall.
Qed.

End search_in_memory.

Section search_claims.
Context `{Runtime} `{Engine}.

(** Every post [getPosts] returns in memory is published. *)
Lemma in_memory_getPosts_published (w : world InMemoryDatabase.t) filters :
  exists l, InMemoryDatabase.getPosts filters w = Return l w /\
            forall p, p ∈ l -> p ∈ InMemoryDatabase.posts (db w) /\
                               strict_eq (get "status" p) (VStr "published") = true.
Proof.
  eexists. split; [reflexivity|]. intros p Hp.
  rewrite array_sort_perm in Hp.
  destruct (negb _); [apply elem_of_List_filter in Hp as [Hp _]|];
    (destruct (truthy _); [apply elem_of_List_filter in Hp as [Hp _]|]);
    by apply elem_of_List_filter in Hp.
Qed.

Lemma get_status_mapPostFromDb r :
  get "status" (PostgreSQLDatabase.mapPostFromDb r) = get "status" r.
Proof.
  unfold PostgreSQLDatabase.mapPostFromDb.
  rewrite !get_insert_ne by done. apply get_insert.
Qed.

(** Under PostgreSQL [getPosts] fails when the engine cannot read the
    featured filter as a BOOLEAN; when it returns, every post it returns is
    published, and nothing has changed. *)
Lemma postgresql_getPosts_published (w : world PostgreSQLDatabase.t) filters l w' :
  PostgreSQLDatabase.getPosts filters w = Return l w' ->
  w' = w /\ forall p, p ∈ l -> get "status" p = VStr "published".
Proof.
  unfold PostgreSQLDatabase.getPosts, bind, this, ret. cbv beta iota zeta.
  assert (Hpub : forall (rows : list obj) (p : obj),
            (forall r, r ∈ rows ->
               PostgreSQLDatabase.sql_eq (get "status" r) (VStr "published") = true) ->
            p ∈ PostgreSQLDatabase.mapPostFromDb <$> order_by_published_date_desc rows ->
            get "status" p = VStr "published").
  { intros rows p Hrows Hp. apply list_elem_of_fmap in Hp as (r & -> & Hr).
    rewrite order_by_published_date_desc_perm in Hr. apply Hrows in Hr.
    unfold PostgreSQLDatabase.sql_eq in Hr. apply andb_true_iff in Hr as [_ Hr].
    apply strict_eq_eq in Hr. by rewrite get_status_mapPostFromDb. }
  assert (Hcat : forall r,
            r ∈ (if truthy (get "category" filters)
                 then List.filter
                        (fun r => PostgreSQLDatabase.sql_eq (get "category" r)
                                    (PostgreSQLDatabase.param (get "category" filters)))
                        (List.filter
                           (fun r => PostgreSQLDatabase.sql_eq (get "status" r) (VStr "published"))
                           (PostgreSQLDatabase.posts_table (db w)))
                 else List.filter
                        (fun r => PostgreSQLDatabase.sql_eq (get "status" r) (VStr "published"))
                        (PostgreSQLDatabase.posts_table (db w))) ->
            PostgreSQLDatabase.sql_eq (get "status" r) (VStr "published") = true).
  { intros r Hr. destruct (truthy _); [apply elem_of_List_filter in Hr as [Hr _]|];
      by apply elem_of_List_filter in Hr as [_ Hr]. }
  destruct (negb _).
  - destruct (PostgreSQLDatabase.boolean _) as [featured|]; [|done].
    intros [= <- <-]. split; [done|]. intros p Hp. eapply Hpub; [|exact Hp].
    intros r Hr. apply elem_of_List_filter in Hr as [Hr _]. by apply Hcat.
  - intros [= <- <-]. split; [done|]. intros p Hp. by eapply Hpub.
Qed.

(** [searchPosts] puts no condition on the status.  In memory, when the
    predicate of the search answers for every stored post, a post that is
    not published and for which it answers true is among the results;
    under PostgreSQL, so is every row the WHERE clause accepts.  [getPosts],
    whatever the filters, returns published posts only, so that post is not
    among them. *)
Lemma searchPosts_ignores_status :
  (forall (w : world InMemoryDatabase.t) (query : string) (p : obj),
     p ∈ InMemoryDatabase.posts (db w) ->
     get "status" p <> VStr "published" ->
     (forall p', p' ∈ InMemoryDatabase.posts (db w) ->
        exists b, InMemoryDatabase.matches (toLowerCase query) p' w = Return b w) ->
     InMemoryDatabase.matches (toLowerCase query) p w = Return true w ->
     exists l,
       InMemoryDatabase.searchPosts query w = Return l w /\ p ∈ l /\
       forall filters, exists l',
         InMemoryDatabase.getPosts filters w = Return l' w /\ p ∉ l') /\
  (forall (w : world PostgreSQLDatabase.t) (query : string) (r : obj),
     r ∈ PostgreSQLDatabase.posts_table (db w) ->
     get "status" r <> VStr "published" ->
     PostgreSQLDatabase.where_search ("%" +:+ toLowerCase query +:+ "%") r = true ->
     exists l,
       PostgreSQLDatabase.searchPosts query w = Return l w /\
       PostgreSQLDatabase.mapPostFromDb r ∈ l /\
       forall filters l' w',
         PostgreSQLDatabase.getPosts filters w = Return l' w' ->
         PostgreSQLDatabase.mapPostFromDb r ∉ l').
Proof.
  split.
  - intros w query p Hp Hdraft Hall Hmatch.
    destruct (filter_M_pure (InMemoryDatabase.matches (toLowerCase query))
                (InMemoryDatabase.posts (db w)) w Hall) as (l & Hl & Hin).
    exists l. split; [exact Hl|]. split; [by apply Hin|].
    intros filters.
    destruct (in_memory_getPosts_published w filters) as (l' & Hl' & Hpub).
    exists l'. split; [exact Hl'|]. intros Hp'.
    apply Hpub in Hp' as [_ Hst]. by apply strict_eq_eq in Hst.
  - intros w query r Hr Hdraft Hwhere.
    eexists. split; [reflexivity|]. split.
    { apply list_elem_of_fmap. exists r. split; [done|].
      rewrite order_by_published_date_desc_perm. by apply elem_of_List_filter. }
    intros filters l' w' Hl' Hin.
    destruct (postgresql_getPosts_published w filters l' w' Hl') as [_ Hpub].
    apply Hpub in Hin. apply Hdraft. by rewrite <- Hin, get_status_mapPostFromDb.
Qed.

End search_claims.

Section search_examples.
Local Existing Instance Reference.runtime.
Local Existing Instance Reference.engine.

Lemma searchPosts_ignores_status_example :
  get "status" (Examples.scheduled (VStr "1") "past" "2020-01-01T00:00:00.000Z")
    <> VStr "published" /\
  InMemoryDatabase.matches (toLowerCase "QUIZ")
    (Examples.scheduled (VStr "1") "past" "2020-01-01T00:00:00.000Z") Examples.three_drafts
    = Return true Examples.three_drafts /\
  exists l,
    InMemoryDatabase.searchPosts "QUIZ" Examples.three_drafts = Return l Examples.three_drafts /\
    Examples.scheduled (VStr "1") "past" "2020-01-01T00:00:00.000Z" ∈ l.
Proof.
  assert (Hdraft : get "status" (Examples.scheduled (VStr "1") "past" "2020-01-01T00:00:00.000Z")
                   <> VStr "published") by (vm_compute; discriminate).
  split; [exact Hdraft|]. split; [reflexivity|].
  destruct (proj1 searchPosts_ignores_status Examples.three_drafts "QUIZ"
              (Examples.scheduled (VStr "1") "past" "2020-01-01T00:00:00.000Z"))
    as (l & Hl & Hin & _).
  - left.
  - exact Hdraft.
  - intros p' Hp'.
    repeat (apply elem_of_cons in Hp' as [->|Hp']; [exists true; reflexivity|]).
    by apply elem_of_nil in Hp'.
  - reflexivity.
  - exists l. by split.
Qed.

(** C9 holds of the specification and fails on the code.  The seeded
    store holds the draft 7, whose title contains the word winter.  Post 1
    is saved from the admin panel, whose body carries no tags: the PUT
    stores [undefined] for them.  In memory the search for winter then
    fails on post 1 with a TypeError, [p.tags.some] having no array to work
    on, and returns nothing at all, the draft no more than any other post.
    Under PostgreSQL the same PUT stores NULL, the WHERE clause passes over
    post 1, and the search returns the draft. *)
Theorem in_memory_searchPosts_fails_on_post_without_tags :
  (get "tags" <$> mjoin (value (InMemoryDatabase.getPostById (VStr "1")
                                  Examples.seeded_with_draft))) =
    Some (VArr ["pubquiz"; "tips"; "organiseren"]) /\
  (map (get "id") <$> value (InMemoryDatabase.searchPosts "winter" Examples.seeded_with_draft))
    = Some [VStr "7"] /\
  (get "tags" <$> mjoin (value (InMemoryDatabase.getPostById (VStr "1")
                                  Examples.seeded_after_put))) = Some VUndef /\
  (get "status" <$> mjoin (value (InMemoryDatabase.getPostById (VStr "7")
                                    Examples.seeded_after_put))) = Some (VStr "draft") /\
  (get "title" <$> mjoin (value (InMemoryDatabase.getPostById (VStr "7")
                                   Examples.seeded_after_put))) = Some (VStr "Winter evening") /\
  includes (toLowerCase "Winter evening") (toLowerCase "winter") = true /\
  value (InMemoryDatabase.searchPosts "winter" Examples.seeded_after_put) = None /\
  thrown (InMemoryDatabase.searchPosts "winter" Examples.seeded_after_put) =
    Some (TypeError "some is not a function") /\
  (get "tags" <$> mjoin (value (PostgreSQLDatabase.getPostById (VStr "1")
                                  Examples.postgresql_after_put))) = Some (VArr []) /\
  (get "status" <$> mjoin (value (PostgreSQLDatabase.getPostById (VStr "7")
                                    Examples.postgresql_after_put))) = Some (VStr "draft") /\
  (map (get "id") <$> value (PostgreSQLDatabase.searchPosts "winter"
                               Examples.postgresql_after_put)) = Some [VStr "7"].
Proof. repeat split; vm_compute; reflexivity. Qed.

(** C4 holds of the specification and fails on the code.  The seeded
    store holds one more post, number 7, tagged Quiz; neither its title nor
    its content contains quiz.  A search for quiz returns posts 1, 2 and 3,
    whose titles contain the word, and not post 7: the tag is compared as
    it is stored with the query in lower case.  The same row is not found
    under PostgreSQL. *)
Theorem searchPosts_misses_tag_in_other_case :
  (get "tags" <$> mjoin (value (InMemoryDatabase.getPostById (VStr "7")
                                  Examples.seeded_with_draft))) = Some (VArr ["Quiz"]) /\
  includes (toLowerCase "Quiz") (toLowerCase "quiz") = true /\
  (map (get "id") <$> value (InMemoryDatabase.searchPosts "quiz" Examples.seeded_with_draft))
    = Some [VStr "1"; VStr "2"; VStr "3"] /\
  (map (get "id") <$> value (InMemoryDatabase.searchPosts "QUIZ" Examples.seeded_with_draft))
    = Some [VStr "1"; VStr "2"; VStr "3"] /\
  (get "tags" <$> mjoin (value (PostgreSQLDatabase.getPostById (VStr "7")
                                  Examples.postgresql_one_post))) = Some (VArr ["Quiz"]) /\
  value (PostgreSQLDatabase.searchPosts "quiz" Examples.postgresql_one_post) = Some [].
Proof. repeat split; vm_compute; reflexivity. Qed.

End search_examples.

(** ** Categories *)

Lemma elem_of_set_add s x y : y ∈ set_add s x <-> y ∈ s \/ y = x.
Proof.
  unfold set_add. destruct (existsb _ s) eqn:Hex.
  - split; [by left|]. intros [Hy|Hy]; [done|]. subst y.
    apply existsb_exists in Hex as (z & Hz & Heq).
    apply same_value_zero_eq in Heq as ->. by apply list_elem_of_In.
  - rewrite elem_of_app, list_elem_of_singleton. done.
Qed.

Lemma elem_of_new_Set l x : x ∈ new_Set l <-> x ∈ l.
Proof.
  unfold new_Set.
  assert (Hgen : forall acc, x ∈ fold_left set_add l acc <-> x ∈ acc \/ x ∈ l).
  { induction l as [|y l IH]; intros acc; simpl.
    - split; [by left | by intros [?|?%elem_of_nil]].
    - rewrite IH, elem_of_set_add, elem_of_cons. tauto. }
  rewrite Hgen. split; [by intros [?%elem_of_nil|?] | by right].
Qed.

(** [new Set] keeps one of each value, for values that [Set] can compare
    (a primitive value is SameValueZero to itself). *)
Lemma NoDup_new_Set l :
  (forall x, x ∈ l -> same_value_zero x x = true) -> NoDup (new_Set l).
Proof.
  unfold new_Set. intros Hself.
  assert (Hgen : forall acc, NoDup acc -> NoDup (fold_left set_add l acc)).
  { induction l as [|y l IH]; intros acc Hacc; [done|]. simpl.
    apply IH; [intros x Hx; apply Hself; by right|].
    unfold set_add. destruct (existsb _ acc) eqn:Hex; [done|].
    apply NoDup_app. split; [done|]. split; [|apply NoDup_singleton].
    intros x Hx ->%list_elem_of_singleton.
    apply not_true_iff_false in Hex. apply Hex. apply existsb_exists.
    exists y. split; [by apply list_elem_of_In | apply Hself; left]. }
  apply Hgen, NoDup_nil_2.
Qed.

Section category_claims.
Context `{Runtime} `{Engine}.

(** In memory the list is the union of the registered names, the
    categories of the posts (the ones that are truthy) and the fallback. *)
Lemma in_memory_getCategories_union (w : world InMemoryDatabase.t) :
  exists l, InMemoryDatabase.getCategories w = Return l w /\
    forall x, x ∈ l <->
      (exists c, c ∈ InMemoryDatabase.categories (db w) /\ x = VStr c) \/
      (exists p, p ∈ InMemoryDatabase.posts (db w) /\ x = get "category" p /\ truthy x = true) \/
      x = VStr "Algemeen".
Proof.
  eexists. split; [reflexivity|]. intros x.
  rewrite elem_of_new_Set, !elem_of_app, elem_of_new_Set, list_elem_of_singleton.
  rewrite elem_of_List_filter, !list_elem_of_fmap.
  split.
  - intros [(c & -> & Hc)|[[(p & -> & Hp) Ht]| ->]]; [left|right; left|right; right]; eauto.
  - intros [(c & Hc & ->)|[(p & Hp & -> & Ht)| ->]]; [left|right; left|right; right]; eauto.
Qed.

(** It names no category twice, when the categories of the posts are
    primitive values (strings, in practice). *)
Lemma in_memory_getCategories_NoDup (w : world InMemoryDatabase.t) :
  (forall p, p ∈ InMemoryDatabase.posts (db w) ->
     truthy (get "category" p) = true ->
     same_value_zero (get "category" p) (get "category" p) = true) ->
  exists l, InMemoryDatabase.getCategories w = Return l w /\ NoDup l.
Proof.
  intros Hprim. eexists. split; [reflexivity|].
  apply NoDup_new_Set. intros x.
  rewrite !elem_of_app, elem_of_new_Set, list_elem_of_singleton.
  rewrite elem_of_List_filter, !list_elem_of_fmap.
  intros [(c & -> & Hc)|[[(p & -> & Hp) Ht]| ->]]; [|by apply Hprim|done].
  simpl. apply String.eqb_refl.
Qed.

(** Under PostgreSQL it is the table of registered names and the
    fallback: the posts play no part. *)
Lemma postgresql_getCategories_table (w : world PostgreSQLDatabase.t) :
  exists l, PostgreSQLDatabase.getCategories w = Return l w /\
    forall x, x ∈ l <-> x ∈ PostgreSQLDatabase.categories_table (db w) \/ x = "Algemeen".
Proof.
  eexists. split; [reflexivity|]. intros x.
  destruct (PostgreSQLDatabase.includes_field _ "Algemeen") eqn:Hin.
  - rewrite order_by_name_perm. split; [by left|]. intros [Hx|Hx]; [done|]. subst x.
    unfold PostgreSQLDatabase.includes_field in Hin.
    apply existsb_exists in Hin as (z & Hz & ->%String.eqb_eq).
    apply list_elem_of_In in Hz. by rewrite order_by_name_perm in Hz.
  - by rewrite elem_of_app, list_elem_of_singleton, order_by_name_perm.
Qed.

(** The fallback category is listed by both backends. *)
Lemma getCategories_fallback :
  (forall w : world InMemoryDatabase.t,
     exists l, InMemoryDatabase.getCategories w = Return l w /\ VStr "Algemeen" ∈ l) /\
  (forall w : world PostgreSQLDatabase.t,
     exists l, PostgreSQLDatabase.getCategories w = Return l w /\ "Algemeen" ∈ l).
Proof.
  split; intros w.
  - destruct (in_memory_getCategories_union w) as (l & Hl & Hin).
    exists l. split; [done|]. apply Hin. by right; right.
  - destruct (postgresql_getCategories_table w) as (l & Hl & Hin).
    exists l. split; [done|]. apply Hin. by right.
Qed.

Lemma trimmed_trims_to {D} name n (w : world D) :
  trims_to name n -> InMemoryDatabase.trimmed name w = Return n w.
Proof. intros (s & Hs & <-). unfold InMemoryDatabase.trimmed. by rewrite Hs. Qed.

(** In memory, a name that equals a registered one when case is ignored
    changes nothing: neither the categories, nor the posts, nor the count
    of clock readings. *)
Lemma in_memory_addCategory_known (w : world InMemoryDatabase.t) name n c :
  trims_to name n -> n <> "" ->
  c ∈ InMemoryDatabase.categories (db w) -> toLowerCase c = toLowerCase n ->
  exists l, InMemoryDatabase.addCategory name w = Return l w.
Proof.
  intros Hn Hne Hc Heq. unfold InMemoryDatabase.addCategory, bind at 1.
  rewrite (trimmed_trims_to _ _ _ Hn).
  apply String.eqb_neq in Hne. rewrite Hne.
  unfold bind at 1, this. simpl.
  assert (existsb (fun c => String.eqb (toLowerCase c) (toLowerCase n))
            (InMemoryDatabase.categories (db w)) = true) as ->.
  { apply existsb_exists. exists c. split; [by apply list_elem_of_In|].
    by apply String.eqb_eq. }
  unfold bind, ret. simpl. eauto.
Qed.

(** Both backends answer InvalidArgument exactly when the name is blank,
    and the state is then what it was. *)
Lemma addCategory_blank name :
  (forall w : world InMemoryDatabase.t,
     (blank name -> InMemoryDatabase.addCategory name w = Throw InvalidArgument w) /\
     (forall w', InMemoryDatabase.addCategory name w = Throw InvalidArgument w' -> blank name)) /\
  (forall w : world PostgreSQLDatabase.t,
     (blank name -> PostgreSQLDatabase.addCategory name w = Throw InvalidArgument w) /\
     (forall w', PostgreSQLDatabase.addCategory name w = Throw InvalidArgument w' -> blank name)).
Proof.
  split; intros w; split.
  - intros Hb. unfold InMemoryDatabase.addCategory, bind at 1.
    by rewrite (trimmed_trims_to _ "" _ Hb).
  - intros w'. unfold InMemoryDatabase.addCategory, bind at 1, InMemoryDatabase.trimmed.
    destruct (if truthy name then name else VStr "") as [| | | | |s| |] eqn:Hs; try done.
    unfold ret. destruct (String.eqb (trim s) "") eqn:Ht.
    + intros _. exists s. split; [done|]. by apply String.eqb_eq.
    + unfold bind at 1, this. unfold bind at 1.
      destruct (existsb _ _); simpl; unfold bind, ret; simpl; done.
  - intros Hb. unfold PostgreSQLDatabase.addCategory, bind at 1.
    by rewrite (trimmed_trims_to _ "" _ Hb).
  - intros w'. unfold PostgreSQLDatabase.addCategory, bind at 1, InMemoryDatabase.trimmed.
    destruct (if truthy name then name else VStr "") as [| | | | |s| |] eqn:Hs; try done.
    unfold ret. destruct (String.eqb (trim s) "") eqn:Ht.
    + intros _. exists s. split; [done|]. by apply String.eqb_eq.
    + unfold bind at 1, this. unfold bind at 1.
      destruct (negb _); [done|].
      destruct (PostgreSQLDatabase.includes_field _ _); done.
Qed.

End category_claims.

(** ** The constraints of the table of posts *)

Section preserves.
Context `{Runtime} {D : Type}.
Implicit Types (P : D -> Prop).

Lemma preserves_ret {A} P (a : A) : preserves P (ret a).
Proof. by intros w. Qed.

Lemma preserves_throw {A} P e : preserves P (@throw D A e).
Proof. by intros w. Qed.

Lemma preserves_this P : preserves P this.
Proof. by intros w. Qed.

Lemma preserves_bind {A B} P (m : M D A) (f : A -> M D B) :
  preserves P m -> (forall a, preserves P (f a)) -> preserves P (bind m f).
Proof.
  intros Hm Hf w Hw. unfold bind. specialize (Hm w Hw).
  destruct (m w) as [a w'|e w']; simpl in *; [by apply Hf | done].
Qed.

Lemma preserves_Date_now P : preserves P Date_now.
Proof. by intros w. Qed.

Lemma preserves_new_Date P : preserves P new_Date.
Proof. by intros w. Qed.

Lemma preserves_new_Date_toISOString P : preserves P new_Date_toISOString.
Proof. by intros w. Qed.

End preserves.

Section postgresql_constraints.
Context `{Runtime} `{Engine}.

Lemma preserves_query_posts f : preserves constrained (PostgreSQLDatabase.query_posts f).
Proof.
  intros w Hw. unfold PostgreSQLDatabase.query_posts, bind, this. simpl.
  destruct (PostgreSQLDatabase.posts_ok (f _)) eqn:Hok; simpl; done.
Qed.

Lemma preserves_getPostById id : preserves constrained (PostgreSQLDatabase.getPostById id).
Proof. by intros w. Qed.

Lemma unique_filter column (g : obj -> bool) rows :
  PostgreSQLDatabase.unique column rows = true ->
  PostgreSQLDatabase.unique column (List.filter g rows) = true.
Proof.
  induction rows as [|r rows IH]; simpl; [done|].
  intros [Hr Hrows]%andb_true_iff. destruct (g r); simpl; [|by apply IH].
  rewrite IH by done. rewrite andb_true_r. apply negb_true_iff in Hr.
  apply negb_true_iff. apply not_true_iff_false. intros Hex.
  apply not_true_iff_false in Hr. apply Hr.
  apply existsb_exists in Hex as (x & Hx & Heq). apply existsb_exists.
  exists x. split; [|done]. by apply filter_In in Hx as [Hx _].
Qed.

Lemma posts_ok_filter (g : obj -> bool) rows :
  PostgreSQLDatabase.posts_ok rows = true ->
  PostgreSQLDatabase.posts_ok (List.filter g rows) = true.
Proof.
  unfold PostgreSQLDatabase.posts_ok.
  intros [[Hall Hid]%andb_true_iff Hslug]%andb_true_iff.
  rewrite !unique_filter by done. rewrite !andb_true_r.
  apply forallb_forall. intros r [Hr _]%filter_In.
  by eapply forallb_forall in Hall.
Qed.

(** What [unique] says: two rows at different places differ on the column. *)
Lemma unique_lookup column rows i j r r' :
  PostgreSQLDatabase.unique column rows = true ->
  rows !! i = Some r -> rows !! j = Some r' -> (i < j)%nat ->
  PostgreSQLDatabase.sql_eq (get column r') (get column r) = false.
Proof.
  revert i j. induction rows as [|r0 rows IH]; intros i j Hu Hi Hj Hlt; [done|].
  simpl in Hu. apply andb_true_iff in Hu as [Hr0 Hu].
  destruct j as [|j]; [lia|]. destruct i as [|i]; simpl in *.
  - injection Hi as ->. apply negb_true_iff in Hr0.
    apply not_true_iff_false. intros Heq. apply not_true_iff_false in Hr0. apply Hr0.
    apply existsb_exists. exists r'. split; [|done].
    apply list_elem_of_In. by eapply list_elem_of_lookup_2.
  - apply (IH i j); [done.. | lia].
Qed.

(** Under PostgreSQL the operations on posts keep the constraints of the
    table, the uniqueness of the slug among them: what the UNIQUE
    constraint of [createTables] is there for. *)
Lemma postgresql_keeps_constraints :
  (forall post, preserves constrained (PostgreSQLDatabase.createPost post)) /\
  (forall id updates, preserves constrained (PostgreSQLDatabase.updatePost id updates)) /\
  (forall id, preserves constrained (PostgreSQLDatabase.deletePost id)).
Proof.
  split; [|split].
  - intros post. unfold PostgreSQLDatabase.createPost.
    apply preserves_bind.
    { destruct (truthy _); [apply preserves_ret|].
      apply preserves_bind; [apply preserves_Date_now | intros; apply preserves_ret]. }
    intros id. apply preserves_bind.
    { destruct (String.eqb _ _); [destruct (truthy _)|]; try apply preserves_ret.
      apply preserves_bind; [apply preserves_new_Date_toISOString | intros; apply preserves_ret]. }
    intros publishedDate.
    destruct (PostgreSQLDatabase.timestamp publishedDate); [|apply preserves_throw].
    apply preserves_bind; [apply preserves_Date_now|].
    intros created. apply preserves_bind; [apply preserves_query_posts|].
    intros _. apply preserves_getPostById.
  - intros id updates. unfold PostgreSQLDatabase.updatePost.
    destruct (Nat.eqb _ 0); [apply preserves_getPostById|].
    apply preserves_bind; [apply preserves_new_Date|]. intros updated.
    apply preserves_bind; [|intros _; apply preserves_getPostById].
    destruct (bool_decide _); [|apply preserves_throw].
    destruct (PostgreSQLDatabase.stored_fields _);
      [apply preserves_query_posts | apply preserves_throw].
  - intros id. unfold PostgreSQLDatabase.deletePost.
    apply preserves_bind; [apply preserves_getPostById|].
    intros [post|]; [|apply preserves_throw].
    apply preserves_bind; [|intros; apply preserves_ret].
    intros w Hw. unfold constrained in *. simpl. by apply posts_ok_filter.
Qed.

Lemma sql_eq_sym a b : PostgreSQLDatabase.sql_eq a b = PostgreSQLDatabase.sql_eq b a.
Proof.
  unfold PostgreSQLDatabase.sql_eq. rewrite strict_eq_sym.
  by destruct (PostgreSQLDatabase.is_null a), (PostgreSQLDatabase.is_null b).
Qed.

(** With the constraints, no two rows have the same slug. *)
Lemma constrained_slug_unique (d : PostgreSQLDatabase.t) i j r r' :
  constrained d ->
  PostgreSQLDatabase.posts_table d !! i = Some r ->
  PostgreSQLDatabase.posts_table d !! j = Some r' ->
  i <> j ->
  PostgreSQLDatabase.sql_eq (get "slug" r) (get "slug" r') = false /\
  forall s, get "slug" r = VStr s -> get "slug" r' <> VStr s.
Proof.
  unfold constrained, PostgreSQLDatabase.posts_ok.
  intros [_ Hslug]%andb_true_iff Hi Hj Hne.
  assert (Hsql : PostgreSQLDatabase.sql_eq (get "slug" r) (get "slug" r') = false).
  { destruct (decide (i < j)%nat).
    - rewrite sql_eq_sym. by eapply (unique_lookup "slug" _ i j).
    - eapply (unique_lookup "slug" _ j i); [done.. | lia]. }
  split; [exact Hsql|]. intros s Hs Hs'. rewrite Hs, Hs' in Hsql.
  unfold PostgreSQLDatabase.sql_eq in Hsql. simpl in Hsql.
  by rewrite String.eqb_refl in Hsql.
Qed.

(** ** The schema of the table of posts *)

(** What a row within the constraints holds as its identifier is a text. *)
Lemma row_ok_id r :
  PostgreSQLDatabase.row_ok r = true -> exists s, get "id" r = VStr s.
Proof.
  unfold PostgreSQLDatabase.row_ok. cbn [fmap list_fmap PostgreSQLDatabase.columns fst forallb].
  intros [Hid _]%andb_true_iff. revert Hid.
  unfold PostgreSQLDatabase.column_ok.
  change (PostgreSQLDatabase.column_type PostgreSQLDatabase.columns "id")
    with (Some (PostgreSQLDatabase.VARCHAR 255, true)).
  destruct (get "id" r) as [| | | | |s| |]; try discriminate; [|by destruct t].
  intros _. by exists s.
Qed.

(** Writing into a column a value that suits it keeps the row within the
    constraints of its columns. *)
Lemma row_ok_insert column v r :
  PostgreSQLDatabase.column_ok column v = true ->
  PostgreSQLDatabase.row_ok r = true ->
  PostgreSQLDatabase.row_ok (<[column := v]> r) = true.
Proof.
  intros Hv. unfold PostgreSQLDatabase.row_ok. rewrite !forallb_forall. intros Hr c Hc.
  destruct (decide (column = c)) as [<-|Hne]; [by rewrite get_insert|].
  rewrite get_insert_ne by done. by apply Hr.
Qed.

(** A parameter is NULL or a text: it suits a VARCHAR that may be NULL as
    soon as it fits. *)
Lemma fits_has_type n v :
  PostgreSQLDatabase.fits n (PostgreSQLDatabase.param v) = true ->
  PostgreSQLDatabase.has_type (PostgreSQLDatabase.VARCHAR n) (PostgreSQLDatabase.param v) = true.
Proof. by destruct v as [| |[]| | | | |]. Qed.

(** An UPDATE that leaves a column alone leaves its uniqueness alone. *)
Lemma unique_map column (f : obj -> obj) rows :
  (forall r, get column (f r) = get column r) ->
  PostgreSQLDatabase.unique column (map f rows) = PostgreSQLDatabase.unique column rows.
Proof.
  intros Hf. induction rows as [|r rows IH]; simpl; [done|].
  rewrite IH, Hf. f_equal. f_equal.
  clear IH. induction rows as [|r' rows IH]; simpl; [done|]. by rewrite IH, Hf.
Qed.

Lemma posts_ok_map h (g : obj -> bool) rows :
  (forall r, get "id" (h r) = get "id" r) ->
  (forall r, get "slug" (h r) = get "slug" r) ->
  (forall r, PostgreSQLDatabase.row_ok r = true -> PostgreSQLDatabase.row_ok (h r) = true) ->
  PostgreSQLDatabase.posts_ok rows = true ->
  PostgreSQLDatabase.posts_ok (map (fun r => if g r then h r else r) rows) = true.
Proof.
  intros Hid Hslug Hrow Hok. unfold PostgreSQLDatabase.posts_ok in *.
  apply andb_true_iff in Hok as [[Hrows Huid]%andb_true_iff Huslug].
  rewrite !unique_map, Huid, Huslug.
  - rewrite !andb_true_r. apply forallb_forall. intros r' Hr'.
    apply in_map_iff in Hr' as (r & <- & Hr).
    eapply forallb_forall in Hrows; [|exact Hr].
    destruct (g r); [by apply Hrow | done].
  - intros r. by destruct (g r).
  - intros r. by destruct (g r).
Qed.

End postgresql_constraints.

(** ** Categories and slugs on examples *)

Section category_slug_examples.
Local Existing Instance Reference.runtime.
Local Existing Instance Reference.engine.

(** C5 holds of the specification and fails on the code.  Post 7 is in
    the category Nieuws, which nobody registered.  In memory the list of
    categories names it; under PostgreSQL the list is the table of
    registered names and the fallback, without Nieuws. *)
Theorem postgresql_getCategories_omits_used_category :
  (get "category" <$> mjoin (value (PostgreSQLDatabase.getPostById (VStr "7")
                                      Examples.postgresql_one_post))) = Some (VStr "Nieuws") /\
  PostgreSQLDatabase.categories_table (db Examples.postgresql_one_post) = ["Horeca"] /\
  value (PostgreSQLDatabase.getCategories Examples.postgresql_one_post) =
    Some ["Horeca"; "Algemeen"] /\
  value (InMemoryDatabase.getCategories Examples.seeded_with_draft) =
    Some (VStr <$> ["Tips & Tricks"; "Case Studies"; "Horeca"; "Team Building";
                    "Onderwijs"; "Product Updates"; "Algemeen"; "Nieuws"]).
Proof. repeat split; vm_compute; reflexivity. Qed.

(** C6 holds of the specification and fails on the code.  Horeca is
    registered.  Adding horeca changes nothing in memory; under PostgreSQL,
    whose constraint compares the names as they are written, it adds a
    second entry. *)
Theorem postgresql_addCategory_duplicates_other_case :
  toLowerCase "horeca" = toLowerCase "Horeca" /\
  PostgreSQLDatabase.categories_table (db Examples.postgresql_one_post) = ["Horeca"] /\
  PostgreSQLDatabase.categories_table
    (db (final (PostgreSQLDatabase.addCategory (VStr "horeca") Examples.postgresql_one_post)))
    = ["Horeca"; "horeca"] /\
  value (PostgreSQLDatabase.addCategory (VStr "horeca") Examples.postgresql_one_post) =
    Some ["Horeca"; "horeca"; "Algemeen"] /\
  final (InMemoryDatabase.addCategory (VStr "horeca") Examples.seeded) = Examples.seeded.
Proof. repeat split; vm_compute; reflexivity. Qed.

(** C7 holds of the specification and fails on the code.  From the seed
    state, [createPost] under the slug of post 1 succeeds in memory and
    leaves two posts with that slug.  Under PostgreSQL the UNIQUE
    constraint refuses such an insertion and the table stays as it was. *)
Theorem in_memory_createPost_duplicates_slug :
  get "slug" <$> InMemoryDatabase.posts (db Examples.seeded) =
    [VStr "perfecte-pubquiz-organiseren"; VStr "team-building-case-study";
     VStr "horeca-quiz-meer-bezoekers"] /\
  (get "slug" <$> value (InMemoryDatabase.createPost Examples.same_slug Examples.seeded)) =
    Some (VStr "perfecte-pubquiz-organiseren") /\
  get "slug" <$> InMemoryDatabase.posts
                   (db (final (InMemoryDatabase.createPost Examples.same_slug Examples.seeded))) =
    [VStr "perfecte-pubquiz-organiseren"; VStr "team-building-case-study";
     VStr "horeca-quiz-meer-bezoekers"; VStr "perfecte-pubquiz-organiseren"] /\
  value (PostgreSQLDatabase.createPost Examples.same_slug_as_draft
           Examples.postgresql_one_post) = None /\
  db (final (PostgreSQLDatabase.createPost Examples.same_slug_as_draft
               Examples.postgresql_one_post)) = db Examples.postgresql_one_post.
Proof. repeat split; vm_compute; reflexivity. Qed.

End category_slug_examples.

(* ================================================================== *)
(** * Further properties of the code *)

(** ** The scheduler, whatever the identifiers *)

Section scheduler_frame.
Context `{Runtime}.
Implicit Types (w : world InMemoryDatabase.t) (p : obj).

Lemma same_but_refl keys p : same_but keys p p.
Proof. by intros k _. Qed.

Lemma same_but_trans keys p1 p2 p3 :
  same_but keys p1 p2 -> same_but keys p2 p3 -> same_but keys p1 p3.
Proof. intros H12 H23 k Hk. by rewrite H23, H12. Qed.

Lemma Forall2_same_but_refl keys (l : list obj) : Forall2 (same_but keys) l l.
Proof. induction l; constructor; [apply same_but_refl | done]. Qed.

Lemma Forall2_same_but_trans keys (l1 l2 l3 : list obj) :
  Forall2 (same_but keys) l1 l2 -> Forall2 (same_but keys) l2 l3 ->
  Forall2 (same_but keys) l1 l3.
Proof.
  intros H12. revert l3. induction H12 as [|p1 p2 l1 l2 Hp H12 IH]; intros l3 H23.
  - by inversion H23.
  - inversion H23 as [|? p3 ? l3' Hp' H23']; subst. constructor; [|by apply IH].
    by eapply same_but_trans.
Qed.

Lemma same_but_merged_promotion p s t :
  same_but scheduler_fields p (merged p (promotion s) t).
Proof.
  intros k Hk. rewrite lookup_merged.
  2: { intros ->. apply Hk. by apply (bool_decide_unpack _). }
  unfold promotion. rewrite !lookup_insert_ne, lookup_empty; [done|..];
    intros <-; apply Hk; by apply (bool_decide_unpack _).
Qed.

Lemma publish_found_at p w k :
  findIndex (fun q => strict_eq (get "id" q) (get "id" p)) (InMemoryDatabase.posts (db w))
    = Some k ->
  Scheduler.publish p w =
    Return tt
      (World
         (InMemoryDatabase.set_posts
            (fun l => <[k := merged (l !!! k) (promotion (toISOString (clock (reads w))))
                               (clock (S (reads w)))]> l) (db w))
         (4 + reads w)
         (console w ++
            [Published (get "id" p) (get "slug" p) (toISOString (clock (3 + reads w)))])).
Proof.
  intros Hfind. unfold Scheduler.publish.
  unfold bind at 1. simpl.
  unfold bind at 1. unfold db_updatePost. simpl. unfold bind at 1.
  rewrite (updatePost_found _ _ _ k) by exact Hfind. simpl.
  reflexivity.
Qed.

(** One call of [publish], found or not, thrown or not. *)
Lemma publish_frame p w :
  Forall2 (same_but scheduler_fields)
    (InMemoryDatabase.posts (db w))
    (InMemoryDatabase.posts (db (final (Scheduler.publish p w)))) /\
  InMemoryDatabase.categories (db (final (Scheduler.publish p w))) =
    InMemoryDatabase.categories (db w).
Proof.
  destruct (findIndex (fun q => strict_eq (get "id" q) (get "id" p))
              (InMemoryDatabase.posts (db w))) as [k|] eqn:Hfind.
  - apply findIndex_Some in Hfind as Hq. destruct Hq as (q & Hq & _).
    rewrite (publish_found_at p w k Hfind). simpl.
    split; [|done]. rewrite (list_lookup_total_correct _ _ _ Hq).
    rewrite <- (list_insert_id _ _ _ Hq) at 1.
    apply Forall2_insert; [apply Forall2_same_but_refl|].
    apply same_but_merged_promotion.
  - rewrite publish_missing by done. simpl. split; [apply Forall2_same_but_refl | done].
Qed.

Lemma scan_frame n i now w :
  Forall2 (same_but scheduler_fields)
    (InMemoryDatabase.posts (db w))
    (InMemoryDatabase.posts (db (final (Scheduler.scan n i now w)))) /\
  InMemoryDatabase.categories (db (final (Scheduler.scan n i now w))) =
    InMemoryDatabase.categories (db w).
Proof.
  revert i w. induction n as [|n IH]; intros i w.
  - simpl. split; [apply Forall2_same_but_refl | done].
  - simpl. unfold bind at 1 3, this. simpl.
    change (Scheduler.posts_array (db w)) with (InMemoryDatabase.posts (db w)).
    destruct (InMemoryDatabase.posts (db w) !! i) as [p|];
      [|split; [apply Forall2_same_but_refl | done]].
    unfold bind. destruct (Scheduler.due now p).
    + destruct (publish_frame p w) as [Hposts Hcat].
      destruct (Scheduler.publish p w) as [[] w1|e w1]; simpl in *; [|done].
      destruct (IH (S i) w1) as [Hposts' Hcat'].
      split; [by eapply Forall2_same_but_trans | by rewrite Hcat'].
    + simpl. apply IH.
Qed.

Lemma tick_frame w :
  exists w', Scheduler.tick w = Return tt w' /\
    Forall2 (same_but scheduler_fields)
      (InMemoryDatabase.posts (db w)) (InMemoryDatabase.posts (db w')) /\
    InMemoryDatabase.categories (db w') = InMemoryDatabase.categories (db w).
Proof.
  rewrite tick_unfold.
  pose proof (scan_frame (List.length (Scheduler.posts_array (db w))) 0 (clock (reads w))
                (World (db w) (S (reads w)) (console w))) as Hframe.
  destruct (Scheduler.scan _ _ _ _) as [[] w'|e w']; simpl in Hframe; eauto.
Qed.

(** X1.  The scheduler, however often it fires and whatever the store holds
    (identifiers that repeat or that [updatePost] cannot find included),
    never adds, removes or moves a post, writes no property of a post other
    than status, publishedDate, scheduledPublishDate and updatedAt, leaves
    the categories alone and lets no exception out. *)
Theorem ticks_write_four_fields (n : nat) w :
  exists w',
    Scheduler.ticks n w = Return tt w' /\
    Forall2 (same_but scheduler_fields)
      (InMemoryDatabase.posts (db w)) (InMemoryDatabase.posts (db w')) /\
    InMemoryDatabase.categories (db w') = InMemoryDatabase.categories (db w).
Proof.
  revert w. induction n as [|n IH]; intros w.
  - exists w. split; [done|]. split; [apply Forall2_same_but_refl | done].
  - destruct (tick_frame w) as (w1 & Htick & Hposts & Hcat).
    destruct (IH w1) as (w' & Hticks & Hposts' & Hcat').
    exists w'. split.
    { simpl. unfold bind. by rewrite Htick. }
    split; [by eapply Forall2_same_but_trans | by rewrite Hcat'].
Qed.

Lemma scan_idle n i now w :
  (forall p, p ∈ InMemoryDatabase.posts (db w) -> Scheduler.due now p = false) ->
  Scheduler.scan n i now w = Return tt w.
Proof.
  intros Hidle. revert i. induction n as [|n IH]; intros i; [done|].
  simpl. unfold bind at 1, this. simpl.
  change (Scheduler.posts_array (db w)) with (InMemoryDatabase.posts (db w)).
  destruct (InMemoryDatabase.posts (db w) !! i) as [p|] eqn:Hp; [|done].
  unfold bind. rewrite Hidle by by eapply list_elem_of_lookup_2. simpl. apply IH.
Qed.

(** X2.  A tick that finds no post due writes nothing: neither a post, nor the
    snapshot, nor the console.  It reads the clock once. *)
Theorem idle_tick_writes_nothing w :
  (forall p, p ∈ InMemoryDatabase.posts (db w) ->
     Scheduler.due (clock (reads w)) p = false) ->
  Scheduler.tick w = Return tt (World (db w) (S (reads w)) (console w)).
Proof. intros Hidle. rewrite tick_unfold. by rewrite scan_idle. Qed.

End scheduler_frame.

Section scheduler_frame_examples.
Local Existing Instance Reference.runtime.

Lemma idle_tick_writes_nothing_witness :
  Scheduler.due (clock 0)
    (Examples.scheduled (VStr "2") "future" "2030-01-01T00:00:00.000Z") = false /\
  Scheduler.tick one_future_draft = Return tt (World (db one_future_draft) 1 []).
Proof.
  split; [reflexivity|].
  apply (idle_tick_writes_nothing one_future_draft).
  intros p Hp. apply list_elem_of_singleton in Hp as ->. reflexivity.
Defined.

End scheduler_frame_examples.

(** ** Posts in memory: create, look up, delete, list *)

Section in_memory_posts.
Context `{Runtime}.
Implicit Types (w : world InMemoryDatabase.t) (p post : obj) (id : jsval).

Lemma findIndex_app_None {A} (f : A -> bool) (l : list A) x :
  findIndex f l = None -> f x = true ->
  findIndex f (l ++ [x]) = Some (List.length l).
Proof.
  induction l as [|y l IH]; simpl; intros Hnone Hx; [by rewrite Hx|].
  destruct (f y); [done|]. destruct (findIndex f l); [done|]. by rewrite IH.
Qed.

(** The shape of the record [createPost] builds and stores. *)
Lemma createPost_shape w post :
  exists published created updated w',
    InMemoryDatabase.createPost post w =
      Return
        (<["commentCount" := VNum 0]> (<["updatedAt" := updated]> (
         <["createdAt" := created]> (<["publishedDate" := published]> (
         <["featured" := VBool (truthy (get "featured" post))]> (
         <["status" := VStr (if strict_eq (get "status" post) (VStr "published")
                             then "published" else "draft")]> (
         spread {["id" := VStr (pretty (clock (reads w)))]} post)))))))
        w' /\
    InMemoryDatabase.posts (db w') =
      (InMemoryDatabase.posts (db w) ++
       [<["commentCount" := VNum 0]> (<["updatedAt" := updated]> (
        <["createdAt" := created]> (<["publishedDate" := published]> (
        <["featured" := VBool (truthy (get "featured" post))]> (
        <["status" := VStr (if strict_eq (get "status" post) (VStr "published")
                            then "published" else "draft")]> (
        spread {["id" := VStr (pretty (clock (reads w)))]} post))))))])%list /\
    InMemoryDatabase.categories (db w') = InMemoryDatabase.categories (db w) /\
    published =
      (if strict_eq (get "status" post) (VStr "published") &&
          negb (truthy (get "publishedDate" post))
       then VStr (toISOString (clock (S (reads w))))
       else get "publishedDate" post).
Proof.
  unfold InMemoryDatabase.createPost.
  destruct (strict_eq (get "status" post) (VStr "published")); simpl;
    [destruct (truthy (get "publishedDate" post)); simpl|];
    eexists _, _, _, _; (split; [reflexivity|]); simpl; done.
Qed.

(** A value that is not [===] to itself, NaN or an object, is [===] to
    nothing. *)
Lemma strict_eq_irrefl v id : strict_eq id id = false -> strict_eq v id = false.
Proof.
  intros Hid. destruct (strict_eq v id) eqn:Hv; [|done].
  pose proof (strict_eq_eq _ _ Hv) as ->. congruence.
Qed.

Lemma findIndex_app_Some {A} (f : A -> bool) (l : list A) x i :
  findIndex f l = Some i -> findIndex f (l ++ [x]) = Some i.
Proof.
  revert i. induction l as [|y l IH]; intros i; simpl; [done|].
  destruct (f y); [done|]. destruct (findIndex f l) as [j|]; [|done].
  by rewrite (IH j).
Qed.

Lemma findIndex_app_none {A} (f : A -> bool) (l : list A) x :
  findIndex f l = None -> f x = false -> findIndex f (l ++ [x]) = None.
Proof.
  induction l as [|y l IH]; simpl; intros Hnone Hx; [by rewrite Hx|].
  destruct (f y); [done|]. destruct (findIndex f l); [done|]. by rewrite IH.
Qed.


(** X4.  [deletePost] with an identifier no stored post has fails with
    [Post not found] and changes nothing.  With a stored one it removes the
    first post that has it, gives that post back and leaves the others and
    the categories as they were; when the identifiers are distinct, no post
    with the identifier is left. *)
Theorem in_memory_deletePost w id index p :
  (no_post_with_id (InMemoryDatabase.posts (db w)) id ->
   InMemoryDatabase.deletePost id w = Throw NotFound w) /\
  (first_with_id (InMemoryDatabase.posts (db w)) id index p ->
   exists w',
     InMemoryDatabase.deletePost id w = Return p w' /\
     InMemoryDatabase.posts (db w') = delete index (InMemoryDatabase.posts (db w)) /\
     InMemoryDatabase.categories (db w') = InMemoryDatabase.categories (db w) /\
     (distinct (ids (InMemoryDatabase.posts (db w))) = true ->
      no_post_with_id (InMemoryDatabase.posts (db w')) id /\
      InMemoryDatabase.getPostById id w' = Return None w')).
Proof.
  split.
  - intros Hno. unfold InMemoryDatabase.deletePost, bind, this. simpl.
    by rewrite no_post_with_id_findIndex.
  - intros Hfirst. pose proof Hfirst as (Hp & Hid & _).
    pose proof (first_with_id_findIndex _ _ _ _ Hfirst) as Hfind.
    eexists. split.
    { unfold InMemoryDatabase.deletePost, bind, this. simpl. rewrite Hfind. simpl.
      unfold bind, ret. simpl. by rewrite (list_lookup_total_correct _ _ _ Hp). }
    simpl. split; [done|]. split; [done|]. intros Hd.
    assert (Hno : no_post_with_id (delete index (InMemoryDatabase.posts (db w))) id).
    { intros q Hq. apply list_elem_of_lookup in Hq as (j & Hj).
      destruct (strict_eq (get "id" q) id) eqn:Heq; [|done]. exfalso.
      set (j' := if decide (j < index)%nat then j else S j).
      assert (Hj' : InMemoryDatabase.posts (db w) !! j' = Some q).
      { unfold j'. destruct (decide (j < index)%nat).
        - by rewrite list_lookup_delete_lt in Hj.
        - by rewrite list_lookup_delete_ge in Hj by lia. }
      assert (j' <> index) by (unfold j'; destruct (decide (j < index)%nat); lia).
      pose proof (findIndex_id _ _ _ Hd Hj') as Hfind'.
      apply strict_eq_eq in Heq. rewrite Heq in Hfind'. congruence. }
    split; [exact Hno|].
    unfold InMemoryDatabase.getPostById, bind, this, ret, find. simpl.
    by rewrite (no_post_with_id_findIndex _ _ Hno).
Qed.

(** [getPosts] returns the published posts that pass the filters, each as
    often as it is stored and no other: a category filter that is truthy
    keeps the posts of that category, a featured filter other than
    [undefined] the posts whose flag is that very value. *)
Lemma in_memory_getPosts_exact w filters :
  exists l,
    InMemoryDatabase.getPosts filters w = Return l w /\
    Permutation l
      (List.filter
         (fun p =>
            strict_eq (get "status" p) (VStr "published") &&
            (if truthy (get "category" filters)
             then strict_eq (get "category" p) (get "category" filters) else true) &&
            (if negb (strict_eq (get "featured" filters) VUndef)
             then strict_eq (get "featured" p) (get "featured" filters) else true))
         (InMemoryDatabase.posts (db w))).
Proof.
  eexists. split; [reflexivity|]. rewrite array_sort_perm.
  assert (Hff : forall (f g : obj -> bool) (l : list obj),
            List.filter g (List.filter f l) = List.filter (fun p => f p && g p) l).
  { intros f g l. induction l as [|x l IH]; simpl; [done|].
    destruct (f x); simpl; [destruct (g x)|]; by rewrite IH. }
  destruct (negb _), (truthy _); rewrite ?Hff; apply Permutation_refl';
    generalize (InMemoryDatabase.posts (db w)); intros l;
    (induction l as [|x l IH]; [done|]); simpl; rewrite IH;
    repeat match goal with
           | |- context [strict_eq ?a ?b] => destruct (strict_eq a b)
           end; done.
Qed.

End in_memory_posts.

Section in_memory_posts_examples.
Local Existing Instance Reference.runtime.


Lemma in_memory_deletePost_witness :
  first_with_id (InMemoryDatabase.posts (db Examples.three_drafts)) (VStr "1") 0
    (Examples.scheduled (VStr "1") "past" "2020-01-01T00:00:00.000Z") /\
  exists w',
    InMemoryDatabase.deletePost (VStr "1") Examples.three_drafts =
      Return (Examples.scheduled (VStr "1") "past" "2020-01-01T00:00:00.000Z") w' /\
    InMemoryDatabase.getPostById (VStr "1") w' = Return None w'.
Proof.
  assert (Hfirst : first_with_id (InMemoryDatabase.posts (db Examples.three_drafts))
                     (VStr "1") 0
                     (Examples.scheduled (VStr "1") "past" "2020-01-01T00:00:00.000Z")).
  { split; [reflexivity|]. split; [reflexivity|]. intros j q Hj. lia. }
  split; [exact Hfirst|].
  destruct (proj2 (in_memory_deletePost Examples.three_drafts (VStr "1") 0 _) Hfirst)
    as (w' & Hdel & _ & _ & Hgone).
  exists w'. split; [exact Hdel|]. by apply Hgone.
Defined.

End in_memory_posts_examples.

(** ** Categories in memory: rename and delete *)

Section in_memory_categories.
Context `{Runtime}.
Implicit Types (w : world InMemoryDatabase.t) (p : obj).

Lemma recategorised_insert from to p :
  recategorised from to p
    (<["category" := if strict_eq (get "category" p) from then to else get "category" p]> p).
Proof.
  split; [|apply get_insert].
  intros k Hk. rewrite lookup_insert_ne; [done|].
  intros <-. apply Hk. by left.
Qed.

Lemma Forall2_recategorised from to (l : list obj) :
  Forall2 (recategorised from to) l
    (map (fun p => <["category" := if strict_eq (get "category" p) from then to
                                   else get "category" p]> p) l).
Proof. induction l; constructor; [apply recategorised_insert | done]. Qed.

(** After the categories and the posts were rewritten, the old name is
    listed only if it is the fallback. *)
Lemma old_name_unlisted w (o : string) (to : jsval) (l : list jsval) posts0 :
  InMemoryDatabase.getCategories w = Return l w ->
  o ∉ InMemoryDatabase.categories (db w) ->
  Forall2 (recategorised (VStr o) to) posts0 (InMemoryDatabase.posts (db w)) ->
  (to <> VStr o \/ o = "Algemeen") ->
  VStr o ∈ l <-> o = "Algemeen".
Proof.
  intros Hl Hcat Hposts Hto.
  destruct (in_memory_getCategories_union w) as (l' & Hl' & Hin).
  assert (l' = l) as -> by congruence.
  rewrite Hin. split; [|intros ->; by right; right].
  intros [(c & Hc & [= ->])|[(p' & Hp' & Hcp & _)|[= ->]]]; [done| |done].
  destruct Hto as [Hto|Hto]; [|done]. exfalso.
  apply list_elem_of_lookup in Hp' as (j & Hj).
  destruct (Forall2_lookup_r _ _ _ _ _ Hposts Hj) as (p & _ & _ & Hcat').
  rewrite <- Hcp in Hcat'.
  destruct (strict_eq (get "category" p) (VStr o)) eqn:Heq; [done|].
  rewrite <- Hcat' in Heq. simpl in Heq. by rewrite String.eqb_refl in Heq.
Qed.

(** X5.  [renameCategory], both names non-empty once trimmed and different:
    the old name leaves the registered list, where the new one takes its
    place; every post of the old category moves to the new one and no post
    changes otherwise; the list returned names the old category only if it
    is the fallback, which is always listed. *)
Theorem in_memory_renameCategory w oldName newName o n :
  trims_to oldName o -> trims_to newName n -> o <> "" -> n <> "" -> o <> n ->
  exists l w',
    InMemoryDatabase.renameCategory oldName newName w = Return l w' /\
    InMemoryDatabase.categories (db w') =
      map (fun c => if String.eqb c o then n else c) (InMemoryDatabase.categories (db w)) /\
    (o ∉ InMemoryDatabase.categories (db w')) /\
    Forall2 (recategorised (VStr o) (VStr n))
      (InMemoryDatabase.posts (db w)) (InMemoryDatabase.posts (db w')) /\
    (VStr o ∈ l <-> o = "Algemeen").
Proof.
  intros Ho Hn Hoe Hne Hon.
  unfold InMemoryDatabase.renameCategory.
  unfold bind at 1. rewrite (trimmed_trims_to _ _ _ Ho).
  unfold bind at 1. rewrite (trimmed_trims_to _ _ _ Hn).
  apply String.eqb_neq in Hoe as Hoe', Hne as Hne', Hon as Hon'.
  rewrite Hoe', Hne', Hon'. simpl.
  destruct (in_memory_getCategories_union
              (World
                 (InMemoryDatabase.set_posts
                    (map (fun p => <["category" := if strict_eq (get "category" p) (VStr o)
                                                   then VStr n else get "category" p]> p))
                    (InMemoryDatabase.set_categories
                       (map (fun c => if String.eqb c o then n else c)) (db w)))
                 (S (reads w)) (console w))) as (l & Hl & _).
  exists l. eexists. split.
  { unfold bind, assign, InMemoryDatabase.saveToFile, new_Date_toISOString, Date_now, bind, ret.
    simpl. exact Hl. }
  simpl. split; [done|].
  assert (Hgone : o ∉ map (fun c => if String.eqb c o then n else c)
                        (InMemoryDatabase.categories (db w))).
  { intros Hin. apply list_elem_of_fmap in Hin as (c & Hc & _).
    destruct (String.eqb c o) eqn:Hco; [congruence|]. apply String.eqb_neq in Hco. congruence. }
  split; [exact Hgone|]. split; [apply Forall2_recategorised|].
  eapply (old_name_unlisted _ o (VStr n)); [exact Hl | exact Hgone | apply Forall2_recategorised |].
  left. congruence.
Qed.

(** After the posts of the category [o] were given [to], a post is in
    that category only if [to] is the category itself and a post was in
    it. *)
Lemma recategorised_still (o : string) (to : jsval) (posts0 posts1 : list obj) :
  Forall2 (recategorised (VStr o) to) posts0 posts1 ->
  (exists p', p' ∈ posts1 /\ get "category" p' = VStr o) <->
  (to = VStr o /\ exists p, p ∈ posts0 /\ get "category" p = VStr o).
Proof.
  intros Hposts. split.
  - intros (p' & Hp' & Hcp).
    apply list_elem_of_lookup in Hp' as (j & Hj).
    destruct (Forall2_lookup_r _ _ _ _ _ Hposts Hj) as (p & Hp & _ & Hcat).
    rewrite Hcp in Hcat.
    destruct (strict_eq (get "category" p) (VStr o)) eqn:Heq.
    + split; [done|]. exists p. split; [by eapply list_elem_of_lookup_2|].
      by apply strict_eq_eq in Heq.
    + rewrite <- Hcat in Heq. simpl in Heq. by rewrite String.eqb_refl in Heq.
  - intros (-> & p & Hp & Hcp).
    apply list_elem_of_lookup in Hp as (j & Hj).
    destruct (Forall2_lookup_l _ _ _ _ _ Hposts Hj) as (p' & Hp' & _ & Hcat).
    exists p'. split; [by eapply list_elem_of_lookup_2|].
    rewrite Hcat, Hcp. simpl. by rewrite String.eqb_refl.
Qed.

(** X6.  [deleteCategory], the name non-empty once trimmed: the name leaves
    the registered list, the other names stay; every post of that category
    is given the target (Algemeen when none is passed), which need not be a
    registered category, and no post changes otherwise.  The list returned
    still names the deleted category in two cases only: when it is the
    fallback, which is always listed, and when the target is that very name
    and a post was in the category, so that the posts keep it. *)
Theorem in_memory_deleteCategory w name reassignTo n :
  trims_to name n -> n <> "" ->
  exists l w',
    InMemoryDatabase.deleteCategory name reassignTo w = Return l w' /\
    InMemoryDatabase.categories (db w') =
      List.filter (fun c => negb (String.eqb c n)) (InMemoryDatabase.categories (db w)) /\
    (n ∉ InMemoryDatabase.categories (db w')) /\
    Forall2 (recategorised (VStr n) (reassign_target reassignTo))
      (InMemoryDatabase.posts (db w)) (InMemoryDatabase.posts (db w')) /\
    (VStr n ∈ l <->
     n = "Algemeen" \/
     (reassign_target reassignTo = VStr n /\
      exists p, p ∈ InMemoryDatabase.posts (db w) /\ get "category" p = VStr n)).
Proof.
  intros Hn Hne.
  unfold InMemoryDatabase.deleteCategory. fold (reassign_target reassignTo).
  unfold bind at 1. rewrite (trimmed_trims_to _ _ _ Hn).
  apply String.eqb_neq in Hne as Hne'. rewrite Hne'.
  destruct (in_memory_getCategories_union
              (World
                 (InMemoryDatabase.set_posts
                    (map (fun p => <["category" := if strict_eq (get "category" p) (VStr n)
                                                   then reassign_target reassignTo
                                                   else get "category" p]> p))
                    (InMemoryDatabase.set_categories
                       (List.filter (fun c => negb (String.eqb c n))) (db w)))
                 (S (reads w)) (console w))) as (l & Hl & Hin).
  exists l. eexists. split.
  { unfold bind, assign, InMemoryDatabase.saveToFile, new_Date_toISOString, Date_now, bind, ret.
    simpl. exact Hl. }
  simpl. split; [done|].
  assert (Hgone : n ∉ List.filter (fun c => negb (String.eqb c n))
                        (InMemoryDatabase.categories (db w))).
  { intros [_ Hin']%elem_of_List_filter. by rewrite String.eqb_refl in Hin'. }
  split; [exact Hgone|]. split; [apply Forall2_recategorised|].
  rewrite Hin. cbn [db InMemoryDatabase.set_posts InMemoryDatabase.set_categories
                    InMemoryDatabase.posts InMemoryDatabase.categories].
  rewrite <- (recategorised_still n (reassign_target reassignTo)
                (InMemoryDatabase.posts (db w)) _ (Forall2_recategorised _ _ _)).
  split.
  - intros [(c & Hc & [= ->])|[(p' & Hp' & Hcp & _)|[= ->]]]; [done| |by left].
    right. by exists p'.
  - intros [->|(p' & Hp' & Hcp)]; [by right; right|].
    right; left. exists p'. split; [done|]. split; [done|].
    simpl. by apply negb_true_iff, String.eqb_neq.
Qed.

End in_memory_categories.

Section in_memory_categories_examples.
Local Existing Instance Reference.runtime.

Lemma in_memory_renameCategory_witness :
  trims_to (VStr " Horeca ") "Horeca" /\ trims_to (VStr "Cafes") "Cafes" /\
  exists l w',
    InMemoryDatabase.renameCategory (VStr " Horeca ") (VStr "Cafes") Examples.seeded
      = Return l w' /\
    "Horeca" ∉ InMemoryDatabase.categories (db w').
Proof.
  assert (Ho : trims_to (VStr " Horeca ") "Horeca") by (eexists; split; reflexivity).
  assert (Hn : trims_to (VStr "Cafes") "Cafes") by (eexists; split; reflexivity).
  split; [exact Ho|]. split; [exact Hn|].
  destruct (in_memory_renameCategory Examples.seeded _ _ _ _ Ho Hn)
    as (l & w' & Hr & _ & Hgone & _); [done..|].
  exists l, w'. by split.
Defined.

Lemma in_memory_deleteCategory_witness :
  trims_to (VStr "Algemeen") "Algemeen" /\ trims_to (VStr "Horeca") "Horeca" /\
  (exists l w',
     InMemoryDatabase.deleteCategory (VStr "Algemeen") VUndef Examples.seeded = Return l w' /\
     ("Algemeen" ∉ InMemoryDatabase.categories (db w')) /\
     VStr "Algemeen" ∈ l) /\
  (exists l w',
     InMemoryDatabase.deleteCategory (VStr "Horeca") VUndef Examples.seeded = Return l w' /\
     ("Horeca" ∉ InMemoryDatabase.categories (db w')) /\
     VStr "Horeca" ∉ l) /\
  (exists l w',
     InMemoryDatabase.deleteCategory (VStr "Horeca") (VStr "Horeca") Examples.seeded =
       Return l w' /\
     ("Horeca" ∉ InMemoryDatabase.categories (db w')) /\
     VStr "Horeca" ∈ l).
Proof.
  assert (Hn : trims_to (VStr "Algemeen") "Algemeen") by (eexists; split; reflexivity).
  assert (Hh : trims_to (VStr "Horeca") "Horeca") by (eexists; split; reflexivity).
  split; [exact Hn|]. split; [exact Hh|]. split; [|split].
  - destruct (in_memory_deleteCategory Examples.seeded (VStr "Algemeen") VUndef _ Hn)
      as (l & w' & Hd & _ & Hgone & _ & Hlisted); [done|].
    exists l, w'. split; [exact Hd|]. split; [exact Hgone|]. apply Hlisted. by left.
  - destruct (in_memory_deleteCategory Examples.seeded (VStr "Horeca") VUndef _ Hh)
      as (l & w' & Hd & _ & Hgone & _ & Hlisted); [done|].
    exists l, w'. split; [exact Hd|]. split; [exact Hgone|].
    intros Hin. apply Hlisted in Hin as [?|[? _]]; discriminate.
  - destruct (in_memory_deleteCategory Examples.seeded (VStr "Horeca") (VStr "Horeca") _ Hh)
      as (l & w' & Hd & _ & Hgone & _ & Hlisted); [done|].
    exists l, w'. split; [exact Hd|]. split; [exact Hgone|]. apply Hlisted. right.
    split; [reflexivity|].
    exists (InMemoryDatabase.sample_post "3" "Horeca Quiz Avonden: Meer Gasten, Meer Inkomsten"
      "horeca-quiz-meer-bezoekers"
      "Hoe horecaondernemers quiz avonden gebruiken om meer gasten te trekken."
      "# Horeca Quiz Avonden

Quiz avonden zijn..."
      "Mark van Dijk" "Horeca" ["horeca"; "marketing"]
      "2025-11-03" "7 min" false).
    split; [|vm_compute; reflexivity].
    do 2 right. left.
Defined.

End in_memory_categories_examples.

(** ** Posts under PostgreSQL: create and delete *)

Section postgresql_posts.
Context `{Runtime} `{Engine}.
Implicit Types (w : world PostgreSQLDatabase.t) (post row : obj) (id : jsval).

Lemma unique_app_last column rows row r :
  PostgreSQLDatabase.unique column (rows ++ [row]) = true -> r ∈ rows ->
  PostgreSQLDatabase.sql_eq (get column r) (get column row) = false.
Proof.
  intros Hu (i & Hi)%list_elem_of_lookup.
  rewrite sql_eq_sym.
  apply (unique_lookup column (rows ++ [row]) i (List.length rows) r row Hu).
  - by apply lookup_app_l_Some.
  - by rewrite list_lookup_middle.
  - by apply lookup_lt_Some in Hi.
Qed.

Lemma filter_none {A} (f : A -> bool) (l : list A) :
  (forall x, x ∈ l -> f x = false) -> List.filter f l = [].
Proof.
  induction l as [|x l IH]; simpl; intros Hall; [done|].
  rewrite (Hall x) by left. apply IH. intros y Hy. apply Hall. by right.
Qed.

(** What [createPost] sends: the identifier is the caller's when it is
    truthy and else the time in decimal, the date of publication the
    caller's or, for a published post without one, the time as ISO text;
    an INSERT follows when the engine reads that date as a TIMESTAMP, and
    then the SELECT. *)
Lemma postgresql_createPost_sends w post :
  let id := if truthy (get "id" post) then get "id" post
            else VStr (pretty (clock (reads w))) in
  let k := if truthy (get "id" post) then reads w else S (reads w) in
  let status := if strict_eq (get "status" post) (VStr "published")
                then "published" else "draft" in
  let fresh := strict_eq (get "status" post) (VStr "published") &&
               negb (truthy (get "publishedDate" post)) in
  let published := if fresh then VStr (toISOString (clock k))
                   else get "publishedDate" post in
  let k' := if fresh then S k else k in
  PostgreSQLDatabase.createPost post w =
    match PostgreSQLDatabase.timestamp published with
    | None => Throw (DatabaseError "invalid input syntax") (World (db w) k' (console w))
    | Some published_date =>
        (PostgreSQLDatabase.query_posts (fun rows =>
           (rows ++ [PostgreSQLDatabase.inserted post id published_date status
                       (VDate (Some (NOW (clock k'))))])%list);;
         PostgreSQLDatabase.getPostById id)
          (World (db w) (S k') (console w))
    end.
Proof.
  cbv zeta. unfold PostgreSQLDatabase.createPost. destruct w as [d n c].
  destruct (truthy (get "id" post));
    (destruct (strict_eq (get "status" post) (VStr "published"));
       cbn [String.eqb Ascii.eqb Bool.eqb andb];
       [destruct (truthy (get "publishedDate" post)); cbn [negb]|]);
    unfold bind, new_Date_toISOString, new_Date, Date_now, bind, ret, throw;
    cbn [db reads console];
    (destruct (PostgreSQLDatabase.timestamp _); reflexivity).
Qed.

(** X7.  Under PostgreSQL [createPost] inserts one row or nothing.  The
    identifier is the caller's when it is truthy and else the time of the
    call in decimal; the date of publication is the caller's or, for a
    published post that has none, the time of the call as ISO text.  When
    the engine cannot read that date as a TIMESTAMP the call fails; it
    fails too when the table with the new row would break a constraint (an
    id or a slug that a row already has, a missing title or slug, a text
    too long for its column); in both cases the tables are as they were.
    Otherwise the table has one more row, at its end: the texts of the
    title and the slug as given, the status published only when that was
    asked for in so many words and else draft, a boolean for featured, a
    comment count of 0, the date as the engine read it; the constraints
    hold again, and the post returned is that row as [getPostById] reads
    it. *)
Theorem postgresql_createPost_all_or_nothing w post :
  let id := if truthy (get "id" post) then get "id" post
            else VStr (pretty (clock (reads w))) in
  let k := if truthy (get "id" post) then reads w else S (reads w) in
  let status := if strict_eq (get "status" post) (VStr "published")
                then "published" else "draft" in
  let fresh := strict_eq (get "status" post) (VStr "published") &&
               negb (truthy (get "publishedDate" post)) in
  let published := if fresh then VStr (toISOString (clock k))
                   else get "publishedDate" post in
  let now := VDate (Some (NOW (clock (if fresh then S k else k)))) in
  (PostgreSQLDatabase.timestamp published = None ->
   exists w',
     PostgreSQLDatabase.createPost post w = Throw (DatabaseError "invalid input syntax") w' /\
     db w' = db w) /\
  (forall published_date,
     PostgreSQLDatabase.timestamp published = Some published_date ->
     let row := PostgreSQLDatabase.inserted post id published_date status now in
     (get "id" row = PostgreSQLDatabase.param id /\
      get "title" row = PostgreSQLDatabase.param (get "title" post) /\
      get "slug" row = PostgreSQLDatabase.param (get "slug" post) /\
      get "status" row = VStr status /\
      get "featured" row = VBool (truthy (get "featured" post)) /\
      get "comment_count" row = VNum 0 /\
      get "published_date" row = published_date /\
      get "created_at" row = now /\ get "updated_at" row = now) /\
     (PostgreSQLDatabase.posts_ok (PostgreSQLDatabase.posts_table (db w) ++ [row]) = false ->
      exists w',
        PostgreSQLDatabase.createPost post w =
          Throw (DatabaseError "violates a constraint of posts") w' /\
        db w' = db w) /\
     (PostgreSQLDatabase.posts_ok (PostgreSQLDatabase.posts_table (db w) ++ [row]) = true ->
      exists w',
        PostgreSQLDatabase.createPost post w =
          Return (Some (PostgreSQLDatabase.mapPostFromDb row)) w' /\
        PostgreSQLDatabase.posts_table (db w') =
          (PostgreSQLDatabase.posts_table (db w) ++ [row])%list /\
        PostgreSQLDatabase.categories_table (db w') =
          PostgreSQLDatabase.categories_table (db w) /\
        constrained (db w') /\
        PostgreSQLDatabase.getPostById id w' =
          Return (Some (PostgreSQLDatabase.mapPostFromDb row)) w')).
Proof.
  intros id k status fresh published now.
  assert (Hsends :
    PostgreSQLDatabase.createPost post w =
      match PostgreSQLDatabase.timestamp published with
      | None => Throw (DatabaseError "invalid input syntax")
                  (World (db w) (if fresh then S k else k) (console w))
      | Some published_date =>
          (PostgreSQLDatabase.query_posts (fun rows =>
             (rows ++ [PostgreSQLDatabase.inserted post id published_date status now])%list);;
           PostgreSQLDatabase.getPostById id)
            (World (db w) (S (if fresh then S k else k)) (console w))
      end) by apply postgresql_createPost_sends.
  split.
  { intros Hnone. rewrite Hnone in Hsends. eexists. split; [exact Hsends | reflexivity]. }
  intros published_date Hsome row. rewrite Hsome in Hsends. fold row in Hsends.
  assert (Hid : get "id" row = PostgreSQLDatabase.param id) by apply get_insert.
  split.
  { split; [exact Hid|]. unfold row, PostgreSQLDatabase.inserted.
    split. { rewrite !get_insert_ne by done. apply get_insert. }
    split. { rewrite !get_insert_ne by done. apply get_insert. }
    split. { rewrite !get_insert_ne by done. apply get_insert. }
    split. { rewrite !get_insert_ne by done. apply get_insert. }
    split. { rewrite !get_insert_ne by done. apply get_insert. }
    split. { rewrite !get_insert_ne by done. apply get_insert. }
    split. { rewrite !get_insert_ne by done. apply get_insert. }
    rewrite !get_insert_ne by done. apply get_insert. }
  split.
  { intros Hok. rewrite Hsends. unfold bind at 1.
    rewrite query_posts_fail by exact Hok. eexists. split; reflexivity. }
  intros Hok. rewrite Hsends. unfold bind at 1. rewrite query_posts_ok by exact Hok.
  assert (Hlook : head (List.filter
                    (fun r => PostgreSQLDatabase.sql_eq (get "id" r) (PostgreSQLDatabase.param id))
                    (PostgreSQLDatabase.posts_table (db w) ++ [row])) = Some row).
  { pose proof Hok as Hok'. unfold PostgreSQLDatabase.posts_ok in Hok'.
    apply andb_true_iff in Hok' as [[Hrows Huniq]%andb_true_iff _].
    assert (Hrow : PostgreSQLDatabase.row_ok row = true).
    { rewrite forallb_app in Hrows. apply andb_true_iff in Hrows as [_ Hrow].
      cbn [forallb] in Hrow. by rewrite andb_true_r in Hrow. }
    destruct (row_ok_id _ Hrow) as (s & Hs).
    rewrite List.filter_app, filter_none.
    - cbn [List.filter app]. rewrite <- Hid, Hs.
      unfold PostgreSQLDatabase.sql_eq. cbn [PostgreSQLDatabase.is_null negb andb strict_eq].
      by rewrite String.eqb_refl.
    - intros r Hr. rewrite <- Hid.
      by apply (unique_app_last "id" (PostgreSQLDatabase.posts_table (db w)) row r). }
  eexists. split.
  { unfold PostgreSQLDatabase.getPostById, bind, this, ret.
    cbn [db PostgreSQLDatabase.set_posts_table PostgreSQLDatabase.posts_table].
    rewrite Hlook. reflexivity. }
  cbn [db PostgreSQLDatabase.set_posts_table PostgreSQLDatabase.posts_table
       PostgreSQLDatabase.categories_table].
  split; [reflexivity|]. split; [reflexivity|]. split; [exact Hok|].
  unfold PostgreSQLDatabase.getPostById, bind, this, ret.
  cbn [db PostgreSQLDatabase.set_posts_table PostgreSQLDatabase.posts_table].
  rewrite Hlook. reflexivity.
Qed.

(** X8.  Under PostgreSQL [deletePost] with an identifier that no row has fails
    with [Post not found] and changes nothing.  With one that a row has it
    returns that post as it was read, removes every row with the identifier
    and no other row, and leaves the categories alone; the post can then no
    longer be read. *)
Theorem postgresql_deletePost w id :
  match head (List.filter
                (fun r => PostgreSQLDatabase.sql_eq (get "id" r) (PostgreSQLDatabase.param id))
                (PostgreSQLDatabase.posts_table (db w))) with
  | None => PostgreSQLDatabase.deletePost id w = Throw NotFound w
  | Some row =>
      exists w',
        PostgreSQLDatabase.deletePost id w =
          Return (PostgreSQLDatabase.mapPostFromDb row) w' /\
        PostgreSQLDatabase.categories_table (db w') =
          PostgreSQLDatabase.categories_table (db w) /\
        (forall r, r ∈ PostgreSQLDatabase.posts_table (db w') <->
           r ∈ PostgreSQLDatabase.posts_table (db w) /\
           PostgreSQLDatabase.sql_eq (get "id" r) (PostgreSQLDatabase.param id) = false) /\
        PostgreSQLDatabase.getPostById id w' = Return None w' /\
        PostgreSQLDatabase.deletePost id w' = Throw NotFound w'
  end.
Proof.
  unfold PostgreSQLDatabase.deletePost, PostgreSQLDatabase.getPostById, bind, this, ret.
  destruct (head _) as [row|] eqn:Hhead; simpl; [|done].
  eexists. split; [reflexivity|]. simpl. split; [done|].
  set (rows := PostgreSQLDatabase.posts_table (db w)).
  assert (Hnone : List.filter
            (fun r => PostgreSQLDatabase.sql_eq (get "id" r) (PostgreSQLDatabase.param id))
            (List.filter
               (fun r => negb (PostgreSQLDatabase.sql_eq (get "id" r)
                                 (PostgreSQLDatabase.param id))) rows) = []).
  { apply filter_none. intros r [_ Hr]%elem_of_List_filter. by apply negb_true_iff. }
  split.
  { intros r. rewrite elem_of_List_filter. by rewrite negb_true_iff. }
  by rewrite Hnone.
Qed.

End postgresql_posts.

Section postgresql_posts_examples.
Local Existing Instance Reference.runtime.
Local Existing Instance Reference.engine.

Lemma postgresql_createPost_all_or_nothing_witness :
  (exists w',
     PostgreSQLDatabase.createPost Examples.quiz_draft Examples.empty_postgresql =
       Return (Some (PostgreSQLDatabase.mapPostFromDb Examples.quiz_row)) w' /\
     PostgreSQLDatabase.posts_table (db w') = [Examples.quiz_row]) /\
  (exists w',
     PostgreSQLDatabase.createPost Examples.same_slug_as_draft Examples.postgresql_one_post =
       Throw (DatabaseError "violates a constraint of posts") w' /\
     db w' = db Examples.postgresql_one_post) /\
  (exists w',
     PostgreSQLDatabase.createPost (<["publishedDate" := VStr "next week"]> Examples.quiz_draft)
       Examples.empty_postgresql = Throw (DatabaseError "invalid input syntax") w' /\
     db w' = db Examples.empty_postgresql).
Proof.
  split; [|split].
  - destruct (postgresql_createPost_all_or_nothing Examples.empty_postgresql
                Examples.quiz_draft) as [_ Hsome].
    destruct (Hsome VNull ltac:(vm_compute; reflexivity)) as (_ & _ & Hok).
    destruct (Hok ltac:(vm_compute; reflexivity)) as (w' & Hcreate & Htable & _).
    exists w'. split.
    + rewrite Hcreate. do 3 f_equal.
    + rewrite Htable. apply (bool_decide_unpack _). vm_compute. reflexivity.
  - destruct (postgresql_createPost_all_or_nothing Examples.postgresql_one_post
                Examples.same_slug_as_draft) as [_ Hsome].
    destruct (Hsome VNull ltac:(vm_compute; reflexivity)) as (_ & Hfail & _).
    apply Hfail. vm_compute. reflexivity.
  - destruct (postgresql_createPost_all_or_nothing Examples.empty_postgresql
                (<["publishedDate" := VStr "next week"]> Examples.quiz_draft)) as [Hnone _].
    apply Hnone. vm_compute. reflexivity.
Defined.

End postgresql_posts_examples.

(** ** Categories under PostgreSQL *)

Section counting.
Context {A B : Type}.

Lemma sum_of_add (a b : A -> nat) (l : list A) :
  sum_of (fun x => (a x + b x)%nat) l = (sum_of a l + sum_of b l)%nat.
Proof. induction l as [|x l IH]; simpl; [done|]. rewrite IH. lia. Qed.

Lemma sum_of_perm (k : A -> nat) (l l' : list A) :
  Permutation l l' -> sum_of k l = sum_of k l'.
Proof. induction 1; simpl; lia. Qed.

Lemma sum_of_ext (k k' : A -> nat) (l : list A) :
  (forall x, x ∈ l -> k x = k' x) -> sum_of k l = sum_of k' l.
Proof.
  induction l as [|x l IH]; simpl; intros Hk; [done|].
  rewrite (Hk x) by left. rewrite IH; [done|]. intros y Hy. apply Hk. by right.
Qed.

Lemma sum_of_indicator (f : A -> bool) (l : list A) :
  sum_of (fun x => if f x then 1 else 0)%nat l = List.length (List.filter f l).
Proof. induction l as [|x l IH]; simpl; [done|]. rewrite IH. by destruct (f x). Qed.

(** Counting the pairs of a name and a post by names, or by posts. *)
Lemma sum_of_exchange (f : A -> B -> bool) (names : list A) (posts : list B) :
  sum_of (fun n => List.length (List.filter (f n) posts)) names =
  sum_of (fun p => List.length (List.filter (fun n => f n p) names)) posts.
Proof.
  induction posts as [|p posts IH]; simpl.
  - induction names as [|n names IHn]; simpl; [done|]. by rewrite IHn.
  - rewrite <- IH, <- sum_of_indicator, <- sum_of_add.
    apply sum_of_ext. intros n _. by destruct (f n p).
Qed.

End counting.

(** A list without repetition holds a value of it once. *)
Lemma filter_eq_NoDup (names : list jsval) (c : jsval) :
  NoDup names -> c ∈ names -> strict_eq c c = true ->
  List.length (List.filter (fun name => strict_eq c name) names) = 1%nat.
Proof.
  intros Hnd Hin Hc. induction Hnd as [|x l Hx Hnd IH]; [by apply elem_of_nil in Hin|].
  cbn [List.filter]. destruct (strict_eq c x) eqn:Hcx.
  - apply strict_eq_eq in Hcx as <-. rewrite filter_none; [done|].
    intros y Hy. destruct (strict_eq c y) eqn:Hcy; [|done].
    apply strict_eq_eq in Hcy as <-. done.
  - apply IH. apply elem_of_cons in Hin as [->|?]; [congruence | done].
Qed.

Section postgresql_categories.
Context `{Runtime} `{Engine}.
Implicit Types (w : world PostgreSQLDatabase.t) (o n : string).

Lemma includes_field_elem_of (l : list string) (c : string) :
  PostgreSQLDatabase.includes_field l c = true <-> c ∈ l.
Proof.
  unfold PostgreSQLDatabase.includes_field. rewrite existsb_exists. split.
  - intros (x & Hx & ->%String.eqb_eq). by apply list_elem_of_In.
  - intros Hc. exists c. split; [by apply list_elem_of_In | apply String.eqb_refl].
Qed.

Lemma categories_ok_spec (l : list string) :
  PostgreSQLMore.categories_ok l = true <->
  NoDup l /\ forall c, c ∈ l -> (String.length c <= 255)%nat.
Proof.
  unfold PostgreSQLMore.categories_ok.
  rewrite andb_true_iff, bool_decide_eq_true, forallb_forall.
  split; intros [Hnd Hlen]; (split; [done|]); intros c Hc.
  - apply Nat.leb_le, Hlen. by apply list_elem_of_In.
  - apply Nat.leb_le, Hlen. by apply list_elem_of_In.
Qed.

Lemma query_categories_ok f w :
  PostgreSQLMore.categories_ok (f (PostgreSQLDatabase.categories_table (db w))) = true ->
  PostgreSQLMore.query_categories f w =
    Return tt (World (PostgreSQLDatabase.set_categories_table f (db w)) (reads w) (console w)).
Proof. intros Hok. unfold PostgreSQLMore.query_categories, bind, this. simpl. by rewrite Hok. Qed.

Lemma query_categories_fail f w :
  PostgreSQLMore.categories_ok (f (PostgreSQLDatabase.categories_table (db w))) = false ->
  PostgreSQLMore.query_categories f w =
    Throw (DatabaseError "violates a constraint of categories") w.
Proof. intros Hok. unfold PostgreSQLMore.query_categories, bind, this. simpl. by rewrite Hok. Qed.

(** [UPDATE posts SET category = to WHERE category = from] on a table
    within its constraints, [to] fitting the column: the constraints hold
    on the result. *)
Lemma posts_ok_recategorise (to from : jsval) rows :
  PostgreSQLDatabase.posts_ok rows = true ->
  PostgreSQLDatabase.fits 255 (PostgreSQLDatabase.param to) = true ->
  PostgreSQLDatabase.posts_ok
    (map (fun r => if PostgreSQLDatabase.sql_eq (get "category" r) from
                   then <["category" := PostgreSQLDatabase.param to]> r else r) rows) = true.
Proof.
  intros Hok Hfits.
  apply (posts_ok_map (fun r => <["category" := PostgreSQLDatabase.param to]> r)); [..|done].
  - intros r. by rewrite get_insert_ne.
  - intros r. by rewrite get_insert_ne.
  - intros r. apply row_ok_insert. unfold PostgreSQLDatabase.column_ok.
    change (PostgreSQLDatabase.column_type PostgreSQLDatabase.columns "category")
      with (Some (PostgreSQLDatabase.VARCHAR 255, false)).
    cbv beta iota. cbn [negb orb]. rewrite andb_true_r. by apply fits_has_type.
Qed.

Lemma update_posts_category_ok (to from : jsval) w :
  constrained (db w) ->
  PostgreSQLDatabase.fits 255 (PostgreSQLDatabase.param to) = true ->
  exists rows,
    PostgreSQLMore.update_posts_category to from w =
      Return tt (World (PostgreSQLDatabase.Build rows
                          (PostgreSQLDatabase.categories_table (db w)))
                   (reads w) (console w)) /\
    PostgreSQLDatabase.posts_ok rows = true /\
    rows = map (fun r => if PostgreSQLDatabase.sql_eq (get "category" r)
                              (PostgreSQLDatabase.param from)
                         then <["category" := PostgreSQLDatabase.param to]> r else r)
             (PostgreSQLDatabase.posts_table (db w)).
Proof.
  intros Hok Hfits. eexists. split; [|split; [|reflexivity]].
  - unfold PostgreSQLMore.update_posts_category.
    rewrite query_posts_ok; [done|]. by apply posts_ok_recategorise.
  - by apply posts_ok_recategorise.
Qed.

Lemma Forall2_recategorised_sql (from : string) (to : jsval) (l : list obj) :
  Forall2 (recategorised (VStr from) to) l
    (map (fun r => if PostgreSQLDatabase.sql_eq (get "category" r)
                        (PostgreSQLDatabase.param (VStr from))
                   then <["category" := to]> r else r) l).
Proof.
  induction l as [|r l IH]; constructor; [|done].
  assert (Heq : PostgreSQLDatabase.sql_eq (get "category" r) (VStr from) =
                strict_eq (get "category" r) (VStr from)).
  { unfold PostgreSQLDatabase.sql_eq. by destruct (get "category" r). }
  change (PostgreSQLDatabase.param (VStr from)) with (VStr from). rewrite Heq.
  unfold recategorised.
  destruct (strict_eq (get "category" r) (VStr from)) eqn:Hs; split.
  - intros k Hk. rewrite lookup_insert_ne; [done|]. intros <-. apply Hk. by left.
  - apply get_insert.
  - done.
  - done.
Qed.

(** The names after [UPDATE categories SET name = n WHERE name = o]. *)
Lemma renamed_NoDup o n (l : list string) :
  NoDup l -> o ∉ l \/ n ∉ l ->
  NoDup (map (fun c => if String.eqb c o then n else c) l).
Proof.
  intros Hnd [Ho|Hn].
  - rewrite (map_ext_in _ id); [by rewrite map_id|].
    intros c Hc%list_elem_of_In. destruct (String.eqb c o) eqn:Hco; [|done].
    apply String.eqb_eq in Hco. congruence.
  - apply (NoDup_fmap_2_strong _ l); [|done].
    intros x y Hx Hy. destruct (String.eqb x o) eqn:Hxo, (String.eqb y o) eqn:Hyo.
    + apply String.eqb_eq in Hxo, Hyo. congruence.
    + intros <-. done.
    + intros ->. done.
    + done.
Qed.

Lemma renamed_gone o n (l : list string) :
  o <> n -> o ∉ map (fun c => if String.eqb c o then n else c) l.
Proof.
  intros Hon Hin. apply list_elem_of_fmap in Hin as (c & Hc & _).
  destruct (String.eqb c o) eqn:Hco; [congruence|]. apply String.eqb_neq in Hco. congruence.
Qed.

(** [addCategory] under PostgreSQL fails whatever the tables hold, or adds
    the trimmed name to the table unless it is there. *)
Lemma postgresql_addCategory_cases name :
  (exists e, forall w, PostgreSQLDatabase.addCategory name w = Throw e w) \/
  (exists n, forall w,
     PostgreSQLDatabase.addCategory name w =
       PostgreSQLDatabase.getCategories
         (World (PostgreSQLDatabase.set_categories_table
                   (fun l => if PostgreSQLDatabase.includes_field l n then l
                             else (l ++ [n])%list) (db w))
            (reads w) (console w))).
Proof.
  unfold PostgreSQLDatabase.addCategory, InMemoryDatabase.trimmed.
  destruct (if truthy name then name else VStr "") as [| | | | |s| |];
    try (left; eexists; intros w; reflexivity).
  destruct (String.eqb (trim s) "") eqn:Hblank.
  { left. eexists. intros w. unfold bind, ret. by rewrite Hblank. }
  destruct (negb (Nat.leb (String.length (trim s)) 255)) eqn:Hlong.
  { left. eexists. intros w. unfold bind, ret, this. rewrite Hblank, Hlong. reflexivity. }
  right. exists (trim s). intros [d k c]. unfold bind, ret, this. rewrite Hblank, Hlong.
  cbn [db reads console]. unfold PostgreSQLDatabase.set_categories_table.
  destruct (PostgreSQLDatabase.includes_field _ _); [by destruct d | done].
Qed.

(** X9.  Under PostgreSQL, registering a name twice is registering it once: the
    second call changes neither table and answers as the first did.  And
    [addCategory] never makes the table of categories hold a name twice. *)
Theorem postgresql_addCategory_idempotent w name :
  db (final (PostgreSQLDatabase.addCategory name
               (final (PostgreSQLDatabase.addCategory name w)))) =
    db (final (PostgreSQLDatabase.addCategory name w)) /\
  value (PostgreSQLDatabase.addCategory name
           (final (PostgreSQLDatabase.addCategory name w))) =
    value (PostgreSQLDatabase.addCategory name w) /\
  (NoDup (PostgreSQLDatabase.categories_table (db w)) ->
   NoDup (PostgreSQLDatabase.categories_table
            (db (final (PostgreSQLDatabase.addCategory name w))))).
Proof.
  destruct (postgresql_addCategory_cases name) as [(e & He)|(n & Hn)].
  - rewrite !He. done.
  - rewrite !Hn.
    unfold PostgreSQLDatabase.getCategories, bind, this, ret,
      PostgreSQLDatabase.set_categories_table.
    cbn [final value db reads console
         PostgreSQLDatabase.categories_table PostgreSQLDatabase.posts_table].
    destruct (PostgreSQLDatabase.includes_field
                (PostgreSQLDatabase.categories_table (db w)) n) eqn:Hin.
    + rewrite Hin. done.
    + assert (Hnow : PostgreSQLDatabase.includes_field
                       (PostgreSQLDatabase.categories_table (db w) ++ [n]) n = true).
      { apply includes_field_elem_of, elem_of_app. right. by left. }
      rewrite Hnow. split; [done|]. split; [done|].
      intros Hnd. apply NoDup_app. split; [done|]. split; [|apply NoDup_singleton].
      intros x Hx ->%list_elem_of_singleton.
      apply includes_field_elem_of in Hx. congruence.
Qed.

(** Past the checks of the names, [renameCategory] is its transaction and
    the list read after it. *)
Lemma renameCategory_unfold w oldName newName o n :
  trims_to oldName o -> trims_to newName n -> o <> "" -> n <> "" -> o <> n ->
  PostgreSQLMore.renameCategory oldName newName w =
    (PostgreSQLMore.transaction
       (PostgreSQLMore.query_categories (map (fun c => if String.eqb c o then n else c));;
        PostgreSQLMore.update_posts_category (VStr n) (VStr o));;
     PostgreSQLDatabase.getCategories) w.
Proof.
  intros Ho Hn Hoe Hne Hon.
  unfold PostgreSQLMore.renameCategory.
  unfold bind at 1. rewrite (trimmed_trims_to _ _ _ Ho).
  unfold bind at 1. rewrite (trimmed_trims_to _ _ _ Hn).
  apply String.eqb_neq in Hoe as Hoe', Hne as Hne', Hon as Hon'.
  by rewrite Hoe', Hne', Hon'.
Qed.

(** X10.  [renameCategory] under PostgreSQL, the tables within their constraints,
    both names non-empty once trimmed and different, the new one fitting its
    column.  When both names are registered the call fails on the UNIQUE
    constraint and changes nothing (in memory the same call goes through and
    merges the two).  Otherwise it goes through: the old name is replaced in
    the table, the posts of the old category move to the new one, no post
    changes otherwise, the constraints still hold, and the list returned
    names the old category only if it is the fallback. *)
Theorem postgresql_renameCategory w oldName newName o n :
  schema_holds (db w) ->
  trims_to oldName o -> trims_to newName n -> o <> "" -> n <> "" -> o <> n ->
  (String.length n <= 255)%nat ->
  (o ∈ PostgreSQLDatabase.categories_table (db w) ->
   n ∈ PostgreSQLDatabase.categories_table (db w) ->
   PostgreSQLMore.renameCategory oldName newName w =
     Throw (DatabaseError "violates a constraint of categories") w) /\
  ((o ∉ PostgreSQLDatabase.categories_table (db w) \/
    n ∉ PostgreSQLDatabase.categories_table (db w)) ->
   exists l w',
     PostgreSQLMore.renameCategory oldName newName w = Return l w' /\
     schema_holds (db w') /\
     PostgreSQLDatabase.categories_table (db w') =
       map (fun c => if String.eqb c o then n else c)
         (PostgreSQLDatabase.categories_table (db w)) /\
     Forall2 (recategorised (VStr o) (VStr n))
       (PostgreSQLDatabase.posts_table (db w)) (PostgreSQLDatabase.posts_table (db w')) /\
     (o ∈ l <-> o = "Algemeen")).
Proof.
  intros [Hposts Hcats] Ho Hn Hoe Hne Hon Hlen.
  apply categories_ok_spec in Hcats as [Hnd Hlens].
  rewrite (renameCategory_unfold w _ _ _ _ Ho Hn Hoe Hne Hon).
  apply String.eqb_neq in Hon as Hon'.
  split.
  - intros Hoin Hnin. unfold bind at 1, PostgreSQLMore.transaction, bind at 1.
    rewrite query_categories_fail; [by destruct w|].
    apply not_true_iff_false. intros [Hnd' _]%categories_ok_spec.
    apply list_elem_of_lookup in Hoin as (i & Hi), Hnin as (j & Hj).
    assert (i = j) as ->.
    { apply (NoDup_lookup _ i j n Hnd'); rewrite list_lookup_fmap.
      - rewrite Hi. simpl. by rewrite String.eqb_refl.
      - rewrite Hj. simpl. by rewrite String.eqb_sym, Hon'. }
    congruence.
  - intros Hfree.
    assert (Hok : PostgreSQLMore.categories_ok
                    (map (fun c => if String.eqb c o then n else c)
                       (PostgreSQLDatabase.categories_table (db w))) = true).
    { apply categories_ok_spec. split; [by apply renamed_NoDup|].
      intros c (c0 & -> & Hc0)%list_elem_of_fmap.
      destruct (String.eqb c0 o); [done | by apply Hlens]. }
    set (w1 := World (PostgreSQLDatabase.set_categories_table
                        (map (fun c => if String.eqb c o then n else c)) (db w))
                 (reads w) (console w)).
    destruct (update_posts_category_ok (VStr n) (VStr o) w1) as (rows & Hupd & Hrows & Hmap).
    { exact Hposts. }
    { simpl. by apply Nat.leb_le. }
    destruct (postgresql_getCategories_table
                (World (PostgreSQLDatabase.Build rows
                          (PostgreSQLDatabase.categories_table (db w1)))
                   (reads w1) (console w1))) as (l & Hl & Hin).
    exists l. eexists. split.
    { unfold bind at 1, PostgreSQLMore.transaction, bind at 1.
      rewrite (query_categories_ok _ _ Hok). fold w1. rewrite Hupd. exact Hl. }
    simpl. split; [split; [exact Hrows | exact Hok]|]. split; [done|].
    split. { rewrite Hmap. apply Forall2_recategorised_sql. }
    rewrite Hin. simpl. split; [|by right].
    intros [Hin'|?]; [|done]. by apply renamed_gone in Hin'.
Qed.

(** X11.  [deleteCategory] under PostgreSQL, the tables within their constraints,
    the name non-empty once trimmed, the target fitting the column: the call
    goes through; the name leaves the table, the other names stay; the posts
    of that category are given the target (Algemeen when none is passed),
    registered or not, and no post changes otherwise; the constraints still
    hold, and the list returned names the deleted category only if it is the
    fallback. *)
Theorem postgresql_deleteCategory w name reassignTo n :
  schema_holds (db w) ->
  trims_to name n -> n <> "" ->
  PostgreSQLDatabase.fits 255 (PostgreSQLDatabase.param (reassign_target reassignTo)) = true ->
  exists l w',
    PostgreSQLMore.deleteCategory name reassignTo w = Return l w' /\
    schema_holds (db w') /\
    PostgreSQLDatabase.categories_table (db w') =
      List.filter (fun c => negb (String.eqb c n))
        (PostgreSQLDatabase.categories_table (db w)) /\
    Forall2 (recategorised (VStr n) (PostgreSQLDatabase.param (reassign_target reassignTo)))
      (PostgreSQLDatabase.posts_table (db w)) (PostgreSQLDatabase.posts_table (db w')) /\
    (n ∈ l <-> n = "Algemeen").
Proof.
  intros [Hposts Hcats] Hn Hne Hfits.
  apply categories_ok_spec in Hcats as [Hnd Hlens].
  unfold PostgreSQLMore.deleteCategory. fold (reassign_target reassignTo).
  unfold bind at 1. rewrite (trimmed_trims_to _ _ _ Hn).
  apply String.eqb_neq in Hne as Hne'. rewrite Hne'.
  destruct (update_posts_category_ok (reassign_target reassignTo) (VStr n) w)
    as (rows & Hupd & Hrows & Hmap); [done..|].
  set (w1 := World (PostgreSQLDatabase.Build rows
                      (PostgreSQLDatabase.categories_table (db w))) (reads w) (console w))
    in Hupd.
  assert (Hok : PostgreSQLMore.categories_ok
                  (List.filter (fun c => negb (String.eqb c n))
                     (PostgreSQLDatabase.categories_table (db w1))) = true).
  { apply categories_ok_spec. split.
    - apply NoDup_ListNoDup, List.NoDup_filter, NoDup_ListNoDup, Hnd.
    - intros c [Hc _]%elem_of_List_filter. by apply Hlens. }
  destruct (postgresql_getCategories_table
              (World (PostgreSQLDatabase.set_categories_table
                        (List.filter (fun c => negb (String.eqb c n))) (db w1))
                 (reads w1) (console w1))) as (l & Hl & Hin).
  exists l. eexists. split.
  { unfold bind at 1, PostgreSQLMore.transaction, bind at 1.
    rewrite Hupd. rewrite (query_categories_ok _ _ Hok). exact Hl. }
  simpl. split; [split; [exact Hrows | exact Hok]|]. split; [done|].
  split. { rewrite Hmap. apply Forall2_recategorised_sql. }
  rewrite Hin. simpl. split; [|by right].
  intros [[_ Hin']%elem_of_List_filter|?]; [|done]. by rewrite String.eqb_refl in Hin'.
Qed.

End postgresql_categories.

(** ** The statistics of the categories *)

Lemma total_map_stat {A} (name : A -> jsval) (k : A -> nat) (l : list A) :
  total (map (fun x => InMemoryMore.stat (name x) (k x)) l) = Z.of_nat (sum_of k l).
Proof.
  induction l as [|x l IH]; simpl; [done|].
  unfold InMemoryMore.stat at 1. rewrite get_insert_ne by done. rewrite get_insert.
  rewrite IH. lia.
Qed.

Lemma names_map_stat {A} (name : A -> jsval) (k : A -> nat) (l : list A) :
  map (get "name") (map (fun x => InMemoryMore.stat (name x) (k x)) l) = map name l.
Proof.
  induction l as [|x l IH]; simpl; [done|].
  unfold InMemoryMore.stat at 1. by rewrite get_insert, IH.
Qed.

Lemma sum_of_ones {A} (l : list A) : sum_of (fun _ => 1%nat) l = List.length l.
Proof. induction l as [|x l IH]; simpl; [done|]. by rewrite IH. Qed.

(** A table without repetition holds a name once, if at all. *)
Lemma filter_eqb_NoDup (g : string -> bool) (l : list string) (c : string) :
  NoDup l -> (forall x, g x = String.eqb x c) ->
  List.length (List.filter g l) =
  if PostgreSQLDatabase.includes_field l c then 1%nat else 0%nat.
Proof.
  intros Hnd Hg. unfold PostgreSQLDatabase.includes_field.
  induction Hnd as [|x l Hx Hnd IH]; [done|].
  cbn [List.filter existsb]. rewrite Hg, (String.eqb_sym c x).
  destruct (String.eqb x c) eqn:Hxc; cbn [orb]; [|exact IH].
  apply String.eqb_eq in Hxc as ->. rewrite filter_none; [done|].
  intros y Hy. rewrite Hg. apply String.eqb_neq. intros ->. done.
Qed.

Section statistics.
Context `{Runtime} `{Engine}.

(** X12.  In memory, when every post has a non-empty string for category, the
    statistics list the names [getCategories] lists, in that order and each
    once, and every post is counted under exactly one of them: the counts
    add up to the number of posts. *)
Theorem in_memory_getCategoryStats_total (w : world InMemoryDatabase.t) :
  (forall p, p ∈ InMemoryDatabase.posts (db w) -> categorised p) ->
  exists names l,
    InMemoryDatabase.getCategories w = Return names w /\
    InMemoryMore.getCategoryStats w = Return l w /\
    map (get "name") l = names /\
    NoDup names /\
    total l = Z.of_nat (List.length (InMemoryDatabase.posts (db w))).
Proof.
  intros Hcat.
  destruct (in_memory_getCategories_NoDup w) as (names & Hnames & Hnd).
  { intros p Hp _. destruct (Hcat p Hp) as (c & -> & _). simpl. apply String.eqb_refl. }
  destruct (in_memory_getCategories_union w) as (names' & Hnames' & Hin).
  assert (names' = names) as -> by congruence.
  eexists names, _. split; [exact Hnames|]. split.
  { unfold InMemoryMore.getCategoryStats. unfold bind at 1. rewrite Hnames. reflexivity. }
  split; [by rewrite (names_map_stat (fun name => name)), map_id|]. split; [exact Hnd|].
  rewrite (total_map_stat (fun name => name)). f_equal.
  rewrite (sum_of_exchange (fun name p => strict_eq (get "category" p) name)).
  rewrite <- sum_of_ones. apply sum_of_ext. intros p Hp.
  destruct (Hcat p Hp) as (c & Hc & Hne).
  apply filter_eq_NoDup; [exact Hnd| |].
  - apply Hin. right. left. exists p. split; [done|]. split; [done|].
    rewrite Hc. simpl. apply negb_true_iff. by apply String.eqb_neq.
  - rewrite Hc. simpl. apply String.eqb_refl.
Qed.

(** X13.  Under PostgreSQL, the tables within their constraints, the statistics
    list the registered names and no other, in the order of the engine: the
    fallback is there only if it is registered, though [getCategories]
    always lists it.  A post is counted when its category is registered:
    the counts add up to the number of such posts, and the posts of another
    category are in no count. *)
Theorem postgresql_getCategoryStats_total (w : world PostgreSQLDatabase.t) :
  schema_holds (db w) ->
  exists l,
    PostgreSQLMore.getCategoryStats w = Return l w /\
    map (get "name") l =
      map VStr (order_by_name (PostgreSQLDatabase.categories_table (db w))) /\
    total l =
      Z.of_nat (List.length
                  (List.filter
                     (fun p => registered (PostgreSQLDatabase.categories_table (db w))
                                 (get "category" p))
                     (PostgreSQLDatabase.posts_table (db w)))).
Proof.
  intros [Hposts [Hnd Hlens]%categories_ok_spec].
  set (tbl := PostgreSQLDatabase.categories_table (db w)) in *.
  assert (Hgroups : PostgreSQLMore.groups tbl = tbl).
  { clear Hlens. induction Hnd as [|c l Hc Hnd IH]; simpl; [done|]. rewrite IH. f_equal.
    clear IH Hnd. induction l as [|x l IH]; simpl; [done|].
    apply not_elem_of_cons in Hc as [Hxc Hc].
    destruct (String.eqb x c) eqn:Heq; simpl.
    - apply String.eqb_eq in Heq. congruence.
    - by rewrite IH. }
  eexists. split.
  { unfold PostgreSQLMore.getCategoryStats, bind, this, ret. fold tbl. rewrite Hgroups.
    reflexivity. }
  split; [apply names_map_stat|].
  rewrite total_map_stat. f_equal.
  rewrite (sum_of_perm _ _ tbl) by apply order_by_name_perm.
  rewrite <- sum_of_indicator.
  transitivity
    (sum_of (fun c => List.length
                        (List.filter
                           (fun p => PostgreSQLDatabase.sql_eq (VStr c) (get "category" p))
                           (PostgreSQLDatabase.posts_table (db w)))) tbl).
  - apply sum_of_ext. intros c Hc. unfold PostgreSQLMore.joined_count. fold tbl.
    rewrite (filter_eqb_NoDup _ tbl c Hnd) by (intros x; apply String.eqb_sym).
    apply includes_field_elem_of in Hc. rewrite Hc, Nat.mul_1_l. f_equal.
    apply filter_ext_in. intros p Hp.
    unfold constrained, PostgreSQLDatabase.posts_ok in Hposts.
    apply andb_true_iff in Hposts as [[Hrows _]%andb_true_iff _].
    eapply forallb_forall in Hrows; [|exact Hp].
    destruct (row_ok_id _ Hrows) as (s & Hid). by rewrite Hid, andb_true_r.
  - rewrite (sum_of_exchange
               (fun c p => PostgreSQLDatabase.sql_eq (VStr c) (get "category" p))).
    apply sum_of_ext. intros p _.
    destruct (get "category" p) as [| | | | |c0| |] eqn:Hc;
      try (rewrite filter_none; [done | intros x _; done]).
    apply (filter_eqb_NoDup _ tbl c0 Hnd). intros x. done.
Qed.

End statistics.

Section category_examples.
Local Existing Instance Reference.runtime.
Local Existing Instance Reference.engine.

Lemma postgresql_one_post_schema : schema_holds (db Examples.postgresql_one_post).
Proof. split; vm_compute; reflexivity. Qed.

Lemma seeded_categorised p :
  p ∈ InMemoryDatabase.posts (db Examples.seeded) -> categorised p.
Proof.
  change (InMemoryDatabase.posts (db Examples.seeded)) with InMemoryDatabase.sample_posts.
  unfold InMemoryDatabase.sample_posts. intros Hp.
  repeat (apply elem_of_cons in Hp as [->|Hp]); [| | |by apply elem_of_nil in Hp].
  - exists "Tips & Tricks". split; [vm_compute; reflexivity | done].
  - exists "Case Studies". split; [vm_compute; reflexivity | done].
  - exists "Horeca". split; [vm_compute; reflexivity | done].
Qed.

Lemma in_memory_getCategoryStats_total_witness :
  (forall p, p ∈ InMemoryDatabase.posts (db Examples.seeded) -> categorised p) /\
  exists l,
    InMemoryMore.getCategoryStats Examples.seeded = Return l Examples.seeded /\
    total l = 3.
Proof.
  split; [exact seeded_categorised|].
  destruct (in_memory_getCategoryStats_total Examples.seeded seeded_categorised)
    as (names & l & _ & Hl & _ & _ & Htotal).
  exists l. by split.
Defined.

Lemma postgresql_getCategoryStats_total_witness :
  schema_holds (db Examples.postgresql_one_post) /\
  exists l,
    PostgreSQLMore.getCategoryStats Examples.postgresql_one_post =
      Return l Examples.postgresql_one_post /\
    total l = 0.
Proof.
  split; [exact postgresql_one_post_schema|].
  destruct (postgresql_getCategoryStats_total Examples.postgresql_one_post
              postgresql_one_post_schema) as (l & Hl & _ & Htotal).
  exists l. split; [exact Hl|]. rewrite Htotal. vm_compute. reflexivity.
Defined.

Lemma postgresql_renameCategory_witness :
  schema_holds (db Examples.postgresql_one_post) /\
  trims_to (VStr " Horeca ") "Horeca" /\ trims_to (VStr "Cafes") "Cafes" /\
  exists l w',
    PostgreSQLMore.renameCategory (VStr " Horeca ") (VStr "Cafes")
      Examples.postgresql_one_post = Return l w' /\
    "Horeca" ∉ l.
Proof.
  assert (Ho : trims_to (VStr " Horeca ") "Horeca") by (eexists; split; reflexivity).
  assert (Hn : trims_to (VStr "Cafes") "Cafes") by (eexists; split; reflexivity).
  split; [exact postgresql_one_post_schema|]. split; [exact Ho|]. split; [exact Hn|].
  destruct (postgresql_renameCategory Examples.postgresql_one_post _ _ _ _
              postgresql_one_post_schema Ho Hn) as [_ Hok]; [done | done | done | simpl; lia |].
  destruct Hok as (l & w' & Hr & _ & _ & _ & Hlisted).
  { right. apply (bool_decide_unpack _). vm_compute. reflexivity. }
  exists l, w'. split; [exact Hr|]. intros Hin. by apply Hlisted in Hin.
Defined.

Lemma postgresql_deleteCategory_witness :
  schema_holds (db Examples.postgresql_one_post) /\
  trims_to (VStr "Horeca") "Horeca" /\
  exists l w',
    PostgreSQLMore.deleteCategory (VStr "Horeca") VUndef
      Examples.postgresql_one_post = Return l w' /\
    PostgreSQLDatabase.categories_table (db w') = [] /\
    "Horeca" ∉ l.
Proof.
  assert (Hn : trims_to (VStr "Horeca") "Horeca") by (eexists; split; reflexivity).
  split; [exact postgresql_one_post_schema|]. split; [exact Hn|].
  destruct (postgresql_deleteCategory Examples.postgresql_one_post (VStr "Horeca") VUndef _
              postgresql_one_post_schema Hn) as (l & w' & Hd & _ & Hcat & _ & Hlisted);
    [done | reflexivity |].
  exists l, w'. split; [exact Hd|]. split.
  - rewrite Hcat. vm_compute. reflexivity.
  - intros Hin. by apply Hlisted in Hin.
Defined.

End category_examples.

(** ** The admin routes *)

Section authentication.

Lemma remove_first_prefix (pattern s : string) :
  AdminRoutes.remove_first pattern (pattern +:+ s) = s.
Proof.
  assert (Hprefix : String.prefix pattern (pattern +:+ s) = true).
  { induction pattern as [|c pattern IH]; simpl; [by destruct s|].
    destruct (ascii_dec c c); [exact IH | done]. }
  assert (Hdrop : AdminRoutes.drop_chars (String.length pattern) (pattern +:+ s) = s).
  { clear Hprefix. induction pattern as [|c pattern IH]; simpl; [done | exact IH]. }
  assert (Hunfold : forall s',
            AdminRoutes.remove_first pattern s' =
            if String.prefix pattern s'
            then AdminRoutes.drop_chars (String.length pattern) s'
            else match s' with
                 | EmptyString => EmptyString
                 | String c s'' => String c (AdminRoutes.remove_first pattern s'')
                 end) by (by intros []).
  by rewrite Hunfold, Hprefix, Hdrop.
Qed.

Lemma remove_first_absent (pattern s : string) :
  includes s pattern = false -> AdminRoutes.remove_first pattern s = s.
Proof.
  induction s as [|c s IH]; simpl.
  - intros Hp%orb_false_iff. destruct Hp as [-> _]. done.
  - intros [Hp Hs]%orb_false_iff. rewrite Hp. by rewrite IH.
Qed.

Lemma adminSecret_not_empty envSecret : AdminRoutes.adminSecret envSecret <> "".
Proof.
  unfold AdminRoutes.adminSecret. destruct envSecret as [s|]; [|done].
  destruct (String.eqb s "") eqn:Hs; [done|]. by apply String.eqb_neq.
Qed.

(** X14.  Who passes the middleware.  Without the header nobody.  The header
    made of [Bearer ], with its space, and the secret always passes, the
    secret being the one of the environment or, when that is unset or
    empty, the key written in the source.  The bare secret passes as well
    when [Bearer ] does not occur in it.  And whoever passes sent a header
    that is the secret once the first [Bearer ] is taken out of it. *)
Theorem authenticateAdmin_accepts envSecret :
  AdminRoutes.authenticateAdmin None envSecret = AdminRoutes.Unauthorized /\
  AdminRoutes.authenticateAdmin
    (Some ("Bearer " +:+ AdminRoutes.adminSecret envSecret)) envSecret = AdminRoutes.Next /\
  (includes (AdminRoutes.adminSecret envSecret) "Bearer " = false ->
   AdminRoutes.authenticateAdmin (Some (AdminRoutes.adminSecret envSecret)) envSecret
     = AdminRoutes.Next) /\
  (forall authHeader,
     AdminRoutes.authenticateAdmin authHeader envSecret = AdminRoutes.Next ->
     exists header,
       authHeader = Some header /\
       AdminRoutes.remove_first "Bearer " header = AdminRoutes.adminSecret envSecret) /\
  AdminRoutes.adminSecret None = AdminRoutes.defaultSecret /\
  AdminRoutes.adminSecret (Some "") = AdminRoutes.defaultSecret.
Proof.
  pose proof (adminSecret_not_empty envSecret) as Hne.
  apply String.eqb_neq in Hne as Hne'.
  split; [done|]. split; [|split; [|split; [|done]]].
  - unfold AdminRoutes.authenticateAdmin.
    change (String.eqb ("Bearer " +:+ AdminRoutes.adminSecret envSecret) "") with false.
    cbv iota. rewrite remove_first_prefix. by rewrite Hne', String.eqb_refl.
  - intros Habsent. unfold AdminRoutes.authenticateAdmin.
    rewrite Hne', (remove_first_absent _ _ Habsent). by rewrite Hne', String.eqb_refl.
  - intros [header|]; [|done]. unfold AdminRoutes.authenticateAdmin.
    destruct (String.eqb header ""); [done|].
    destruct (String.eqb (AdminRoutes.remove_first "Bearer " header) ""); [done|].
    destruct (String.eqb (AdminRoutes.remove_first "Bearer " header) _) eqn:Heq; [|done].
    intros _. exists header. split; [done|]. by apply String.eqb_eq.
Qed.

End authentication.
Section dashboard.
Context `{Runtime} `{Engine}.

Lemma filter_disjoint_length {A} (f g : A -> bool) (l : list A) :
  (forall x, f x && g x = false) ->
  (List.length (List.filter f l) + List.length (List.filter g l) <= List.length l)%nat /\
  ((List.length (List.filter f l) + List.length (List.filter g l) = List.length l)%nat <->
   forall x, x ∈ l -> f x || g x = true).
Proof.
  intros Hfg. induction l as [|x l [IHle IHeq]]; simpl.
  - split; [lia|]. split; [by intros _ x ?%elem_of_nil | done].
  - specialize (Hfg x) as Hx.
    destruct (f x) eqn:Hf, (g x) eqn:Hg; simpl in *; try done; (split; [lia|]).
    + split.
      * intros Heq y [->|Hy]%elem_of_cons; [by rewrite Hf | apply IHeq; [lia | done]].
      * intros Hall. apply eq_S, IHeq. intros y Hy. apply Hall. by right.
    + rewrite Nat.add_succ_r. split.
      * intros Heq y [->|Hy]%elem_of_cons; [by rewrite Hf, Hg | apply IHeq; [lia | done]].
      * intros Hall. apply eq_S, IHeq. intros y Hy. apply Hall. by right.
    + split.
      * intros Heq. lia.
      * intros Hall. specialize (Hall x). rewrite Hf, Hg in Hall.
        discriminate Hall. by left.
Qed.

(** X15.  The dashboard counts what the property [posts] of the database holds.
    In memory that is every stored post: the total is their number, and
    the published and the drafts together are at most that many, and as
    many exactly when every post is one or the other.  The PostgreSQL
    object has no such property: the three counts are 0 whatever the table
    holds.  The clock is read once and nothing is written. *)
Theorem get_stats_counts :
  (forall w : world InMemoryDatabase.t,
     exists s,
       AdminRoutes.get_stats w = Return s (World (db w) (S (reads w)) (console w)) /\
       AdminRoutes.totalPosts s = List.length (InMemoryDatabase.posts (db w)) /\
       (AdminRoutes.publishedPosts s + AdminRoutes.draftPosts s <= AdminRoutes.totalPosts s)%nat /\
       ((AdminRoutes.publishedPosts s + AdminRoutes.draftPosts s = AdminRoutes.totalPosts s)%nat <->
        forall p, p ∈ InMemoryDatabase.posts (db w) ->
          get "status" p = VStr "published" \/ get "status" p = VStr "draft")) /\
  (forall w : world PostgreSQLDatabase.t,
     exists s,
       AdminRoutes.get_stats w = Return s (World (db w) (S (reads w)) (console w)) /\
       AdminRoutes.totalPosts s = 0%nat /\
       AdminRoutes.publishedPosts s = 0%nat /\
       AdminRoutes.draftPosts s = 0%nat).
Proof.
  split; intros w;
    unfold AdminRoutes.get_stats, bind, this, Date_now, ret; cbv beta zeta iota;
    cbn [db reads console].
  - eexists. split; [reflexivity|]. cbn [AdminRoutes.totalPosts AdminRoutes.publishedPosts
                                          AdminRoutes.draftPosts].
    change (Scheduler.posts_array (db w)) with (InMemoryDatabase.posts (db w)).
    split; [done|].
    destruct (filter_disjoint_length
                (fun p => strict_eq (get "status" p) (VStr "published"))
                (fun p => strict_eq (get "status" p) (VStr "draft"))
                (InMemoryDatabase.posts (db w))) as [Hle Heq].
    { intros p. destruct (get "status" p) as [| | | | |s| |]; try done. simpl.
      destruct (String.eqb s "published") eqn:Hs; [|done].
      apply String.eqb_eq in Hs as ->. done. }
    split; [exact Hle|]. rewrite Heq. split.
    + intros Hall p Hp. specialize (Hall p Hp). apply orb_true_iff in Hall as [Hs|Hs];
        apply strict_eq_eq in Hs; auto.
    + intros Hall p Hp. destruct (Hall p Hp) as [-> | ->]; done.
  - eexists. split; [reflexivity|]. done.
Qed.

End dashboard.
Section publishing_in_memory.
Context `{Runtime}.
Implicit Types (w : world InMemoryDatabase.t) (p : obj).

(** What [database.updatePost] answers to a route, in memory. *)
Lemma in_memory_db_updatePost w id updates index p :
  first_with_id (InMemoryDatabase.posts (db w)) id index p ->
  exists w',
    db_updatePost id updates w = Return (Some (merged p updates (clock (reads w)))) w' /\
    InMemoryDatabase.posts (db w') =
      <[index := merged p updates (clock (reads w))]> (InMemoryDatabase.posts (db w)) /\
    InMemoryDatabase.categories (db w') = InMemoryDatabase.categories (db w) /\
    reads w' = S (S (reads w)) /\ console w' = console w.
Proof.
  intros Hfirst. pose proof Hfirst as (Hp & _ & _).
  eexists. split.
  { unfold db_updatePost. cbn [InMemory_Backend]. unfold bind at 1.
    rewrite (updatePost_found _ _ _ index) by (by eapply first_with_id_findIndex).
    rewrite (list_lookup_total_correct _ _ _ Hp). reflexivity. }
  unfold updated_world. cbn [db reads console InMemoryDatabase.set_posts
                             InMemoryDatabase.posts InMemoryDatabase.categories].
  by rewrite (list_lookup_total_correct _ _ _ Hp).
Qed.

(** Replacing the first post of an identifier by one of the same identifier
    leaves it the first. *)
Lemma first_with_id_insert (l : list obj) id index p p' :
  first_with_id l id index p -> get "id" p' = get "id" p ->
  first_with_id (<[index := p']> l) id index p'.
Proof.
  intros (Hp & Hid & Hmin) Hsame. split; [|split].
  - apply list_lookup_insert_eq. by eapply lookup_lt_Some.
  - by rewrite Hsame.
  - intros j q Hj Hq. rewrite list_lookup_insert_ne in Hq by lia. by eapply Hmin.
Qed.

Lemma getPosts_all w :
  InMemoryDatabase.getPosts ∅ w =
    Return (array_sort (fun a b => Date_diff (get "publishedDate" b) (get "publishedDate" a))
              (List.filter (fun p => strict_eq (get "status" p) (VStr "published"))
                 (InMemoryDatabase.posts (db w)))) w.
Proof. reflexivity. Qed.

(** X16.  Publishing and unpublishing through the admin routes, in memory, the
    identifier being the one of a stored post and the identifiers distinct.
    PATCH publish gives the post the status published and the time of the
    call for publishedDate, and [getPosts] then lists it.  PATCH unpublish
    gives it the status draft and the publishedDate [undefined], and
    [getPosts] no longer lists a post of that identifier.  After the two
    calls the post is as it was but for these two properties and
    updatedAt. *)
Theorem publish_unpublish_in_memory w (id : string) index p :
  first_with_id (InMemoryDatabase.posts (db w)) (VStr id) index p ->
  distinct (ids (InMemoryDatabase.posts (db w))) = true ->
  exists p1 w1 p2 w2,
    AdminRoutes.publish id w = Return (AdminRoutes.Json 200 (Some p1)) w1 /\
    InMemoryDatabase.posts (db w1) !! index = Some p1 /\
    get "status" p1 = VStr "published" /\
    get "publishedDate" p1 = VStr (toISOString (clock (reads w))) /\
    (exists l, InMemoryDatabase.getPosts ∅ w1 = Return l w1 /\ p1 ∈ l) /\
    AdminRoutes.unpublish id w1 = Return (AdminRoutes.Json 200 (Some p2)) w2 /\
    InMemoryDatabase.posts (db w2) !! index = Some p2 /\
    get "status" p2 = VStr "draft" /\
    p2 !! "publishedDate" = Some VUndef /\
    (exists l, InMemoryDatabase.getPosts ∅ w2 = Return l w2 /\
               forall q, q ∈ l -> get "id" q <> VStr id) /\
    (forall k, k ∉ ["status"; "publishedDate"; "updatedAt"] -> p2 !! k = p !! k).
Proof.
  intros Hfirst Hd. pose proof Hfirst as (Hp & Hid & _).
  set (w0 := World (db w) (S (reads w)) (console w)).
  set (u1 := <["status" := VStr "published"]>
               (<["publishedDate" := VStr (toISOString (clock (reads w)))]> (∅ : obj))).
  destruct (in_memory_db_updatePost w0 (VStr id) u1 index p Hfirst)
    as (w1 & Hup1 & Hposts1 & _ & _ & _).
  set (p1 := merged p u1 (clock (reads w0))) in *.
  assert (Hid1 : get "id" p1 = get "id" p).
  { unfold p1. rewrite get_merged by done. unfold u1.
    by rewrite !lookup_insert_ne, lookup_empty by done. }
  assert (Hfirst1 : first_with_id (InMemoryDatabase.posts (db w1)) (VStr id) index p1).
  { rewrite Hposts1. by apply (first_with_id_insert _ _ _ p). }
  set (u2 := <["status" := VStr "draft"]> (<["publishedDate" := VUndef]> (∅ : obj))).
  destruct (in_memory_db_updatePost w1 (VStr id) u2 index p1 Hfirst1)
    as (w2 & Hup2 & Hposts2 & _ & _ & _).
  set (p2 := merged p1 u2 (clock (reads w1))) in *.
  assert (Hid2 : get "id" p2 = get "id" p1).
  { unfold p2. rewrite get_merged by done. unfold u2.
    by rewrite !lookup_insert_ne, lookup_empty by done. }
  assert (Hstatus1 : get "status" p1 = VStr "published").
  { unfold p1. rewrite get_merged by done. unfold u1. by rewrite lookup_insert_eq. }
  assert (Hstatus2 : get "status" p2 = VStr "draft").
  { unfold p2. rewrite get_merged by done. unfold u2. by rewrite lookup_insert_eq. }
  assert (Hat1 : InMemoryDatabase.posts (db w1) !! index = Some p1) by apply Hfirst1.
  assert (Hat2 : InMemoryDatabase.posts (db w2) !! index = Some p2).
  { rewrite Hposts2. apply list_lookup_insert_eq. by eapply lookup_lt_Some. }
  exists p1, w1, p2, w2.
  split.
  { unfold AdminRoutes.publish, try_catch, bind at 1, new_Date_toISOString, bind at 1,
      Date_now, ret. fold w0. cbv beta iota. unfold bind at 1. fold u1. by rewrite Hup1. }
  split; [exact Hat1|]. split; [exact Hstatus1|].
  split.
  { unfold p1. rewrite get_merged by done. unfold u1.
    by rewrite lookup_insert_ne, lookup_insert_eq by done. }
  split.
  { eexists. split; [apply getPosts_all|]. rewrite array_sort_perm.
    apply elem_of_List_filter. split; [by eapply list_elem_of_lookup_2|].
    by rewrite Hstatus1. }
  split.
  { unfold AdminRoutes.unpublish, try_catch, bind at 1. fold u2. by rewrite Hup2. }
  split; [exact Hat2|]. split; [exact Hstatus2|].
  split.
  { unfold p2. rewrite lookup_merged by done. unfold u2.
    by rewrite lookup_insert_ne, lookup_insert_eq by done. }
  split.
  { destruct (in_memory_getPosts_published w2 ∅) as (l & Hl & Hin).
    exists l. split; [exact Hl|]. intros q Hq Hqid.
    destruct (Hin q Hq) as [Hstored Hpub].
    apply list_elem_of_lookup in Hstored as (j & Hj).
    assert (Hids : ids (InMemoryDatabase.posts (db w2)) = ids (InMemoryDatabase.posts (db w))).
    { rewrite Hposts2, (ids_insert _ _ p1 p2 Hat1 Hid2).
      rewrite Hposts1. by apply (ids_insert _ _ p). }
    assert (Hd2 : distinct (ids (InMemoryDatabase.posts (db w2))) = true) by by rewrite Hids.
    pose proof (findIndex_id _ _ _ Hd2 Hj) as Hfj.
    pose proof (findIndex_id _ _ _ Hd2 Hat2) as Hfi.
    assert (Hsame : get "id" p2 = get "id" q).
    { rewrite Hid2, Hid1, Hqid. by apply strict_eq_eq. }
    rewrite Hsame in Hfi. assert (j = index) as -> by congruence.
    assert (q = p2) as -> by congruence.
    rewrite Hstatus2 in Hpub. done. }
  intros k Hk. unfold p2, p1.
  assert (k <> "status" /\ k <> "publishedDate" /\ k <> "updatedAt") as (? & ? & ?).
  { repeat split; intros ->; apply Hk; by apply (bool_decide_unpack _). }
  rewrite !lookup_merged by done. unfold u1, u2.
  by rewrite !lookup_insert_ne, lookup_empty by done.
Qed.

End publishing_in_memory.
Section scheduling.
Context `{Runtime} `{Engine} `{Coercions}.

(** X17.  Scheduling through the admin route and the scheduler after it, in
    memory: the identifier is the one of a stored post, the identifiers are
    distinct, the body carries a text the platform reads as the time [t],
    and the platform reads the ISO text of [t] back as [t].  PATCH schedule
    makes the post a draft and stores the ISO text of [t].  The tick that
    follows publishes the post when [t] is not after the time the tick
    reads, and clears the schedule; it leaves the post alone when [t] is
    still to come. *)
Theorem schedule_then_tick_in_memory (w : world InMemoryDatabase.t) (id : string)
    (body : obj) index p s t :
  first_with_id (InMemoryDatabase.posts (db w)) (VStr id) index p ->
  distinct (ids (InMemoryDatabase.posts (db w))) = true ->
  get "scheduledPublishDate" body = VStr s -> s <> "" ->
  parseDate s = Some t ->
  toISOString t <> "" -> parseDate (toISOString t) = Some t ->
  exists p1 w1 w2,
    AdminRoutes.schedule id body w = Return (AdminRoutes.Json 200 (Some p1)) w1 /\
    InMemoryDatabase.posts (db w1) !! index = Some p1 /\
    get "status" p1 = VStr "draft" /\
    get "scheduledPublishDate" p1 = VStr (toISOString t) /\
    reads w1 = (2 + reads w)%nat /\
    Scheduler.tick w1 = Return tt w2 /\
    if t <=? clock (reads w1)
    then exists p2 k,
           InMemoryDatabase.posts (db w2) !! index = Some p2 /\
           get "status" p2 = VStr "published" /\
           get "publishedDate" p2 = VStr (toISOString (clock k)) /\
           (reads w1 < k < reads w2)%nat /\
           p2 !! "scheduledPublishDate" = Some VUndef
    else InMemoryDatabase.posts (db w2) !! index = Some p1.
Proof.
  intros Hfirst Hd Hbody Hs Ht Hiso Hback. pose proof Hfirst as (Hp & Hid & _).
  set (u := <["status" := VStr "draft"]>
              (<["scheduledPublishDate" := VStr (toISOString t)]> (∅ : obj))).
  destruct (in_memory_db_updatePost w (VStr id) u index p Hfirst)
    as (w1 & Hup & Hposts1 & _ & Hreads1 & _).
  set (p1 := merged p u (clock (reads w))) in *.
  assert (Hid1 : get "id" p1 = get "id" p).
  { unfold p1. rewrite get_merged by done. unfold u.
    by rewrite !lookup_insert_ne, lookup_empty by done. }
  assert (Hat1 : InMemoryDatabase.posts (db w1) !! index = Some p1).
  { rewrite Hposts1. apply list_lookup_insert_eq. by eapply lookup_lt_Some. }
  assert (Hstatus1 : get "status" p1 = VStr "draft").
  { unfold p1. rewrite get_merged by done. unfold u. by rewrite lookup_insert_eq. }
  assert (Hsched1 : get "scheduledPublishDate" p1 = VStr (toISOString t)).
  { unfold p1. rewrite get_merged by done. unfold u.
    by rewrite lookup_insert_ne, lookup_insert_eq by done. }
  assert (Hd1 : distinct (ids (InMemoryDatabase.posts (db w1))) = true).
  { rewrite Hposts1. by rewrite (ids_insert _ _ p). }
  destruct (scan_distinct (List.length (InMemoryDatabase.posts (db w1))) 0 (clock (reads w1))
              (World (db w1) (S (reads w1)) (console w1)))
    as (w2 & Hscan & _ & _ & Hreads & Hafter); [done | simpl; lia |].
  cbn [db reads console] in Hreads, Hafter.
  specialize (Hafter index p1 Hat1). rewrite bool_decide_eq_true_2 in Hafter by lia.
  cbn [andb] in Hafter.
  exists p1, w1, w2.
  split.
  { unfold AdminRoutes.schedule, try_catch. rewrite Hbody.
    unfold AdminRoutes.Date_parse, AdminRoutes.ToString, AdminRoutes.Date_toISOString, Date_of.
    rewrite Ht. cbn [truthy]. apply String.eqb_neq in Hs. rewrite Hs. cbn [negb orb].
    unfold bind at 1, ret at 1. unfold bind at 1. fold u. by rewrite Hup. }
  split; [exact Hat1|]. split; [exact Hstatus1|]. split; [exact Hsched1|].
  split; [exact Hreads1|].
  split.
  { rewrite tick_unfold.
    change (Scheduler.posts_array (db w1)) with (InMemoryDatabase.posts (db w1)).
    by rewrite Hscan. }
  assert (Hdue : Scheduler.due (clock (reads w1)) p1 = (t <=? clock (reads w1))).
  { unfold Scheduler.due. rewrite Hstatus1, Hsched1. cbn [strict_eq truthy Date_of].
    apply String.eqb_neq in Hiso. rewrite Hiso, Hback. reflexivity. }
  rewrite Hdue in Hafter. destruct (t <=? clock (reads w1)); [|exact Hafter].
  destruct Hafter as (k & Hk1 & Hk2 & Hat2).
  destruct (promoted_fields p1 (clock k) (clock (S k))) as (Hst & Hpd & Hsc & _).
  exists (promoted p1 (clock k) (clock (S k))), k.
  split; [exact Hat2|]. split; [exact Hst|]. split; [exact Hpd|]. split; [lia | exact Hsc].
Qed.

(** The timer under PostgreSQL: nothing is written. *)
Lemma postgresql_ticks_idle n (w : world PostgreSQLDatabase.t) :
  exists w', Scheduler.ticks n w = Return tt w' /\ db w' = db w /\ console w' = console w.
Proof.
  revert w. induction n as [|n IH]; intros w; [by exists w|].
  destruct (IH (World (db w) (S (reads w)) (console w))) as (w' & Hticks & Hdb & Hcon).
  exists w'. split; [|done]. simpl. unfold bind. rewrite tick_unfold. exact Hticks.
Qed.

Lemma get_mapPostFromDb_other k r :
  k ∉ ["id"; "title"; "slug"; "excerpt"; "content"; "author"; "category"; "tags"; "image";
       "publishedDate"; "readTime"; "featured"; "status"; "createdAt"; "updatedAt";
       "commentCount"] ->
  get k (PostgreSQLDatabase.mapPostFromDb r) = VUndef.
Proof.
  intros Hk. unfold PostgreSQLDatabase.mapPostFromDb, get.
  rewrite !lookup_insert_ne; [by rewrite lookup_empty|..];
    intros <-; apply Hk; by apply (bool_decide_unpack _).
Qed.

(** The UPDATE of [updatePost] that sets the status to draft. *)
Lemma posts_ok_unpublish (now : Z) (g : obj -> bool) rows :
  PostgreSQLDatabase.posts_ok rows = true ->
  PostgreSQLDatabase.posts_ok
    (map (fun r => if g r then <["updated_at" := VDate (Some now)]>
                                 (<["status" := VStr "draft"]> r) else r)
       rows) = true.
Proof.
  intros Hok.
  apply (posts_ok_map (fun r => <["updated_at" := VDate (Some now)]>
                                  (<["status" := VStr "draft"]> r))); [..|done].
  - intros r. by rewrite !get_insert_ne.
  - intros r. by rewrite !get_insert_ne.
  - intros r Hr. by do 2 (apply row_ok_insert; [reflexivity|]).
Qed.

(** X18.  The same route under PostgreSQL, the table within its constraints and
    the identifier the one of a row: the post becomes a draft and the date
    is stored nowhere, the schedule being no column the UPDATE may write.
    The row changes in its status and its time of update only, the post
    returned carries no schedule, and the timer never publishes it. *)
Theorem schedule_postgresql (w : world PostgreSQLDatabase.t) (id : string)
    (body : obj) row s t :
  constrained (db w) ->
  head (List.filter (fun r => PostgreSQLDatabase.sql_eq (get "id" r) (VStr id))
          (PostgreSQLDatabase.posts_table (db w))) = Some row ->
  get "scheduledPublishDate" body = VStr s -> s <> "" ->
  parseDate s = Some t ->
  exists post w1,
    AdminRoutes.schedule id body w = Return (AdminRoutes.Json 200 (Some post)) w1 /\
    post = PostgreSQLDatabase.mapPostFromDb
             (<["updated_at" := VDate (Some (clock (reads w)))]>
                (<["status" := VStr "draft"]> row)) /\
    get "status" post = VStr "draft" /\
    get "scheduledPublishDate" post = VUndef /\
    PostgreSQLDatabase.posts_table (db w1) =
      map (fun r => if PostgreSQLDatabase.sql_eq (get "id" r) (VStr id)
                    then <["updated_at" := VDate (Some (clock (reads w)))]>
                           (<["status" := VStr "draft"]> r)
                    else r)
        (PostgreSQLDatabase.posts_table (db w)) /\
    forall n, exists w2,
      Scheduler.ticks n w1 = Return tt w2 /\
      PostgreSQLDatabase.getPostById (VStr id) w2 = Return (Some post) w2.
Proof.
  intros Hok Hrow Hbody Hs Ht.
  set (u := <["status" := VStr "draft"]>
              (<["scheduledPublishDate" := VStr (toISOString t)]> (∅ : obj))).
  assert (Hassign : PostgreSQLDatabase.assignments u = [("status", VStr "draft")]).
  { unfold u. generalize (toISOString t). intros iso. vm_compute. reflexivity. }
  set (f := fun r : obj =>
              if PostgreSQLDatabase.sql_eq (get "id" r) (VStr id)
              then <["updated_at" := VDate (Some (clock (reads w)))]>
                     (<["status" := VStr "draft"]> r)
              else r).
  set (w1 := World (PostgreSQLDatabase.set_posts_table (map f) (db w))
               (S (reads w)) (console w)).
  assert (Hlook : forall w' : world PostgreSQLDatabase.t, db w' = db w1 ->
            PostgreSQLDatabase.getPostById (VStr id) w' =
              Return (Some (PostgreSQLDatabase.mapPostFromDb
                              (<["updated_at" := VDate (Some (clock (reads w)))]>
                                 (<["status" := VStr "draft"]> row)))) w').
  { intros w' Hdb. unfold PostgreSQLDatabase.getPostById, bind, this, ret. rewrite Hdb.
    cbn [db w1 PostgreSQLDatabase.set_posts_table PostgreSQLDatabase.posts_table
         PostgreSQLDatabase.param].
    rewrite filter_map_preserved.
    2: { intros r. unfold f. destruct (PostgreSQLDatabase.sql_eq (get "id" r) _) eqn:Hr;
           [by rewrite !get_insert_ne by done | exact Hr]. }
    pose proof (head_filter_true _ _ _ Hrow) as Hr. cbv beta in Hr.
    rewrite head_map, Hrow. cbn [fmap option_fmap option_map]. unfold f.
    by rewrite Hr. }
  assert (Hup : PostgreSQLDatabase.updatePost (VStr id) u w =
                PostgreSQLDatabase.getPostById (VStr id) w1).
  { assert (Hne : PostgreSQLDatabase.assignments u <> []) by (by rewrite Hassign).
    assert (Hnd : NoDup (PostgreSQLDatabase.assignments u).*1).
    { rewrite Hassign. apply (bool_decide_unpack _). vm_compute. reflexivity. }
    rewrite (postgresql_updatePost_sends w (VStr id) u Hne Hnd), Hassign.
    change (PostgreSQLDatabase.stored_fields [("status", VStr "draft")])
      with (Some [("status", VStr "draft")]).
    cbv iota. cbn [app]. unfold bind at 1.
    rewrite query_posts_ok.
    - reflexivity.
    - apply (posts_ok_unpublish _ _ _ Hok). }
  eexists _, w1. split.
  { unfold AdminRoutes.schedule, try_catch. rewrite Hbody.
    unfold AdminRoutes.Date_parse, AdminRoutes.ToString, AdminRoutes.Date_toISOString, Date_of.
    rewrite Ht. cbn [truthy]. apply String.eqb_neq in Hs. rewrite Hs. cbn [negb orb].
    unfold bind at 1, ret at 1. unfold bind at 1. fold u.
    unfold db_updatePost. cbn [PostgreSQL_Backend]. rewrite Hup, (Hlook w1 eq_refl).
    reflexivity. }
  split; [reflexivity|]. split.
  { rewrite get_status_mapPostFromDb. rewrite get_insert_ne by done. apply get_insert. }
  split.
  { apply get_mapPostFromDb_other. apply (bool_decide_unpack _). vm_compute. reflexivity. }
  split; [reflexivity|].
  intros n. destruct (postgresql_ticks_idle n w1) as (w2 & Hticks & Hdb & _).
  exists w2. split; [exact Hticks|]. by apply Hlook.
Qed.

End scheduling.
Section route_examples.
Local Existing Instance Reference.runtime.
Local Existing Instance Reference.engine.
Local Existing Instance ReferenceText.coercions.

Lemma three_drafts_distinct :
  distinct (ids (InMemoryDatabase.posts (db Examples.three_drafts))) = true.
Proof. vm_compute. reflexivity. Qed.

Lemma publish_unpublish_in_memory_witness :
  first_with_id (InMemoryDatabase.posts (db Examples.three_drafts)) (VStr "2") 1
    (Examples.scheduled (VStr "2") "future" "2030-01-01T00:00:00.000Z") /\
  distinct (ids (InMemoryDatabase.posts (db Examples.three_drafts))) = true /\
  exists p1 w1 p2 w2,
    AdminRoutes.publish "2" Examples.three_drafts =
      Return (AdminRoutes.Json 200 (Some p1)) w1 /\
    get "status" p1 = VStr "published" /\
    AdminRoutes.unpublish "2" w1 = Return (AdminRoutes.Json 200 (Some p2)) w2 /\
    get "status" p2 = VStr "draft".
Proof.
  split; [exact three_drafts_second|]. split; [exact three_drafts_distinct|].
  destruct (publish_unpublish_in_memory Examples.three_drafts "2" 1 _
              three_drafts_second three_drafts_distinct)
    as (p1 & w1 & p2 & w2 & Hpub & _ & Hs1 & _ & _ & Hunpub & _ & Hs2 & _).
  by exists p1, w1, p2, w2.
Defined.

Lemma schedule_then_tick_in_memory_witness :
  exists p1 w1 w2 p2,
    AdminRoutes.schedule "2" {[ "scheduledPublishDate" := VStr "2020-06-01" ]}
      Examples.three_drafts = Return (AdminRoutes.Json 200 (Some p1)) w1 /\
    get "scheduledPublishDate" p1 = VStr "2020-06-01T00:00:00.000Z" /\
    Scheduler.tick w1 = Return tt w2 /\
    InMemoryDatabase.posts (db w2) !! 1%nat = Some p2 /\
    get "status" p2 = VStr "published".
Proof.
  destruct (schedule_then_tick_in_memory Examples.three_drafts "2"
              {[ "scheduledPublishDate" := VStr "2020-06-01" ]} 1 _ "2020-06-01" 1590969600000
              three_drafts_second three_drafts_distinct)
    as (p1 & w1 & w2 & Hsched & Hat1 & _ & Hdate & Hreads & Htick & Hafter);
    [reflexivity | done | reflexivity | done | reflexivity |].
  rewrite Hreads in Hafter. change (1590969600000 <=? clock (2 + 0)) with true in Hafter.
  destruct Hafter as (p2 & k & Hat2 & Hs2 & _).
  exists p1, w1, w2, p2. split; [exact Hsched|].
  split; [rewrite Hdate; vm_compute; reflexivity|].
  split; [exact Htick|]. split; [exact Hat2 | exact Hs2].
Defined.

Lemma schedule_postgresql_witness :
  constrained (db Examples.postgresql_one_post) /\
  exists post w1,
    AdminRoutes.schedule "7" {[ "scheduledPublishDate" := VStr "2020-06-01" ]}
      Examples.postgresql_one_post = Return (AdminRoutes.Json 200 (Some post)) w1 /\
    get "status" post = VStr "draft" /\
    get "scheduledPublishDate" post = VUndef.
Proof.
  split; [apply postgresql_one_post_schema|].
  destruct postgresql_one_post_row as (row & Hrow).
  destruct (schedule_postgresql Examples.postgresql_one_post "7"
              {[ "scheduledPublishDate" := VStr "2020-06-01" ]} row
              "2020-06-01" 1590969600000)
    as (post & w1 & Hsched & _ & Hstatus & Hnone & _).
  - apply postgresql_one_post_schema.
  - exact Hrow.
  - reflexivity.
  - discriminate.
  - reflexivity.
  - exists post, w1. split; [exact Hsched|]. split; [exact Hstatus | exact Hnone].
Defined.

End route_examples.

Section creating.
Context `{Runtime} `{Coercions}.
Implicit Types (body post : obj).

(** The object [router.post('/posts')] hands to [createPost]. *)
Lemma post_posts_call {D} (createPost : obj -> M D (option obj)) body (w : world D)
    title content :
  get "title" body = VStr title -> title <> "" ->
  get "content" body = VStr content -> content <> "" ->
  (AdminRoutes.hasSchedule (get "scheduledPublishDate" body) = true ->
   is_Some (Date_of (get "scheduledPublishDate" body))) ->
  exists post w0,
    AdminRoutes.post_posts createPost body w =
      try_catch (post ← createPost post; ret (AdminRoutes.Json 201 post))
        (fun e => ret (AdminRoutes.Failed 500 (message e))) w0 /\
    db w0 = db w /\ console w0 = console w /\
    reads w0 = (if String.eqb (initialStatus body) "published" then S (reads w) else reads w) /\
    post !! "id" = None /\
    get "title" post = VStr title /\
    get "content" post = VStr content /\
    get "slug" post =
      (if truthy (get "slug" body) then get "slug" body
       else VStr (AdminRoutes.dashed (toLowerCase title))) /\
    get "excerpt" post =
      (if truthy (get "excerpt" body) then get "excerpt" body
       else VStr (substring 0 160 content)) /\
    get "category" post = PostgreSQLDatabase.or_else (get "category" body) (VStr "Algemeen") /\
    get "author" post = PostgreSQLDatabase.or_else (get "author" body) (VStr "Admin") /\
    get "tags" post = PostgreSQLDatabase.or_else (get "tags" body) (VArr []) /\
    get "status" post = VStr (initialStatus body) /\
    get "featured" post = VBool (truthy (get "featured" body)) /\
    get "publishedDate" post =
      (if String.eqb (initialStatus body) "published"
       then VStr (toISOString (clock (reads w))) else VUndef) /\
    get "scheduledPublishDate" post =
      (if AdminRoutes.hasSchedule (get "scheduledPublishDate" body)
       then match Date_of (get "scheduledPublishDate" body) with
            | Some t => VStr (toISOString t)
            | None => VUndef
            end
       else VUndef).
Proof.
  intros Htitle Hte Hcontent Hce Hvalid. destruct w as [d k c].
  apply String.eqb_neq in Hte, Hce.
  unfold AdminRoutes.post_posts, initialStatus. rewrite Htitle, Hcontent.
  cbn [truthy]. rewrite Hte, Hce. cbn [negb orb].
  destruct (AdminRoutes.hasSchedule (get "scheduledPublishDate" body)) eqn:Hsched.
  - destruct (Hvalid eq_refl) as [t Ht]. rewrite andb_false_r.
    unfold AdminRoutes.Date_toISOString. rewrite Ht.
    cbn [String.eqb Ascii.eqb Bool.eqb].
    destruct (truthy (get "slug" body)), (truthy (get "excerpt" body));
      eexists _, (World _ _ _); (split; [reflexivity|]);
      repeat (split; [first [done | by rewrite ?get_insert_ne, ?get_insert by done
                                  | by rewrite !lookup_insert_ne, lookup_empty by done]|]);
      by rewrite ?get_insert_ne, ?get_insert by done.
  - rewrite andb_true_r.
    destruct (strict_eq (get "status" body) (VStr "published"));
      cbn [String.eqb Ascii.eqb Bool.eqb];
      destruct (truthy (get "slug" body)), (truthy (get "excerpt" body));
      eexists _, (World _ _ _); (split; [reflexivity|]);
      repeat (split; [first [done | by rewrite ?get_insert_ne, ?get_insert by done
                                  | by rewrite !lookup_insert_ne, lookup_empty by done]|]);
      by rewrite ?get_insert_ne, ?get_insert by done.
Qed.


(** What [createPost] keeps of its input, in memory. *)
Lemma createPost_keeps (w : world InMemoryDatabase.t) post :
  exists p w',
    InMemoryDatabase.createPost post w = Return p w' /\
    InMemoryDatabase.posts (db w') = (InMemoryDatabase.posts (db w) ++ [p])%list /\
    InMemoryDatabase.categories (db w') = InMemoryDatabase.categories (db w) /\
    (reads w + 4 <= reads w')%nat /\
    get "status" p =
      VStr (if strict_eq (get "status" post) (VStr "published")
            then "published" else "draft") /\
    get "featured" p = VBool (truthy (get "featured" post)) /\
    get "commentCount" p = VNum 0 /\
    get "publishedDate" p =
      (if strict_eq (get "status" post) (VStr "published") &&
          negb (truthy (get "publishedDate" post))
       then VStr (toISOString (clock (S (reads w))))
       else get "publishedDate" post) /\
    forall k, k ∉ created_fields -> get k p = get k post.
Proof.
  destruct (createPost_shape w post)
    as (published & created & updated & w' & Hcreate & Hposts & Hcat & Hpublished).
  set (p := <["commentCount" := VNum 0]> _) in *.
  exists p, w'. split; [exact Hcreate|]. split; [exact Hposts|]. split; [exact Hcat|].
  split.
  { unfold InMemoryDatabase.createPost, bind at 1, Date_now in Hcreate.
    cbv beta iota in Hcreate. clear -Hcreate.
    assert (Hmono : forall (w1 : world InMemoryDatabase.t) q w2,
              (publishedDate ←
                 (if String.eqb
                       (if strict_eq (get "status" post) (VStr "published")
                        then "published" else "draft") "published"
                  then if truthy (get "publishedDate" post)
                       then ret (get "publishedDate" post)
                       else s ← new_Date_toISOString; ret (VStr s)
                  else ret (get "publishedDate" post));
               createdAt ← new_Date;
               updatedAt ← new_Date;
               assign (InMemoryDatabase.set_posts (fun l =>
                 (l ++ [<["commentCount" := VNum 0]> (<["updatedAt" := updatedAt]> (
                        <["createdAt" := createdAt]> (<["publishedDate" := publishedDate]> (
                        <["featured" := VBool (truthy (get "featured" post))]> (
                        <["status" := VStr (if strict_eq (get "status" post) (VStr "published")
                                            then "published" else "draft")]> (
                        spread {["id" := VStr (pretty (clock (reads w)))]} post))))))])%list));;
               InMemoryDatabase.saveToFile;;
               ret (<["commentCount" := VNum 0]> (<["updatedAt" := updatedAt]> (
                    <["createdAt" := createdAt]> (<["publishedDate" := publishedDate]> (
                    <["featured" := VBool (truthy (get "featured" post))]> (
                    <["status" := VStr (if strict_eq (get "status" post) (VStr "published")
                                        then "published" else "draft")]> (
                    spread {["id" := VStr (pretty (clock (reads w)))]} post)))))))) w1
              = Return q w2 -> (reads w1 + 3 <= reads w2)%nat).
    { intros w1 q w2.
      destruct (strict_eq (get "status" post) (VStr "published"));
        cbn [String.eqb Ascii.eqb Bool.eqb];
        [destruct (truthy (get "publishedDate" post))|];
        unfold bind, ret, new_Date, new_Date_toISOString, InMemoryDatabase.saveToFile,
          new_Date_toISOString, Date_now, assign, bind, ret;
        cbn [db reads console]; intros [= _ <-]; cbn [reads]; lia. }
    apply Hmono in Hcreate. cbn [reads] in Hcreate. lia. }
  split. { unfold p. rewrite !get_insert_ne by done. apply get_insert. }
  split. { unfold p. rewrite !get_insert_ne by done. apply get_insert. }
  split. { unfold p. apply get_insert. }
  split. { unfold p. rewrite !get_insert_ne by done. rewrite get_insert. exact Hpublished. }
  intros k Hk. unfold p, get.
  rewrite !lookup_insert_ne.
  2-7: intros <-; apply Hk; by apply (bool_decide_unpack _).
  rewrite lookup_spread. destruct (post !! k) eqn:Hpk; [done|].
  rewrite lookup_singleton_ne; [done|]. intros <-. apply Hk. by apply (bool_decide_unpack _).
Qed.

(** X19.  POST /posts on the in-memory database, title and content being
    non-empty strings (and the schedule, when the body has one that parses,
    being a date the engine can build).  The answer is 201 with the record
    stored, which is appended to the posts.  It holds the title and the
    content as sent; the slug sent or else the title in lower case with
    each run of white space turned into a dash; the excerpt sent or else
    the first 160 characters of the content; category Algemeen and author
    Admin when none is sent.  Its status is published only when the body
    says so and carries no schedule that parses; with such a schedule the
    post is a draft without publishedDate whose scheduledPublishDate is the
    ISO text of the date; a published post has the text of a clock reading
    of the call for publishedDate. *)
Theorem post_posts_in_memory (w : world InMemoryDatabase.t) body title content :
  get "title" body = VStr title -> title <> "" ->
  get "content" body = VStr content -> content <> "" ->
  (AdminRoutes.hasSchedule (get "scheduledPublishDate" body) = true ->
   is_Some (Date_of (get "scheduledPublishDate" body))) ->
  exists p w',
    AdminRoutes.post_posts in_memory_createPost body w =
      Return (AdminRoutes.Json 201 (Some p)) w' /\
    InMemoryDatabase.posts (db w') = (InMemoryDatabase.posts (db w) ++ [p])%list /\
    InMemoryDatabase.categories (db w') = InMemoryDatabase.categories (db w) /\
    get "title" p = VStr title /\
    get "content" p = VStr content /\
    get "slug" p =
      (if truthy (get "slug" body) then get "slug" body
       else VStr (AdminRoutes.dashed (toLowerCase title))) /\
    get "excerpt" p =
      (if truthy (get "excerpt" body) then get "excerpt" body
       else VStr (substring 0 160 content)) /\
    get "category" p = PostgreSQLDatabase.or_else (get "category" body) (VStr "Algemeen") /\
    get "author" p = PostgreSQLDatabase.or_else (get "author" body) (VStr "Admin") /\
    get "status" p = VStr (initialStatus body) /\
    (AdminRoutes.hasSchedule (get "scheduledPublishDate" body) = true ->
     get "status" p = VStr "draft" /\ get "publishedDate" p = VUndef /\
     exists t, Date_of (get "scheduledPublishDate" body) = Some t /\
               get "scheduledPublishDate" p = VStr (toISOString t)) /\
    (AdminRoutes.hasSchedule (get "scheduledPublishDate" body) = false ->
     get "scheduledPublishDate" p = VUndef) /\
    (initialStatus body = "published" ->
     exists k, (reads w <= k < reads w')%nat /\
               get "publishedDate" p = VStr (toISOString (clock k))).
Proof.
  intros Htitle Hte Hcontent Hce Hvalid.
  destruct (post_posts_call in_memory_createPost body w title content
              Htitle Hte Hcontent Hce Hvalid)
    as (post & w0 & Hcall & Hdb & _ & Hreads & Hnoid & Hpt & Hpc & Hslug & Hexc & Hcat & Hauth
        & _ & Hstatus & _ & Hpub & Hsch).
  destruct (createPost_keeps w0 post)
    as (p & w' & Hcreate & Hposts & Hcats & Hlt & Hs & _ & _ & Hpd & Hkeep).
  assert (Hother : forall k, k ∉ created_fields -> get k p = get k post) by exact Hkeep.
  assert (Hsp : get "status" p = VStr (initialStatus body)).
  { rewrite Hs, Hstatus. unfold initialStatus.
    by destruct (strict_eq (get "status" body) (VStr "published") &&
                 negb (AdminRoutes.hasSchedule (get "scheduledPublishDate" body))). }
  exists p, w'. split.
  { rewrite Hcall. unfold try_catch, bind at 1, in_memory_createPost, bind at 1.
    by rewrite Hcreate. }
  split; [by rewrite Hposts, Hdb|]. split; [by rewrite Hcats, Hdb|].
  split. { rewrite Hother; [done|]. apply (bool_decide_unpack _). vm_compute. reflexivity. }
  split. { rewrite Hother; [done|]. apply (bool_decide_unpack _). vm_compute. reflexivity. }
  split. { rewrite Hother; [done|]. apply (bool_decide_unpack _). vm_compute. reflexivity. }
  split. { rewrite Hother; [done|]. apply (bool_decide_unpack _). vm_compute. reflexivity. }
  split. { rewrite Hother; [done|]. apply (bool_decide_unpack _). vm_compute. reflexivity. }
  split. { rewrite Hother; [done|]. apply (bool_decide_unpack _). vm_compute. reflexivity. }
  split; [exact Hsp|].
  assert (Hsched_p : get "scheduledPublishDate" p = get "scheduledPublishDate" post).
  { apply Hother. apply (bool_decide_unpack _). vm_compute. reflexivity. }
  split.
  { intros Hhas. assert (Hdraft : initialStatus body = "draft").
    { unfold initialStatus. by rewrite Hhas, andb_false_r. }
    split; [by rewrite Hsp, Hdraft|]. split.
    - rewrite Hpd, Hstatus, Hpub, Hdraft. reflexivity.
    - destruct (Hvalid Hhas) as [t Ht]. exists t. split; [exact Ht|].
      by rewrite Hsched_p, Hsch, Hhas, Ht. }
  split.
  { intros Hhas. by rewrite Hsched_p, Hsch, Hhas. }
  intros Hpublished. rewrite Hpd, Hstatus, Hpub, Hpublished.
  rewrite Hpublished in Hreads.
  change (reads w0 = S (reads w)) in Hreads.
  change (strict_eq (VStr "published") (VStr "published")) with true.
  change (String.eqb "published" "published") with true. cbv iota. cbn [andb].
  destruct (truthy (VStr (toISOString (clock (reads w))))); cbn [negb]; cbv iota.
  - exists (reads w). split; [lia | done].
  - exists (S (reads w0)). split; [lia | done].
Qed.

End creating.

Section creating_examples.
Local Existing Instance Reference.runtime.
Local Existing Instance ReferenceText.coercions.

(** A body that asks for a published post and carries a schedule. *)
Lemma post_posts_in_memory_witness :
  exists p w',
    AdminRoutes.post_posts in_memory_createPost
      (<["title" := VStr "Winter  Quiz"]> (<["content" := VStr "Soon."]> (
       <["status" := VStr "published"]> (
       <["scheduledPublishDate" := VStr "2020-06-01"]> ∅))))
      Examples.seeded = Return (AdminRoutes.Json 201 (Some p)) w' /\
    get "status" p = VStr "draft" /\
    get "slug" p = VStr "winter-quiz" /\
    get "scheduledPublishDate" p = VStr "2020-06-01T00:00:00.000Z".
Proof.
  destruct (post_posts_in_memory Examples.seeded
              (<["title" := VStr "Winter  Quiz"]> (<["content" := VStr "Soon."]> (
               <["status" := VStr "published"]> (
               <["scheduledPublishDate" := VStr "2020-06-01"]> ∅))))
              "Winter  Quiz" "Soon.")
    as (p & w' & Hpost & _ & _ & _ & _ & Hslug & _ & _ & _ & _ & Hsched & _);
    [reflexivity | done | reflexivity | done | by (intros _; eexists; vm_compute; reflexivity) |].
  destruct Hsched as (Hdraft & _ & t & Ht & Hdate); [vm_compute; reflexivity|].
  exists p, w'. split; [exact Hpost|]. split; [exact Hdraft|]. split.
  - rewrite Hslug. vm_compute. reflexivity.
  - rewrite Hdate. vm_compute in Ht. injection Ht as <-. vm_compute. reflexivity.
Defined.

End creating_examples.
(** ** The settings *)

Section settings.
Context `{Runtime} `{Engine}.

(** X20.  PUT /api/admin/settings and GET /api/settings after it, on either
    backend.  The text of the body is stored under [upcomingText] when it
    is a string; any other body, an empty one too, erases the text that was
    there.  The other keys are left alone, the answer of the PUT is the
    settings as they then are, and the public endpoint answers with the
    text stored, or with the empty text when it was erased. *)
Theorem put_settings_then_get (w : world obj) body :
  (exists w',
     Settings.put_settings Settings.InMemory.updateSettings body w = Return (inl (db w')) w' /\
     get "upcomingText" (db w') =
       match get "upcomingText" body with VStr s => VStr s | _ => VUndef end /\
     (forall k, k <> "upcomingText" -> db w' !! k = db w !! k) /\
     Settings.get_settings Settings.InMemory.getSettings w' =
       Return (inl (VStr (upcoming_text body))) w') /\
  (exists w',
     Settings.put_settings Settings.PostgreSQL.updateSettings body w = Return (inl (db w')) w' /\
     get "upcomingText" (db w') =
       match get "upcomingText" body with VStr s => VStr s | _ => VNull end /\
     (forall k, k <> "upcomingText" -> db w' !! k = db w !! k) /\
     Settings.get_settings Settings.PostgreSQL.getSettings w' =
       Return (inl (VStr (upcoming_text body))) w').
Proof.
  set (v := match get "upcomingText" body with VStr s => VStr s | _ => VUndef end).
  assert (Htext : forall v' : jsval,
            v' = v \/ v' = PostgreSQLDatabase.param v ->
            PostgreSQLDatabase.or_else v' (VStr "") = VStr (upcoming_text body)).
  { intros v' Hv'. unfold upcoming_text, v in *.
    destruct (get "upcomingText" body) as [| | | | |s| |]; destruct Hv' as [-> | ->];
      try reflexivity; unfold PostgreSQLDatabase.or_else; simpl;
      destruct (String.eqb s "") eqn:Hs; try reflexivity;
      apply String.eqb_eq in Hs; by subst s. }
  split.
  - eexists (World (<["upcomingText" := v]> (db w)) (S (reads w)) (console w)).
    split; [|split; [|split]].
    + unfold Settings.put_settings, try_catch, Settings.InMemory.updateSettings,
        Settings.InMemory.saveToFile, new_Date_toISOString, Date_now, bind, assign, this, ret.
      cbn [db reads console]. fold v. unfold spread.
      by rewrite insert_union_singleton_l.
    + cbn [db]. apply get_insert.
    + intros k Hk. cbn [db]. by rewrite lookup_insert_ne.
    + unfold Settings.get_settings, try_catch, Settings.InMemory.getSettings, bind, this, ret.
      cbn [db]. rewrite get_insert, Htext; [done | by left].
  - eexists (World (<["upcomingText" := PostgreSQLDatabase.param v]> (db w))
               (reads w) (console w)).
    split; [|split; [|split]].
    + unfold Settings.put_settings, try_catch, Settings.PostgreSQL.updateSettings. fold v.
      rewrite map_to_list_singleton.
      unfold Settings.PostgreSQL.upserts, Settings.PostgreSQL.upsert,
        Settings.PostgreSQL.getSettings, bind, assign, this, ret.
      reflexivity.
    + cbn [db]. rewrite get_insert. unfold v. by destruct (get "upcomingText" body).
    + intros k Hk. cbn [db]. by rewrite lookup_insert_ne.
    + unfold Settings.get_settings, try_catch, Settings.PostgreSQL.getSettings, bind, this, ret.
      cbn [db]. rewrite get_insert, Htext; [done | by right].
Qed.

End settings.

(** ** The slugs of the admin panel *)

Section slugs.

Lemma slug_char_facts (c : ascii) :
  slug_char c = true ->
  is_space c = false /\ AdminPanel.kept c = true /\ lower_char c = c /\
  AdminPanel.strip_accent c = Some c.
Proof.
  destruct c as [[] [] [] [] [] [] [] []]; vm_compute; intros Hc;
    try discriminate Hc; repeat split; reflexivity.
Qed.

Lemma kept_not_space (c : ascii) :
  AdminPanel.kept c = true -> is_space c = false -> slug_char c = true.
Proof.
  destruct c as [[] [] [] [] [] [] [] []]; vm_compute; intros Hc Hs;
    try discriminate Hc; try discriminate Hs; reflexivity.
Qed.

Lemma all_chars_only_kept (s : string) : all_chars AdminPanel.kept (AdminPanel.only_kept s) = true.
Proof.
  induction s as [|c s IH]; simpl; [done|].
  destruct (AdminPanel.kept c) eqn:Hc; simpl; [by rewrite Hc|done].
Qed.

Lemma all_chars_trimStart f (s : string) :
  all_chars f s = true -> all_chars f (trimStart s) = true.
Proof.
  induction s as [|c s IH]; simpl; [done|]. intros [Hc Hs]%andb_true_iff.
  destruct (is_space c); [by apply IH|]. simpl. by rewrite Hc, Hs.
Qed.

Lemma all_chars_trimEnd f (s : string) :
  all_chars f s = true -> all_chars f (trimEnd s) = true.
Proof.
  induction s as [|c s IH]; simpl; [done|]. intros [Hc Hs]%andb_true_iff.
  destruct (is_space c && String.eqb (trimEnd s) ""); [done|]. simpl. by rewrite Hc, IH.
Qed.

Lemma all_chars_dashed (s : string) :
  all_chars AdminPanel.kept s = true -> all_chars slug_char (AdminRoutes.dashed s) = true.
Proof.
  induction s as [|c s IH]; [done|]. intros [Hc Hs]%andb_true_iff.
  cbn [AdminRoutes.dashed]. destruct (is_space c) eqn:Hsp.
  - destruct s as [|c' s']; [done|].
    destruct (is_space c'); [by apply IH|].
    cbn [all_chars]. rewrite IH by done. done.
  - cbn [all_chars]. by rewrite (kept_not_space c), IH.
Qed.

Lemma single_dashes_cons (a b : ascii) (s : string) :
  single_dashes (String a (String b s)) =
  negb (Ascii.eqb a "-" && Ascii.eqb b "-") && single_dashes (String b s).
Proof. reflexivity. Qed.

Lemma squeezed_spec (s : string) :
  all_chars slug_char s = true ->
  all_chars slug_char (AdminPanel.squeezed s) = true /\
  single_dashes (AdminPanel.squeezed s) = true /\
  (forall c s', AdminPanel.squeezed s = String c s' -> exists s'', s = String c s'').
Proof.
  induction s as [|c s IH]; [done|]. intros [Hc Hs]%andb_true_iff.
  destruct (IH Hs) as (IHall & IHsingle & IHhead).
  cbn [AdminPanel.squeezed]. destruct (Ascii.eqb c "-") eqn:Hdash.
  - apply Ascii.eqb_eq in Hdash as ->.
    destruct s as [|c' s']; [by repeat split; [intros ? ? [= <- <-]; eauto]|].
    destruct (Ascii.eqb c' "-") eqn:Hdash'.
    + split; [done|]. split; [done|]. intros c s'' Heq.
      destruct (IHhead c s'' Heq) as (s3 & [= -> ->]).
      apply Ascii.eqb_eq in Hdash' as ->. eauto.
    + split; [by cbn [all_chars]; rewrite IHall|]. split; [|intros ? ? [= <- <-]; eauto].
      destruct (AdminPanel.squeezed (String c' s')) as [|c2 s2] eqn:Hsq; [done|].
      destruct (IHhead c2 s2 eq_refl) as (s3 & [= <- _]).
      rewrite single_dashes_cons, Hdash', andb_false_r. exact IHsingle.
  - split; [by cbn [all_chars]; rewrite Hc, IHall|]. split; [|intros ? ? [= <- <-]; eauto].
    destruct (AdminPanel.squeezed s) as [|c2 s2] eqn:Hsq; [done|].
    rewrite single_dashes_cons, Hdash. exact IHsingle.
Qed.

(** A text of small letters, digits and single dashes is its own slug. *)
Lemma slug_fixed (s : string) :
  all_chars slug_char s = true -> single_dashes s = true ->
  toLowerCase s = s /\ AdminPanel.strip_accents s = s /\ AdminPanel.only_kept s = s /\
  trimStart s = s /\ trimEnd s = s /\ AdminRoutes.dashed s = s /\ AdminPanel.squeezed s = s.
Proof.
  induction s as [|c s IH]; [done|]. intros [Hc Hs]%andb_true_iff Hsingle.
  destruct (slug_char_facts c Hc) as (Hsp & Hk & Hl & Ha).
  assert (Hsingle' : single_dashes s = true).
  { destruct s as [|c' s']; [done|]. rewrite single_dashes_cons in Hsingle.
    by apply andb_true_iff in Hsingle as [_ ?]. }
  destruct (IH Hs Hsingle') as (IHl & IHa & IHk & IHts & IHte & IHd & IHq).
  repeat split.
  - simpl. by rewrite Hl, IHl.
  - simpl. by rewrite Ha, IHa.
  - simpl. by rewrite Hk, IHk.
  - simpl. by rewrite Hsp.
  - simpl. by rewrite Hsp, IHte.
  - cbn [AdminRoutes.dashed]. by rewrite Hsp, IHd.
  - cbn [AdminPanel.squeezed]. destruct (Ascii.eqb c "-") eqn:Hdash; [|by rewrite IHq].
    destruct s as [|c' s']; [by apply Ascii.eqb_eq in Hdash as ->|].
    rewrite single_dashes_cons, Hdash in Hsingle.
    destruct (Ascii.eqb c' "-"); [done|]. rewrite IHq. by apply Ascii.eqb_eq in Hdash as ->.
Qed.

(** X21.  [slugify] of the admin panel, on text below U+0100.  A slug is made of
    small letters, digits and dashes, and no two dashes follow one another
    in it.  Making the slug of a slug changes nothing: every text of that
    form is its own slug.  A value that is falsy has the empty slug. *)
Theorem slugify_normal_form (s : string) :
  exists slug,
    AdminPanel.slugify (VStr s) = Some slug /\
    all_chars slug_char slug = true /\
    single_dashes slug = true /\
    AdminPanel.slugify (VStr slug) = Some slug /\
    (forall t, all_chars slug_char t = true -> single_dashes t = true ->
               AdminPanel.slugify (VStr t) = Some t) /\
    AdminPanel.slugify VUndef = Some "".
Proof.
  assert (Hfixed : forall t, all_chars slug_char t = true -> single_dashes t = true ->
            AdminPanel.slugify (VStr t) = Some t).
  { intros t Hall Hsingle.
    destruct (slug_fixed t Hall Hsingle) as (Hl & Ha & Hk & Hts & Hte & Hd & Hq).
    unfold AdminPanel.slugify, trim. cbn [truthy].
    destruct (negb (String.eqb t "")) eqn:Ht.
    - by rewrite Hl, Ha, Hk, Hts, Hte, Hd, Hq.
    - apply negb_false_iff, String.eqb_eq in Ht as ->. reflexivity. }
  assert (Hpipe : AdminPanel.slugify (VStr s) =
            Some (AdminPanel.squeezed (AdminRoutes.dashed (trim (AdminPanel.only_kept
                    (AdminPanel.strip_accents (toLowerCase s))))))).
  { unfold AdminPanel.slugify. cbn [truthy].
    destruct (negb (String.eqb s "")) eqn:Hs; [done|].
    apply negb_false_iff, String.eqb_eq in Hs as ->. reflexivity. }
  destruct (squeezed_spec (AdminRoutes.dashed (trim (AdminPanel.only_kept
              (AdminPanel.strip_accents (toLowerCase s))))))
    as (Hall & Hsingle & _).
  { apply all_chars_dashed. unfold trim.
    apply all_chars_trimEnd, all_chars_trimStart, all_chars_only_kept. }
  eexists. split; [exact Hpipe|]. split; [exact Hall|]. split; [exact Hsingle|].
  split; [by apply Hfixed|]. split; [exact Hfixed | reflexivity].
Qed.

End slugs.
(** ** The list of posts of the admin routes *)

Section admin_list.
Context `{Runtime}.

Lemma find_head_filter {A} (f : A -> bool) (l : list A) :
  find f l = head (List.filter f l).
Proof.
  unfold find. induction l as [|x l IH]; simpl; [done|].
  destruct (f x); simpl; [done|]. rewrite <- IH.
  by destruct (findIndex f l).
Qed.

Lemma Permutation_List_filter {A} (f : A -> bool) (l l' : list A) :
  Permutation l l' -> Permutation (List.filter f l) (List.filter f l').
Proof.
  induction 1 as [|x l l' _ IH|x y l|l1 l2 l3 _ IH1 _ IH2]; simpl.
  - done.
  - destruct (f x); [by constructor | done].
  - destruct (f x), (f y); try done. apply perm_swap.
  - by etrans.
Qed.

Lemma filter_distinct_length (l : list obj) (id : jsval) :
  distinct (ids l) = true ->
  (List.length (List.filter (fun p => strict_eq (get "id" p) id) l) <= 1)%nat.
Proof.
  induction l as [|p l IH]; simpl; [lia|].
  intros [[Hself Hnone]%andb_true_iff Hd]%andb_true_iff.
  specialize (IH Hd). destruct (strict_eq (get "id" p) id) eqn:Hp; [|exact IH].
  apply strict_eq_eq in Hp. rewrite filter_none; [simpl; lia|].
  intros q Hq. destruct (strict_eq (get "id" q) id) eqn:Hqid; [|done].
  apply strict_eq_eq in Hqid. apply negb_true_iff in Hnone.
  rewrite <- Hnone. symmetry. apply existsb_exists. exists (get "id" q).
  split; [|by rewrite Hqid, <- Hp].
  apply in_map. by apply list_elem_of_In.
Qed.

(** X22.  GET /api/admin/posts on the in-memory database.  The answer lists the
    stored posts, the drafts too, each as often as it is stored.  The call
    is no mere reading: the store then holds its posts in the order of the
    answer.  The categories are as they were and the clock is not read.
    With distinct identifiers a post is found under its identifier as
    before. *)
Theorem admin_get_posts_reorders (w : world InMemoryDatabase.t) :
  exists l w',
    admin_get_posts w = Return (inl l) w' /\
    Permutation l (InMemoryDatabase.posts (db w)) /\
    InMemoryDatabase.posts (db w') = l /\
    InMemoryDatabase.categories (db w') = InMemoryDatabase.categories (db w) /\
    reads w' = reads w /\ console w' = console w /\
    (distinct (ids (InMemoryDatabase.posts (db w))) = true ->
     forall id, value (InMemoryDatabase.getPostById id w') =
                value (InMemoryDatabase.getPostById id w)).
Proof.
  eexists _, _. split; [reflexivity|].
  cbn [db reads console InMemoryDatabase.set_posts InMemoryDatabase.posts
       InMemoryDatabase.categories].
  split; [apply array_sort_perm|]. do 4 (split; [reflexivity|]).
  intros Hd id. unfold InMemoryDatabase.getPostById, bind, this, ret.
  unfold InMemoryDatabase.set_posts. cbn [value db InMemoryDatabase.posts]. f_equal.
  rewrite !find_head_filter.
  pose proof (filter_distinct_length _ id Hd) as Hlen.
  pose proof (Permutation_List_filter (fun p => strict_eq (get "id" p) id) _ _
                (array_sort_perm
                   (fun a b => Date_diff (get "updatedAt" b) (get "updatedAt" a))
                   (InMemoryDatabase.posts (db w)))) as Hperm.
  destruct (List.filter _ (InMemoryDatabase.posts (db w))) as [|p [|q rest]].
  - by apply Permutation_nil_r in Hperm as ->.
  - symmetry in Hperm. by apply Permutation_length_1_inv in Hperm as ->.
  - simpl in Hlen. lia.
Qed.

End admin_list.

(** ** Registering a category in memory *)

Section in_memory_addCategory.
Context `{Runtime}.

(** [addCategory] in memory fails whatever the store holds, or registers
    the trimmed name unless a registered one equals it when case is
    ignored. *)
Lemma in_memory_addCategory_cases name :
  (exists e, forall w, InMemoryDatabase.addCategory name w = Throw e w) \/
  (exists n, trims_to name n /\ n <> "" /\ forall w,
     InMemoryDatabase.addCategory name w =
       if existsb (fun c => String.eqb (toLowerCase c) (toLowerCase n))
            (InMemoryDatabase.categories (db w))
       then InMemoryDatabase.getCategories w
       else InMemoryDatabase.getCategories
              (World (InMemoryDatabase.set_categories (fun l => (l ++ [n])%list) (db w))
                 (S (reads w)) (console w))).
Proof.
  unfold InMemoryDatabase.addCategory, InMemoryDatabase.trimmed, trims_to.
  destruct (if truthy name then name else VStr "") as [| | | | |s| |];
    try (left; eexists; intros w; reflexivity).
  destruct (String.eqb (trim s) "") eqn:Hblank.
  { left. eexists. intros w. unfold bind, ret. by rewrite Hblank. }
  right. exists (trim s). split; [by exists s|]. split; [by apply String.eqb_neq|].
  intros w. unfold bind at 1, ret at 1. rewrite Hblank. unfold bind at 1, this.
  cbv beta iota.
  destruct (existsb _ _); unfold bind at 1; [reflexivity|].
  unfold bind at 1, assign, InMemoryDatabase.saveToFile, new_Date_toISOString, Date_now,
    bind, ret. reflexivity.
Qed.

(** X23.  In memory [addCategory] keeps the registered names different from one
    another when case is ignored: if no two of them are equal in lower case
    before the call, no two are after it, whether it returns or throws.
    When it returns, a registered name equals the trimmed name in lower
    case, the list returned holds that name, and the posts are untouched. *)
Theorem in_memory_addCategory_case_distinct name :
  preserves (fun d => NoDup (map toLowerCase (InMemoryDatabase.categories d)))
    (InMemoryDatabase.addCategory name) /\
  (forall w l w',
     InMemoryDatabase.addCategory name w = Return l w' ->
     InMemoryDatabase.posts (db w') = InMemoryDatabase.posts (db w) /\
     exists n c,
       trims_to name n /\ c ∈ InMemoryDatabase.categories (db w') /\
       toLowerCase c = toLowerCase n /\ VStr c ∈ l).
Proof.
  destruct (in_memory_addCategory_cases name) as [(e & He)|(n & Hn & Hne & Hadd)].
  { split; [intros w Hw; by rewrite He | intros w l w'; by rewrite He]. }
  assert (Hlisted : forall (w : world InMemoryDatabase.t) l c,
            InMemoryDatabase.getCategories w = Return l w ->
            c ∈ InMemoryDatabase.categories (db w) -> VStr c ∈ l).
  { intros w l c Hl Hc. destruct (in_memory_getCategories_union w) as (l' & Hl' & Hin).
    assert (l' = l) as -> by congruence. apply Hin. left. eauto. }
  split.
  - intros w Hw. rewrite Hadd.
    destruct (existsb _ _) eqn:Hex; [exact Hw|].
    cbn [final InMemoryDatabase.getCategories bind this ret db
         InMemoryDatabase.set_categories InMemoryDatabase.categories].
    unfold InMemoryDatabase.getCategories, bind, this, ret.
    cbn [final db InMemoryDatabase.set_categories InMemoryDatabase.categories].
    rewrite map_app. apply NoDup_app. split; [exact Hw|]. split; [|apply NoDup_singleton].
    intros x Hx ->%list_elem_of_singleton.
    apply list_elem_of_fmap in Hx as (c & Hc & Hin).
    apply not_true_iff_false in Hex. apply Hex. apply existsb_exists.
    exists c. split; [by apply list_elem_of_In|]. apply String.eqb_eq. done.
  - intros w l w'. rewrite Hadd.
    destruct (existsb _ _) eqn:Hex.
    + intros Hl. assert (w' = w) as ->.
      { unfold InMemoryDatabase.getCategories, bind, this, ret in Hl. congruence. }
      split; [done|].
      apply existsb_exists in Hex as (c & Hc & Heq%String.eqb_eq).
      exists n, c. split; [exact Hn|]. apply list_elem_of_In in Hc.
      split; [exact Hc|]. split; [exact Heq|]. by apply (Hlisted w).
    + intros Hl.
      set (w1 := World (InMemoryDatabase.set_categories (fun l => (l ++ [n])%list) (db w))
                   (S (reads w)) (console w)) in *.
      assert (w' = w1) as ->.
      { unfold InMemoryDatabase.getCategories, bind, this, ret in Hl. congruence. }
      split; [done|]. exists n, n. split; [exact Hn|].
      assert (Hin : n ∈ InMemoryDatabase.categories (db w1)).
      { cbn [w1 db InMemoryDatabase.set_categories InMemoryDatabase.categories].
        apply elem_of_app. right. by left. }
      split; [exact Hin|]. split; [done|]. by apply (Hlisted w1).
Qed.

End in_memory_addCategory.

(** ** Publishing under PostgreSQL *)

Section publishing_postgresql.
Context `{Runtime} `{Engine}.
Implicit Types (row r : obj) (h : obj -> obj).

Lemma sql_eq_string (v : jsval) (s : string) :
  PostgreSQLDatabase.sql_eq v (VStr s) = true -> v = VStr s.
Proof.
  unfold PostgreSQLDatabase.sql_eq. destruct v; try done. simpl.
  by intros ->%String.eqb_eq.
Qed.

Lemma sql_eq_refl_string (s : string) :
  PostgreSQLDatabase.sql_eq (VStr s) (VStr s) = true.
Proof. unfold PostgreSQLDatabase.sql_eq. simpl. apply String.eqb_refl. Qed.

Lemma head_elem {A} (l : list A) (x : A) : head l = Some x -> x ∈ l.
Proof. destruct l as [|y l]; [done|]. intros [= ->]. left. Qed.

Lemma get_publishedDate_mapPostFromDb r :
  get "publishedDate" (PostgreSQLDatabase.mapPostFromDb r) = get "published_date" r.
Proof.
  unfold PostgreSQLDatabase.mapPostFromDb.
  rewrite !get_insert_ne by done. apply get_insert.
Qed.

Lemma get_id_mapPostFromDb r :
  get "id" (PostgreSQLDatabase.mapPostFromDb r) = get "id" r.
Proof. unfold PostgreSQLDatabase.mapPostFromDb. apply get_insert. Qed.

(** The rows [getPosts] reads when no filter is given. *)
Lemma postgresql_getPosts_all (w : world PostgreSQLDatabase.t) :
  PostgreSQLDatabase.getPosts ∅ w =
    Return (PostgreSQLDatabase.mapPostFromDb <$>
            order_by_published_date_desc
              (List.filter (fun r => PostgreSQLDatabase.sql_eq (get "status" r) (VStr "published"))
                 (PostgreSQLDatabase.posts_table (db w)))) w.
Proof. reflexivity. Qed.

(** What a TIMESTAMP takes suits a column of that type. *)
Lemma timestamp_has_type (v pd : jsval) :
  PostgreSQLDatabase.timestamp v = Some pd ->
  PostgreSQLDatabase.has_type PostgreSQLDatabase.TIMESTAMP pd = true.
Proof.
  unfold PostgreSQLDatabase.timestamp.
  destruct v as [| | | | | |[t|]|]; cbn [PostgreSQLDatabase.param];
    try (by intros [= <-]);
    (destruct (timestamp_in _); [|done]); by intros [= <-].
Qed.

(** The row an UPDATE of status and published_date leaves. *)
Lemma restatus_fields (now : Z) (pd : jsval) (st : string) r :
  PostgreSQLDatabase.fits 50 (VStr st) = true ->
  PostgreSQLDatabase.has_type PostgreSQLDatabase.TIMESTAMP pd = true ->
  get "id" (<["updated_at" := VDate (Some now)]>
              (<["published_date" := pd]> (<["status" := VStr st]> r))) = get "id" r /\
  get "slug" (<["updated_at" := VDate (Some now)]>
                (<["published_date" := pd]> (<["status" := VStr st]> r))) = get "slug" r /\
  get "status" (<["updated_at" := VDate (Some now)]>
                  (<["published_date" := pd]> (<["status" := VStr st]> r))) = VStr st /\
  get "published_date"
    (<["updated_at" := VDate (Some now)]>
       (<["published_date" := pd]> (<["status" := VStr st]> r))) = pd /\
  (PostgreSQLDatabase.row_ok r = true ->
   PostgreSQLDatabase.row_ok
     (<["updated_at" := VDate (Some now)]>
        (<["published_date" := pd]> (<["status" := VStr st]> r))) = true).
Proof.
  intros Hfits Hpd.
  split; [by rewrite !get_insert_ne by done|].
  split; [by rewrite !get_insert_ne by done|].
  split; [by rewrite (get_insert_ne "updated_at"), (get_insert_ne "published_date"), get_insert|].
  split; [by rewrite (get_insert_ne "updated_at"), get_insert|].
  intros Hr. apply row_ok_insert; [reflexivity|].
  apply row_ok_insert.
  { unfold PostgreSQLDatabase.column_ok.
    change (PostgreSQLDatabase.column_type PostgreSQLDatabase.columns "published_date")
      with (Some (PostgreSQLDatabase.TIMESTAMP, false)).
    cbv beta iota. by rewrite Hpd. }
  apply row_ok_insert; [|exact Hr].
  unfold PostgreSQLDatabase.column_ok.
  change (PostgreSQLDatabase.column_type PostgreSQLDatabase.columns "status")
    with (Some (PostgreSQLDatabase.VARCHAR 50, false)).
  cbv beta iota. cbn [PostgreSQLDatabase.has_type PostgreSQLDatabase.fits] in *.
  by rewrite Hfits.
Qed.

Lemma publish_assignments (iso : string) :
  PostgreSQLDatabase.assignments
    (<["status" := VStr "published"]> (<["publishedDate" := VStr iso]> ∅)) =
  [("status", VStr "published"); ("published_date", VStr iso)].
Proof. vm_compute. reflexivity. Qed.

Lemma unpublish_assignments :
  PostgreSQLDatabase.assignments
    (<["status" := VStr "draft"]> (<["publishedDate" := VUndef]> ∅)) =
  [("status", VStr "draft"); ("published_date", VUndef)].
Proof. vm_compute. reflexivity. Qed.

Lemma restatus_stored (st : string) (v : jsval) :
  PostgreSQLDatabase.stored_fields [("status", VStr st); ("published_date", v)] =
    match PostgreSQLDatabase.timestamp v with
    | Some pd => Some [("status", VStr st); ("published_date", pd)]
    | None => None
    end.
Proof.
  rewrite !stored_fields_cons.
  change (PostgreSQLDatabase.stored "status" (VStr st)) with (Some (VStr st)).
  change (PostgreSQLDatabase.stored "published_date" v) with (PostgreSQLDatabase.timestamp v).
  by destruct (PostgreSQLDatabase.timestamp v).
Qed.

(** [updatePost] with a status and a publishedDate the engine reads as
    [pd], on a stored row. *)
Lemma postgresql_restatus (w : world PostgreSQLDatabase.t) (id : string) updates
    (st : string) (v pd : jsval) row :
  PostgreSQLDatabase.assignments updates = [("status", VStr st); ("published_date", v)] ->
  PostgreSQLDatabase.timestamp v = Some pd ->
  PostgreSQLDatabase.fits 50 (VStr st) = true ->
  constrained (db w) ->
  head (List.filter (fun r => PostgreSQLDatabase.sql_eq (get "id" r) (VStr id))
          (PostgreSQLDatabase.posts_table (db w))) = Some row ->
  exists row' w1,
    PostgreSQLDatabase.updatePost (VStr id) updates w =
      Return (Some (PostgreSQLDatabase.mapPostFromDb row')) w1 /\
    get "id" row' = VStr id /\ get "status" row' = VStr st /\ get "published_date" row' = pd /\
    row' ∈ PostgreSQLDatabase.posts_table (db w1) /\
    (forall r, r ∈ PostgreSQLDatabase.posts_table (db w1) -> get "id" r = VStr id ->
               get "status" r = VStr st) /\
    constrained (db w1) /\
    head (List.filter (fun r => PostgreSQLDatabase.sql_eq (get "id" r) (VStr id))
            (PostgreSQLDatabase.posts_table (db w1))) = Some row'.
Proof.
  intros Hassign Hv Hfits Hok Hhead.
  pose proof (timestamp_has_type _ _ Hv) as Hpd.
  pose (h := fun r : obj =>
               <["updated_at" := VDate (Some (clock (reads w)))]>
                 (<["published_date" := pd]> (<["status" := VStr st]> r))).
  set (f := fun r : obj => if PostgreSQLDatabase.sql_eq (get "id" r) (VStr id) then h r else r).
  assert (Hok1 : PostgreSQLDatabase.posts_ok (map f (PostgreSQLDatabase.posts_table (db w)))
                 = true).
  { apply posts_ok_map; [..|exact Hok]; intros r;
      apply (restatus_fields _ pd st r Hfits Hpd). }
  destruct (postgresql_updatePost_stored w (VStr id) updates row
              [("status", VStr st); ("published_date", pd)])
    as (row' & w1 & Hup & Htable & _ & Hrow' & _).
  { exact Hhead. }
  { by rewrite Hassign. }
  { rewrite Hassign. apply (bool_decide_unpack _). vm_compute. reflexivity. }
  { by rewrite Hassign, restatus_stored, Hv. }
  { exact Hok1. }
  change (row' = h row) in Hrow'. subst row'.
  change (PostgreSQLDatabase.posts_table (db w1) =
          map f (PostgreSQLDatabase.posts_table (db w))) in Htable.
  destruct (restatus_fields (clock (reads w)) pd st row Hfits Hpd)
    as (Hid & _ & Hst & Hpd' & _).
  pose proof (sql_eq_string _ _ (head_filter_true _ _ _ Hhead)) as Hrow_id.
  assert (Hhead1 : head (List.filter
                     (fun r => PostgreSQLDatabase.sql_eq (get "id" r) (VStr id))
                     (PostgreSQLDatabase.posts_table (db w1))) = Some (h row)).
  { rewrite Htable, filter_map_preserved.
    2: { intros r. unfold f. destruct (PostgreSQLDatabase.sql_eq (get "id" r) _) eqn:Hr;
           [|exact Hr].
         unfold h. by rewrite (proj1 (restatus_fields _ pd st r Hfits Hpd)). }
    pose proof (head_filter_true _ _ _ Hhead) as Hr. cbv beta in Hr.
    rewrite head_map, Hhead. cbn [fmap option_fmap option_map]. unfold f. by rewrite Hr. }
  exists (h row), w1. split; [exact Hup|]. split; [unfold h; by rewrite Hid|].
  split; [exact Hst|]. split; [exact Hpd'|]. split.
  { apply head_elem in Hhead1. by apply elem_of_List_filter in Hhead1 as [? _]. }
  split; [|split; [unfold constrained; by rewrite Htable | exact Hhead1]].
  intros r Hr Hrid. rewrite Htable in Hr. apply list_elem_of_fmap in Hr as (r0 & -> & _).
  unfold f in *.
  destruct (PostgreSQLDatabase.sql_eq (get "id" r0) (VStr id)) eqn:Hr0.
  - apply (restatus_fields _ pd st r0 Hfits Hpd).
  - rewrite Hrid, sql_eq_refl_string in Hr0. discriminate Hr0.
Qed.

(** X24.  Publishing and unpublishing through the admin routes under
    PostgreSQL, the table within its constraints and the identifier the one
    of a row.  PATCH publish binds the time of the call, as ISO text, to
    [published_date], a TIMESTAMP.  When the engine refuses that text the
    answer is status 500 and the tables are as they were.  When it reads
    the text as a date, the post comes back with the status published and,
    for publishedDate, the Date the driver reads back from the column, and
    [getPosts] then lists it.  PATCH unpublish gives it the status draft
    and no publishedDate (NULL), and [getPosts] then lists no post of that
    identifier.  The constraints of the table hold throughout. *)
Theorem publish_unpublish_postgresql (w : world PostgreSQLDatabase.t) (id : string) row :
  constrained (db w) ->
  head (List.filter (fun r => PostgreSQLDatabase.sql_eq (get "id" r) (VStr id))
          (PostgreSQLDatabase.posts_table (db w))) = Some row ->
  (timestamp_in (toISOString (clock (reads w))) = None ->
   exists w1,
     AdminRoutes.publish id w = Return (AdminRoutes.Failed 500 "invalid input syntax") w1 /\
     db w1 = db w) /\
  (forall t, timestamp_in (toISOString (clock (reads w))) = Some t ->
   exists post1 w1 post2 w2,
     AdminRoutes.publish id w = Return (AdminRoutes.Json 200 (Some post1)) w1 /\
     get "id" post1 = VStr id /\
     get "status" post1 = VStr "published" /\
     get "publishedDate" post1 = VDate (Some t) /\
     (exists l, PostgreSQLDatabase.getPosts ∅ w1 = Return l w1 /\ post1 ∈ l) /\
     constrained (db w1) /\
     AdminRoutes.unpublish id w1 = Return (AdminRoutes.Json 200 (Some post2)) w2 /\
     get "status" post2 = VStr "draft" /\
     get "publishedDate" post2 = VNull /\
     (exists l, PostgreSQLDatabase.getPosts ∅ w2 = Return l w2 /\
                forall q, q ∈ l -> get "id" q <> VStr id) /\
     constrained (db w2)).
Proof.
  intros Hok Hhead.
  assert (Hpublish : AdminRoutes.publish id w =
            match PostgreSQLDatabase.updatePost (VStr id)
                    (<["status" := VStr "published"]>
                       (<["publishedDate" := VStr (toISOString (clock (reads w)))]> ∅))
                    (World (db w) (S (reads w)) (console w)) with
            | Return updated w' => Return (AdminRoutes.Json 200 updated) w'
            | Throw e w' => Return (AdminRoutes.Failed 500 (message e)) w'
            end).
  { unfold AdminRoutes.publish, try_catch, bind at 1, new_Date_toISOString, bind at 1,
      Date_now, ret. cbv beta iota. unfold bind at 1.
    unfold db_updatePost. cbn [PostgreSQL_Backend].
    by destruct (PostgreSQLDatabase.updatePost _ _ _). }
  split.
  - intros Hnone. eexists. split.
    + rewrite Hpublish, postgresql_updatePost_refused.
      * reflexivity.
      * by rewrite publish_assignments.
      * rewrite publish_assignments. apply (bool_decide_unpack _). vm_compute. reflexivity.
      * rewrite publish_assignments, restatus_stored.
        unfold PostgreSQLDatabase.timestamp. cbn [PostgreSQLDatabase.param].
        by rewrite Hnone.
    + reflexivity.
  - intros t Ht.
    destruct (postgresql_restatus (World (db w) (S (reads w)) (console w)) id _ "published"
                (VStr (toISOString (clock (reads w)))) (VDate (Some t)) row
                (publish_assignments _))
      as (row1 & w1 & Hup1 & Hid1 & Hst1 & Hpd1 & Hin1 & _ & Hok1 & Hhead1);
      [unfold PostgreSQLDatabase.timestamp; cbn [PostgreSQLDatabase.param]; by rewrite Ht
      | reflexivity | exact Hok | exact Hhead |].
    destruct (postgresql_restatus w1 id _ "draft" VUndef VNull row1
                unpublish_assignments eq_refl eq_refl Hok1 Hhead1)
      as (row2 & w2 & Hup2 & Hid2 & Hst2 & Hpd2 & Hin2 & Hall2 & Hok2 & _).
    exists (PostgreSQLDatabase.mapPostFromDb row1), w1,
           (PostgreSQLDatabase.mapPostFromDb row2), w2.
    split; [by rewrite Hpublish, Hup1|].
    split; [rewrite get_id_mapPostFromDb; exact Hid1|].
    split; [rewrite get_status_mapPostFromDb; exact Hst1|].
    split; [rewrite get_publishedDate_mapPostFromDb; exact Hpd1|].
    split.
    { eexists. split; [apply postgresql_getPosts_all|].
      apply list_elem_of_fmap. exists row1. split; [reflexivity|].
      rewrite order_by_published_date_desc_perm.
      apply elem_of_List_filter. split; [exact Hin1|].
      rewrite Hst1. apply sql_eq_refl_string. }
    split; [exact Hok1|].
    split.
    { unfold AdminRoutes.unpublish, try_catch, bind at 1.
      unfold db_updatePost. cbn [PostgreSQL_Backend]. rewrite Hup2. reflexivity. }
    split; [rewrite get_status_mapPostFromDb; exact Hst2|].
    split; [rewrite get_publishedDate_mapPostFromDb; exact Hpd2|].
    split; [|exact Hok2].
    eexists. split; [apply postgresql_getPosts_all|].
    intros q Hq Hqid.
    apply list_elem_of_fmap in Hq as (r' & -> & Hr').
    rewrite order_by_published_date_desc_perm in Hr'.
    apply elem_of_List_filter in Hr' as [Hr' Hpub].
    rewrite get_id_mapPostFromDb in Hqid.
    rewrite (Hall2 r' Hr' Hqid) in Hpub. discriminate Hpub.
Qed.

End publishing_postgresql.

Section publishing_postgresql_examples.
Local Existing Instance Reference.runtime.
Local Existing Instance Reference.engine.

Lemma publish_unpublish_postgresql_witness :
  constrained (db Examples.postgresql_one_post) /\
  timestamp_in (toISOString (clock (reads Examples.postgresql_one_post))) =
    Some (clock (reads Examples.postgresql_one_post)) /\
  exists post1 w1 post2 w2,
    AdminRoutes.publish "7" Examples.postgresql_one_post =
      Return (AdminRoutes.Json 200 (Some post1)) w1 /\
    get "status" post1 = VStr "published" /\
    get "publishedDate" post1 = VDate (Some (clock (reads Examples.postgresql_one_post))) /\
    AdminRoutes.unpublish "7" w1 = Return (AdminRoutes.Json 200 (Some post2)) w2 /\
    get "publishedDate" post2 = VNull.
Proof.
  split; [apply postgresql_one_post_schema|].
  assert (Ht : timestamp_in (toISOString (clock (reads Examples.postgresql_one_post))) =
               Some (clock (reads Examples.postgresql_one_post))) by (vm_compute; reflexivity).
  split; [exact Ht|].
  destruct (publish_unpublish_postgresql Examples.postgresql_one_post "7" Examples.quiz_row)
    as [_ Hsome].
  - apply postgresql_one_post_schema.
  - exact postgresql_one_post_head.
  - destruct (Hsome _ Ht)
      as (post1 & w1 & post2 & w2 & Hpub & _ & Hs1 & Hd1 & _ & _ & Hunpub & _ & Hd2 & _).
    exists post1, w1, post2, w2. split; [exact Hpub|]. split; [exact Hs1|].
    split; [exact Hd1|]. split; [exact Hunpub | exact Hd2].
Defined.

End publishing_postgresql_examples.
